(** * Biomni lab automation: script validation pipeline and wetlab store

    A shallow embedding of [biomni/tool/lab_automation.py]:
    - [PyStr]: the Python string methods the code relies on;
    - [Transformer]: [_modify_script_for_testing];
    - [Pipeline]: [test_pylabrobot_script] and the functions it calls,
      for exceptions that have a text;
    - [ScriptExceptions]: the execution stage and the handler around the
      stages again, for exceptions of the script's own making;
    - [Wetlab]: the SQLite-backed [wetlab_results] table operations;
    - [WetlabMore], [WetlabFormat]: update, delete, initialisation and the
      text table of a query;
    - [Docs]: [_format_liquid_user_guide]. *)

From Stdlib Require Import String Ascii List Bool Arith Lia ZArith.
From Stdlib Require Import DecimalString Permutation.
Import ListNotations.
Open Scope string_scope.

(* ================================================================== *)
(** ** Python string methods *)
(* ================================================================== *)

Module PyStr.

(** Source text is modelled as a sequence of code points below 256. *)

Definition nl : ascii := "010"%char.
Definition nl_str : string := String nl "".

(** [str.isspace] on one character, for the code points below 256. *)
Definition is_space (c : ascii) : bool :=
  let n := nat_of_ascii c in
  (((9 <=? n) && (n <=? 13)) || ((28 <=? n) && (n <=? 32))
   || (n =? 133) || (n =? 160))%nat.

Fixpoint lstrip (s : string) : string :=
  match s with
  | "" => ""
  | String c s' => if is_space c then lstrip s' else s
  end.

Fixpoint rstrip (s : string) : string :=
  match s with
  | "" => ""
  | String c s' =>
      match rstrip s' with
      | "" => if is_space c then "" else String c ""
      | r => String c r
      end
  end.

(** [s.strip()] *)
Definition strip (s : string) : string := rstrip (lstrip s).

(** [s.startswith(p)] *)
Definition startswith (p s : string) : bool := prefix p s.

(** [s.startswith((p1, ..., pn))] *)
Definition startswith_any (ps : list string) (s : string) : bool :=
  existsb (fun p => startswith p s) ps.

Fixpoint rev_str (s : string) : string :=
  match s with
  | "" => ""
  | String c s' => rev_str s' ++ String c ""
  end.

(** [s.endswith(p)] *)
Definition endswith (p s : string) : bool := prefix (rev_str p) (rev_str s).

(** [p in s] *)
Fixpoint contains (p s : string) : bool :=
  prefix p s || match s with "" => false | String _ s' => contains p s' end.

(** Number of positions of [s] at which [p] starts. *)
Fixpoint occurrences (p s : string) : nat :=
  (if prefix p s then 1 else 0)
  + match s with "" => 0 | String _ s' => occurrences p s' end.

Fixpoint mem_char (c : ascii) (s : string) : bool :=
  match s with
  | "" => false
  | String d s' => Ascii.eqb c d || mem_char c s'
  end.

(** [s.split(sep)] for a one-character separator: never the empty list. *)
Fixpoint split (sep : ascii) (s : string) : list string :=
  match s with
  | "" => [""]
  | String c s' =>
      if Ascii.eqb c sep then "" :: split sep s'
      else match split sep s' with
           | h :: t => String c h :: t
           | [] => [String c ""]
           end
  end.

(** [sep.join(ls)] *)
Definition join (sep : string) (ls : list string) : string :=
  String.concat sep ls.

(** The scan of [s.replace(old, new)] for a non-empty [old]: [skip] counts
    the characters of a matched [old] still to be dropped. *)
Fixpoint replace_go (old new : string) (skip : nat) (s : string) : string :=
  match s with
  | "" => ""
  | String c s' =>
      match skip with
      | S k => replace_go old new k s'
      | O =>
          if prefix old s
          then new ++ replace_go old new (String.length old - 1) s'
          else String c (replace_go old new 0 s')
      end
  end.

Fixpoint intersperse_after (new s : string) : string :=
  match s with
  | "" => ""
  | String c s' => String c (new ++ intersperse_after new s')
  end.

(** [s.replace(old, new)]: every non-overlapping occurrence, left to right;
    an empty [old] matches before every character and at the end. *)
Definition replace (old new s : string) : string :=
  match old with
  | "" => new ++ intersperse_after new s
  | _ => replace_go old new 0 s
  end.

(** [l.insert(i, x)] for an index [0 <= i]; beyond the end it appends. *)
Definition list_insert {A} (i : nat) (x : A) (l : list A) : list A :=
  firstn i l ++ x :: skipn i l.

(** [s[:n]] *)
Definition take (n : nat) (s : string) : string := substring 0 n s.

End PyStr.

(* ================================================================== *)
(** ** Exceptions *)
(* ================================================================== *)

Module PyExn.

(** The subclasses of [Exception] the code raises or tells apart; each
    name stands for the class and its subclasses. *)
Inductive exn_class : Type :=
  | SyntaxError | ImportError | OSError | RuntimeError
  | UnboundLocalError | ValueError | TypeError | OverflowError
  | IntegrityError | OtherException.

Definition exn_class_eq_dec (a b : exn_class) : {a = b} + {a <> b}.
Proof. decide equality. Defined.

Definition exn_class_eqb (a b : exn_class) : bool :=
  if exn_class_eq_dec a b then true else false.

(** An exception of the interpreter or of a library: [exn_msg] is
    [str(e)], which returns for these; [exn_lineno] is [e.lineno] of a
    [SyntaxError]. Objects a script raises of classes of its own, of
    which [str] can raise, are those of [ScriptExceptions]. *)
Record exn : Type := mk_exn
  { exn_cls : exn_class; exn_msg : string; exn_lineno : option Z }.

Inductive outcome (A : Type) : Type :=
  | Ret (a : A)
  | Raise (e : exn).
Arguments Ret {A} a.
Arguments Raise {A} e.

(** What running user code can do: finish, raise an [Exception] (here one
    that has a text and is true), or leave through a [BaseException] that
    [except Exception] does not catch ([SystemExit],
    [KeyboardInterrupt]). *)
Inductive run (A : Type) : Type :=
  | Done (a : A)
  | Throws (e : exn)
  | Exits.
Arguments Done {A} a.
Arguments Throws {A} e.
Arguments Exits {A}.

(** [str(z)] of an [int]. *)
Definition str_of_Z (z : Z) : string := NilZero.string_of_int (Z.to_int z).

End PyExn.

(* ================================================================== *)
(** ** The script transformer *)
(* ================================================================== *)

Module Transformer.
Import PyStr.

Definition hardware_backend : string := "STARBackend()".
Definition simulation_backend : string := "LiquidHandlerChatterboxBackend()".

Definition replacements : list (string * string) :=
  [(hardware_backend, simulation_backend)].

Definition backend_import : string :=
  "from pylabrobot.liquid_handling.backends import LiquidHandlerChatterboxBackend".

Definition import_or_comment (line : string) : bool :=
  startswith_any ["from "; "import "; "#"] (strip line).

Definition definition_line (line : string) : bool :=
  startswith_any ["async def"; "def"; "class"; "if __name__"] (strip line).

(** The first loop: [i] is the index of the head of [lines], [insert_at]
    the value of the variable when the loop reaches it. *)
Fixpoint scan_insert_at (lines : list string) (i insert_at : nat) : nat :=
  match lines with
  | [] => insert_at
  | line :: rest =>
      if import_or_comment line then scan_insert_at rest (S i) (S i)
      else if definition_line line then insert_at
      else scan_insert_at rest (S i) (S i)
  end.

Definition tracking_setup (enable_tracking : bool) : string :=
  if enable_tracking then
    join nl_str
      [ ""
      ; "# Enable PyLabRobot tracking for validation"
      ; "try:"
      ; "    from pylabrobot.resources import set_tip_tracking, set_volume_tracking"
      ; "    set_tip_tracking(True)"
      ; "    set_volume_tracking(True)"
      ; "except ImportError:"
      ; "    pass  # Tracking not available in this PyLabRobot version"
      ; ""
      ; "" ]
  else
    join nl_str
      [ ""
      ; "# Disable PyLabRobot tracking for testing"
      ; "try:"
      ; "    from pylabrobot.resources import set_tip_tracking, set_volume_tracking"
      ; "    set_tip_tracking(False)"
      ; "    set_volume_tracking(False)"
      ; "except ImportError:"
      ; "    pass  # Tracking not available in this PyLabRobot version"
      ; ""
      ; "" ].

Definition entry_line (line : string) : bool :=
  startswith "async def" (strip line)
  || startswith "def" (strip line)
  || startswith "if __name__" (strip line).

(** The second loop: [insert_index] stays 0 unless a line matches. *)
Fixpoint scan_insert_index (lines : list string) (i : nat) : nat :=
  match lines with
  | [] => 0
  | line :: rest =>
      if entry_line line then i else scan_insert_index rest (S i)
  end.

Definition apply_replacements (s : string) : string :=
  fold_left (fun acc '(old, new) => replace old new acc) replacements s.

Definition insert_backend_import (script : string) : string :=
  let lines := split nl script in
  join nl_str (list_insert (scan_insert_at lines 0 0) backend_import lines).

Definition insert_tracking (enable_tracking : bool) (script : string) : string :=
  let lines := split nl script in
  join nl_str
    (list_insert (scan_insert_index lines 0) (tracking_setup enable_tracking) lines).

Definition _modify_script_for_testing
    (script_content : string) (enable_tracking : bool) : string :=
  insert_tracking enable_tracking
    (insert_backend_import (apply_replacements script_content)).

End Transformer.

(* ================================================================== *)
(** ** The validation pipeline *)
(* ================================================================== *)

Module Pipeline.
Import PyStr PyExn Transformer.

(** [f"{e.lineno}"]: the attribute is an [int] or [None]. *)
Definition str_of_lineno (l : option Z) : string :=
  match l with
  | Some z => str_of_Z z
  | None => "None"
  end.

(** *** The parsed tree, as far as the import check reads it *)

Inductive ast_node : Type :=
  | Import (names : list string)
  | ImportFrom (module : option string) (names : list string)
  | OtherNode.

Inductive main_kind : Type := NoMain | SyncMain | AsyncMain.

(** *** Dictionaries of the result *)

(** The source only ever stores the literal [0.0] in [liquid_transferred]
    and [execution_time]; both are kept as integers. *)

Record TestResults : Type := mk_test_results
  { syntax_valid : bool
  ; imports_valid : bool
  ; simulation_successful : bool
  ; tracking_enabled : bool
  ; input_type : option string
  ; file_path : option string }.

Record RunSummary : Type := mk_run_summary
  { rs_operations_performed : Z
  ; rs_tips_used : Z
  ; rs_liquid_transferred : Z }.

Record ExecutionSummary : Type := mk_execution_summary
  { operations_performed : Z
  ; tips_used : Z
  ; liquid_transferred : Z
  ; execution_time : Z
  ; total_execution_time : option Z }.

(** The dictionary a caller reads, and what [json.dump] serialises. *)
Record Report : Type := mk_report
  { success : bool
  ; test_results : TestResults
  ; execution_summary : ExecutionSummary
  ; errors : list string
  ; warnings : list string
  ; test_report_path : option string }.

(** *** The environment *)

(** Everything outside the module, as one call of
    [test_pylabrobot_script] meets it: the file system, the parser, the
    import system, the worker thread and the clock. Durations are in clock
    ticks, and [elapsed] is [time.time() - start_time] as this call reads
    it; another call reads another value.
    [ast_parse] gives the nodes in the order of [ast.walk];
    [import_module] is [__import__] and gives [hasattr] of the module;
    [write_temp_script] is the [with] block of the temporary file, which
    gives the path or fails before the path is bound;
    [thread_join] tells whether the worker is alive after the bounded
    join; the flag of [asyncio_run_main] says whether it runs in the
    nested thread. *)
Record Env : Type := mk_env
  { os_path_isfile : string -> outcome bool
  ; read_text : string -> outcome string
  ; ast_parse : string -> outcome (list ast_node)
  ; import_module : string -> list string -> outcome (string -> bool)
  ; write_temp_script : string -> outcome string
  ; os_unlink : string -> bool
  ; thread_join : string -> Z -> outcome bool
  ; exec_script : string -> run main_kind
  ; call_main : string -> run unit
  ; asyncio_run_main : string -> bool -> run unit
  ; loop_running : bool
  ; elapsed : Z
  ; makedirs : string -> outcome unit
  ; gettempdir : string
  ; strftime : string
  ; os_path_join : string -> string -> string
  ; write_report : string -> Report -> outcome unit }.

(** *** The objects one call shares *)

Inductive stage : Type :=
  | StageSyntax | StageImports | StageTransform | StageExecute | StageReport.

(** The four mutable objects [test_pylabrobot_script] creates and hands, by
    reference, to [_create_test_result] and to the result dictionary.
    [st_stages] is a ghost log of the stages entered, oldest first. *)
Record store : Type := mk_store
  { st_test_results : TestResults
  ; st_execution_summary : ExecutionSummary
  ; st_errors : list string
  ; st_warnings : list string
  ; st_stages : list stage }.

(** The result dictionary: its own two entries; the other four are
    references to the objects of the store. *)
Record result_dict : Type := mk_result_dict
  { rd_success : bool
  ; rd_test_report_path : option string }.

(** What the dictionary shows when read in a given store. *)
Definition view (r : result_dict) (st : store) : Report :=
  {| success := rd_success r
   ; test_results := st_test_results st
   ; execution_summary := st_execution_summary st
   ; errors := st_errors st
   ; warnings := st_warnings st
   ; test_report_path := rd_test_report_path r |}.

(** *** A state and exception monad *)

Definition M (A : Type) : Type := store -> outcome A * store.

Definition ret {A} (a : A) : M A := fun st => (Ret a, st).
Definition raise {A} (e : exn) : M A := fun st => (Raise e, st).
Definition bind {A B} (m : M A) (k : A -> M B) : M B :=
  fun st =>
    match m st with
    | (Ret a, st') => k a st'
    | (Raise e, st') => (Raise e, st')
    end.
(** [try: m except Exception as e: h e] *)
Definition try_except {A} (m : M A) (h : exn -> M A) : M A :=
  fun st =>
    match m st with
    | (Ret a, st') => (Ret a, st')
    | (Raise e, st') => h e st'
    end.
(** [try: m except C as e: h e] for one class [C] *)
Definition try_except_class {A} (c : exn_class) (m : M A) (h : exn -> M A)
  : M A :=
  fun st =>
    match m st with
    | (Ret a, st') => (Ret a, st')
    | (Raise e, st') =>
        if exn_class_eqb (exn_cls e) c then h e st' else (Raise e, st')
    end.
Definition lift {A} (o : outcome A) : M A := fun st => (o, st).
Definition get : M store := fun st => (Ret st, st).
Definition modify (f : store -> store) : M unit := fun st => (Ret tt, f st).

Declare Scope py_scope.
Delimit Scope py_scope with py.
Notation "x <- m ;; k" := (bind m (fun x => k))
  (at level 61, m at next level, right associativity) : py_scope.
Notation "m ;;; k" := (bind m (fun _ => k))
  (at level 61, right associativity) : py_scope.
Open Scope py_scope.

Definition errors_append (msg : string) : M unit :=
  modify (fun st =>
    {| st_test_results := st_test_results st
     ; st_execution_summary := st_execution_summary st
     ; st_errors := st_errors st ++ [msg]
     ; st_warnings := st_warnings st
     ; st_stages := st_stages st |}).

Definition errors_extend (msgs : list string) : M unit :=
  modify (fun st =>
    {| st_test_results := st_test_results st
     ; st_execution_summary := st_execution_summary st
     ; st_errors := st_errors st ++ msgs
     ; st_warnings := st_warnings st
     ; st_stages := st_stages st |}).

Definition warnings_append (msg : string) : M unit :=
  modify (fun st =>
    {| st_test_results := st_test_results st
     ; st_execution_summary := st_execution_summary st
     ; st_errors := st_errors st
     ; st_warnings := st_warnings st ++ [msg]
     ; st_stages := st_stages st |}).

Definition warnings_extend (msgs : list string) : M unit :=
  modify (fun st =>
    {| st_test_results := st_test_results st
     ; st_execution_summary := st_execution_summary st
     ; st_errors := st_errors st
     ; st_warnings := st_warnings st ++ msgs
     ; st_stages := st_stages st |}).

Definition set_test_results (f : TestResults -> TestResults) : M unit :=
  modify (fun st =>
    {| st_test_results := f (st_test_results st)
     ; st_execution_summary := st_execution_summary st
     ; st_errors := st_errors st
     ; st_warnings := st_warnings st
     ; st_stages := st_stages st |}).

Definition set_execution_summary (f : ExecutionSummary -> ExecutionSummary)
  : M unit :=
  modify (fun st =>
    {| st_test_results := st_test_results st
     ; st_execution_summary := f (st_execution_summary st)
     ; st_errors := st_errors st
     ; st_warnings := st_warnings st
     ; st_stages := st_stages st |}).

Definition enter (s : stage) : M unit :=
  modify (fun st =>
    {| st_test_results := st_test_results st
     ; st_execution_summary := st_execution_summary st
     ; st_errors := st_errors st
     ; st_warnings := st_warnings st
     ; st_stages := st_stages st ++ [s] |}).

(** *** The stages *)

Record ImportResults : Type := mk_import_results
  { ir_success : bool; ir_errors : list string; ir_warnings : list string }.

Record RunResult : Type := mk_run_result
  { rr_summary : RunSummary; rr_warnings : list string }.

Record ExecResult : Type := mk_exec_result
  { er_success : bool
  ; er_summary : RunSummary
  ; er_errors : list string
  ; er_warnings : list string }.

(** The locals [result] and [exception] of the worker's closure. *)
Record thread_locals : Type := mk_thread_locals
  { tl_result : option RunResult; tl_exception : option exn }.

Inductive flow (A : Type) : Type :=
  | Continue (a : A)
  | Return (r : result_dict).
Arguments Continue {A} a.
Arguments Return {A} r.

Definition zero_summary : RunSummary :=
  {| rs_operations_performed := 0; rs_tips_used := 0
   ; rs_liquid_transferred := 0 |}.

Definition initial_store (enable_tracking : bool) : store :=
  {| st_test_results :=
       {| syntax_valid := false; imports_valid := false
        ; simulation_successful := false
        ; tracking_enabled := enable_tracking
        ; input_type := None; file_path := None |}
   ; st_execution_summary :=
       {| operations_performed := 0; tips_used := 0
        ; liquid_transferred := 0; execution_time := 0
        ; total_execution_time := None |}
   ; st_errors := []
   ; st_warnings := []
   ; st_stages := [] |}.

Definition dot : ascii := "."%char.

(** The names the walk over the tree collects. *)
Definition collect_imports (nodes : list ast_node) : list string :=
  flat_map
    (fun node =>
       match node with
       | Import names => filter (contains "pylabrobot") names
       | ImportFrom (Some m) names =>
           if negb (m =? "") && contains "pylabrobot" m
           then map (fun a => m ++ "." ++ a) names
           else []
       | ImportFrom None _ => []
       | OtherNode => []
       end)
    nodes.

Definition unbound_temp_script_path : exn :=
  {| exn_cls := UnboundLocalError
   ; exn_msg := "cannot access local variable 'temp_script_path' where it is not associated with a value"
   ; exn_lineno := None |}.

Section WithEnv.

Variable env : Env.

(** One turn of the loop over the collected names: the error and warning
    entries it appends. *)
Definition check_import (import_name : string) : list string * list string :=
  let attempt : outcome (list string) :=
    if contains "." import_name then
      let parts := split dot import_name in
      let module_parts := removelast parts in
      let class_name := last parts "" in
      let module_name := join "." module_parts in
      match import_module env module_name [class_name] with
      | Ret module_hasattr =>
          Ret (if module_hasattr class_name then []
               else ["Cannot find '" ++ class_name ++ "' in module '"
                     ++ module_name ++ "'"])
      | Raise e => Raise e
      end
    else
      match import_module env import_name [] with
      | Ret _ => Ret []
      | Raise e => Raise e
      end in
  match attempt with
  | Ret errs => (errs, [])
  | Raise e =>
      if exn_class_eqb (exn_cls e) ImportError
      then (["Failed to import '" ++ import_name ++ "': " ++ exn_msg e], [])
      else ([], ["Warning validating import '" ++ import_name ++ "': "
                 ++ exn_msg e])
  end.

Definition _validate_pylabrobot_imports (script_content : string)
  : ImportResults :=
  match ast_parse env script_content with
  | Ret tree =>
      let '(import_errors, import_warnings) :=
        fold_left
          (fun (acc : list string * list string) import_name =>
             let '(e, w) := check_import import_name in
             (fst acc ++ e, snd acc ++ w)%list)
          (collect_imports tree) ([], []) in
      {| ir_success := (List.length import_errors =? 0)%nat
       ; ir_errors := import_errors
       ; ir_warnings := import_warnings |}
  | Raise e =>
      {| ir_success := false
       ; ir_errors := ["Error parsing imports: " ++ exn_msg e]
       ; ir_warnings := [] |}
  end.

(** [except Exception as e: raise Exception(f"Script execution error: ...")],
    for an exception that has a text. *)
Definition wrap_execution_error {A} (r : run A) : run A :=
  match r with
  | Throws e =>
      Throws {| exn_cls := OtherException
              ; exn_msg := "Script execution error: " ++ exn_msg e
              ; exn_lineno := None |}
  | _ => r
  end.

(** The asynchronous entry point. With a loop running, a nested thread
    hosts [asyncio.run]; its closure keeps an [Exception] and the caller
    re-raises it inside the [try] whose handler takes [RuntimeError]. *)
Definition run_async_main (script_content : string) : run unit :=
  if loop_running env then
    match asyncio_run_main env script_content true with
    | Done _ => Done tt
    | Exits => Done tt
    | Throws e =>
        if exn_class_eqb (exn_cls e) RuntimeError
        then asyncio_run_main env script_content false
        else Throws e
    end
  else asyncio_run_main env script_content false.

Definition _run_script_with_monitoring (script_path : string)
  : run RunResult :=
  let body : run unit :=
    match read_text env script_path with
    | Raise e => Throws e
    | Ret script_content =>
        match exec_script env script_content with
        | Done NoMain => Done tt
        | Done AsyncMain => run_async_main script_content
        | Done SyncMain => call_main env script_content
        | Throws e => Throws e
        | Exits => Exits
        end
    end in
  match wrap_execution_error body with
  | Done _ => Done {| rr_summary := zero_summary; rr_warnings := [] |}
  | Throws e => Throws e
  | Exits => Exits
  end.

(** The closure [target] run to its end. *)
Definition target (temp_script_path : string) : thread_locals :=
  match _run_script_with_monitoring temp_script_path with
  | Done r => {| tl_result := Some r; tl_exception := None |}
  | Throws e => {| tl_result := None; tl_exception := Some e |}
  | Exits => {| tl_result := None; tl_exception := None |}
  end.

Definition exec_failure (errors : list string) : ExecResult :=
  {| er_success := false; er_summary := zero_summary
   ; er_errors := errors; er_warnings := [] |}.

(** [thread_join] answers whether the worker is still alive when the
    bounded join returns. When the temporary file cannot be written the
    name [temp_script_path] is never bound, and the [finally] clause, which
    only handles [OSError], raises on reading it. (A failure when the
    file is closed, the name bound, is in
    [ScriptExceptions._execute_script_safely].) *)
Definition _execute_script_safely (script_content : string)
    (timeout_seconds : Z) : outcome ExecResult :=
  match write_temp_script env script_content with
  | Raise _ => Raise unbound_temp_script_path
  | Ret temp_script_path =>
      let returned : ExecResult :=
        match thread_join env temp_script_path timeout_seconds with
        | Raise e =>
            exec_failure ["Script execution failed: " ++ exn_msg e]
        | Ret true =>
            exec_failure ["Script execution timed out after "
                          ++ str_of_Z timeout_seconds ++ " seconds"]
        | Ret false =>
            let locals := target temp_script_path in
            match tl_exception locals, tl_result locals with
            | Some e, _ =>
                exec_failure ["Script execution failed: " ++ exn_msg e]
            | None, Some result =>
                {| er_success := true
                 ; er_summary := rr_summary result
                 ; er_errors := []
                 ; er_warnings := rr_warnings result |}
            | None, None =>
                exec_failure
                  ["Script execution completed but returned no result"]
            end
        end in
      let _ := os_unlink env temp_script_path in
      Ret returned
  end.

Definition truthy (s : option string) : bool :=
  match s with
  | Some d => negb (d =? "")
  | None => false
  end.

(** The body of the [try] that persists the report: the directory is
    created or defaulted, the file written; the path comes back. *)
Definition save_report (test_report_dir : option string) (result : Report)
  : outcome string :=
  let write (dir : string) : outcome string :=
    let report_filename :=
      "pylabrobot_test_report_" ++ strftime env ++ ".json" in
    let report_path := os_path_join env dir report_filename in
    match write_report env report_path result with
    | Ret _ => Ret report_path
    | Raise e => Raise e
    end in
  match test_report_dir with
  | Some d =>
      if truthy test_report_dir then
        match makedirs env d with
        | Ret _ => write d
        | Raise e => Raise e
        end
      else write (gettempdir env)
  | None => write (gettempdir env)
  end.

(** [total_execution_time] is stamped into the shared summary. *)
Definition stamp_total_time (s : ExecutionSummary) : ExecutionSummary :=
  {| operations_performed := operations_performed s
   ; tips_used := tips_used s
   ; liquid_transferred := liquid_transferred s
   ; execution_time := execution_time s
   ; total_execution_time := Some (elapsed env) |}.

(** The lists and dictionaries are those of the store: the warning
    appended after a failed save shows in the dictionary returned. *)
Definition _create_test_result (success : bool) (save_test_report : bool)
    (test_report_dir : option string) : M result_dict :=
  enter StageReport ;;;
  set_execution_summary stamp_total_time ;;;
  let result := {| rd_success := success; rd_test_report_path := None |} in
  if save_test_report then
    st <- get ;;
    match save_report test_report_dir (view result st) with
    | Ret report_path =>
        ret {| rd_success := success
             ; rd_test_report_path := Some report_path |}
    | Raise e =>
        warnings_append ("Failed to save test report: " ++ exn_msg e) ;;;
        ret result
    end
  else ret result.

Definition resolve_input (script_input : string) (save_test_report : bool)
    (test_report_dir : option string) : M (flow string) :=
  try_except
    (is_file <- (if endswith ".py" script_input
                 then lift (os_path_isfile env script_input)
                 else ret false) ;;
     if is_file && negb (contains nl_str (take 100 script_input)) then
       try_except
         (script_content <- lift (read_text env script_input) ;;
          set_test_results
            (fun t =>
               {| syntax_valid := syntax_valid t
                ; imports_valid := imports_valid t
                ; simulation_successful := simulation_successful t
                ; tracking_enabled := tracking_enabled t
                ; input_type := Some "file"
                ; file_path := Some script_input |}) ;;;
          ret (Continue script_content))
         (fun e =>
            errors_append ("Failed to read script file '" ++ script_input
                           ++ "': " ++ exn_msg e) ;;;
            r <- _create_test_result false save_test_report
                   test_report_dir ;;
            ret (Return r))
     else
       set_test_results
         (fun t =>
            {| syntax_valid := syntax_valid t
             ; imports_valid := imports_valid t
             ; simulation_successful := simulation_successful t
             ; tracking_enabled := tracking_enabled t
             ; input_type := Some "string"
             ; file_path := file_path t |}) ;;;
       ret (Continue script_input))
    (fun e =>
       errors_append ("Failed to process script input: " ++ exn_msg e) ;;;
       r <- _create_test_result false save_test_report test_report_dir ;;
       ret (Return r)).

Definition set_syntax_valid (t : TestResults) : TestResults :=
  {| syntax_valid := true
   ; imports_valid := imports_valid t
   ; simulation_successful := simulation_successful t
   ; tracking_enabled := tracking_enabled t
   ; input_type := input_type t
   ; file_path := file_path t |}.

Definition set_imports_valid (b : bool) (t : TestResults) : TestResults :=
  {| syntax_valid := syntax_valid t
   ; imports_valid := b
   ; simulation_successful := simulation_successful t
   ; tracking_enabled := tracking_enabled t
   ; input_type := input_type t
   ; file_path := file_path t |}.

Definition set_simulation_successful (b : bool) (t : TestResults)
  : TestResults :=
  {| syntax_valid := syntax_valid t
   ; imports_valid := imports_valid t
   ; simulation_successful := b
   ; tracking_enabled := tracking_enabled t
   ; input_type := input_type t
   ; file_path := file_path t |}.

(** [execution_summary.update(summary)] *)
Definition summary_update (r : RunSummary) (s : ExecutionSummary)
  : ExecutionSummary :=
  {| operations_performed := rs_operations_performed r
   ; tips_used := rs_tips_used r
   ; liquid_transferred := rs_liquid_transferred r
   ; execution_time := execution_time s
   ; total_execution_time := total_execution_time s |}.

(** Steps 1 to 4, the body of the outer [try]. *)
Definition run_stages (script_content : string) (enable_tracking : bool)
    (timeout_seconds : Z) (save_test_report : bool)
    (test_report_dir : option string) : M (flow unit) :=
  enter StageSyntax ;;;
  parsed <- try_except_class SyntaxError
              (lift (ast_parse env script_content) ;;;
               set_test_results set_syntax_valid ;;;
               ret (Continue tt))
              (fun e =>
                 errors_append ("Syntax Error: " ++ exn_msg e ++ " at line "
                                ++ str_of_lineno (exn_lineno e)) ;;;
                 r <- _create_test_result false save_test_report
                        test_report_dir ;;
                 ret (Return r)) ;;
  match parsed with
  | Return r => ret (Return r)
  | Continue _ =>
      enter StageImports ;;;
      let import_results := _validate_pylabrobot_imports script_content in
      set_test_results (set_imports_valid (ir_success import_results)) ;;;
      (if negb (ir_success import_results)
       then errors_extend (ir_errors import_results) ;;;
            warnings_extend (ir_warnings import_results)
       else ret tt) ;;;
      enter StageTransform ;;;
      let modified_script :=
        _modify_script_for_testing script_content enable_tracking in
      enter StageExecute ;;;
      execution_result <-
        lift (_execute_script_safely modified_script timeout_seconds) ;;
      set_test_results
        (set_simulation_successful (er_success execution_result)) ;;;
      set_execution_summary
        (summary_update (er_summary execution_result)) ;;;
      (if negb (er_success execution_result)
       then errors_extend (er_errors execution_result)
       else ret tt) ;;;
      warnings_extend (er_warnings execution_result) ;;;
      ret (Continue tt)
  end.

Definition test_body (script_input : string) (enable_tracking : bool)
    (timeout_seconds : Z) (save_test_report : bool)
    (test_report_dir : option string) : M result_dict :=
  resolved <- resolve_input script_input save_test_report test_report_dir ;;
  match resolved with
  | Return r => ret r
  | Continue script_content =>
      if strip script_content =? "" then
        errors_append "Script content is empty" ;;;
        _create_test_result false save_test_report test_report_dir
      else
        staged <- try_except
                    (run_stages script_content enable_tracking
                       timeout_seconds save_test_report test_report_dir)
                    (fun e =>
                       errors_append ("Unexpected error during testing: "
                                      ++ exn_msg e) ;;;
                       ret (Continue tt)) ;;
        match staged with
        | Return r => ret r
        | Continue _ =>
            st <- get ;;
            let t := st_test_results st in
            let overall_success :=
              syntax_valid t && imports_valid t
              && simulation_successful t in
            _create_test_result overall_success save_test_report
              test_report_dir
        end
  end.

(** The call as its caller sees it: the dictionary read after the return,
    or the exception that escaped. *)
Definition test_pylabrobot_script (script_input : string)
    (enable_tracking : bool) (timeout_seconds : Z)
    (save_test_report : bool) (test_report_dir : option string)
  : outcome Report :=
  match test_body script_input enable_tracking timeout_seconds
          save_test_report test_report_dir (initial_store enable_tracking)
  with
  | (Ret r, st) => Ret (view r st)
  | (Raise e, _) => Raise e
  end.

(** The stages the call entered, in order. *)
Definition stages_entered (script_input : string)
    (enable_tracking : bool) (timeout_seconds : Z)
    (save_test_report : bool) (test_report_dir : option string)
  : list stage :=
  st_stages
    (snd (test_body script_input enable_tracking timeout_seconds
            save_test_report test_report_dir
            (initial_store enable_tracking))).

End WithEnv.

End Pipeline.

(* ================================================================== *)
(** ** The wetlab results store *)
(* ================================================================== *)

Module Wetlab.
Import PyStr PyExn.

Definition _WETLAB_KEY_FIELDS : list string :=
  ["experiment_id"; "sample_id"; "assay_name"; "condition"; "replicate"].

Definition _WETLAB_REQUIRED_RECORD_FIELDS : list string :=
  ["experiment_id"; "sample_id"; "assay_name"; "condition"; "replicate";
   "measurement_value"; "measurement_unit"; "measured_at"].

Definition _WETLAB_QUERYABLE_FIELDS : list string :=
  ["experiment_id"; "sample_id"; "assay_name"; "condition"; "replicate";
   "measurement_unit"; "operator"; "instrument"].

(** The Python values the callers pass and the built-ins applied to them;
    [real] is what a REAL column stores. The values are data (numbers,
    texts, [None] and the like): [str] returns on each of them, and
    [int] and [float] return or raise an exception of the interpreter.
    [bind_text s] is the binding of
    the [str] [s] to a parameter of a statement: sqlite3 encodes the text
    as UTF-8 and raises [UnicodeEncodeError] when it cannot, as for a text
    that holds a lone surrogate. [open_database p] is what
    [_connect_wetlab_db] does with a path that is not blank: the
    directory is made and the file opened, or an exception is raised.
    Once opened, the database is taken to store what it is given: a
    statement fails only for its parameters and for the constraints of
    the table. [conflict_uses_rowid] leaves open whether SQLite consumes a rowid when
    an insert ends in DO UPDATE. *)
Record Builtins : Type := mk_builtins
  { value : Type
  ; real : Type
  ; py_str : value -> string
  ; py_int : value -> outcome Z
  ; py_float : value -> outcome real
  ; is_none : value -> bool
  ; real_is_nan : real -> bool
  ; bind_text : string -> outcome unit
  ; open_database : string -> outcome unit
  ; conflict_uses_rowid : bool }.

Section WithBuiltins.

Variable B : Builtins.

(** A [dict] with string keys. *)
Definition dict : Type := list (string * value B).

Fixpoint dict_get (k : string) (d : dict) : option (value B) :=
  match d with
  | [] => None
  | (k', v) :: d' => if k =? k' then Some v else dict_get k d'
  end.

(** [k in d] *)
Definition dict_mem (k : string) (d : dict) : bool :=
  match dict_get k d with
  | Some _ => true
  | None => false
  end.

Definition dict_keys (d : dict) : list string := map fst d.

Inductive pyobj : Type :=
  | NotADict
  | Dict (d : dict).

Record row : Type := mk_row
  { result_id : Z
  ; experiment_id : string
  ; sample_id : string
  ; assay_name : string
  ; condition : string
  ; replicate : Z
  ; measurement_value : real B
  ; measurement_unit : string
  ; operator : option string
  ; instrument : option string
  ; measured_at : string
  ; notes : option string
  ; created_at : string
  ; updated_at : string }.

(** The table and the largest rowid it has handed out. *)
Record table : Type := mk_table
  { rows : list row
  ; last_result_id : Z }.

(** A database file: with or without the table. *)
Definition database : Type := option table.

Definition empty_table : table := {| rows := []; last_result_id := 0 |}.

(** CREATE TABLE IF NOT EXISTS *)
Definition _ensure_wetlab_table (db : database) : table :=
  match db with
  | Some t => t
  | None => empty_table
  end.

(** [_connect_wetlab_db]: a blank path is refused, any other is
    opened. *)
Definition _connect_wetlab_db (db_path : string) : outcome unit :=
  if (db_path =? "") || (strip db_path =? "")
  then Raise {| exn_cls := ValueError
              ; exn_msg := "db_path cannot be empty."
              ; exn_lineno := None |}
  else open_database B (strip db_path).

(** The tuple [values] bound to the statement. *)
Record upsert_values : Type := mk_upsert_values
  { v_experiment_id : string
  ; v_sample_id : string
  ; v_assay_name : string
  ; v_condition : string
  ; v_replicate : Z
  ; v_measurement_value : real B
  ; v_measurement_unit : string
  ; v_operator : option string
  ; v_instrument : option string
  ; v_measured_at : string
  ; v_notes : option string }.

Definition bind_outcome {X Y} (o : outcome X) (k : X -> outcome Y)
  : outcome Y :=
  match o with
  | Ret x => k x
  | Raise e => Raise e
  end.

Definition key_error (k : string) : exn :=
  {| exn_cls := OtherException; exn_msg := "'" ++ k ++ "'"
   ; exn_lineno := None |}.

(** [record[k]] *)
Definition dict_item (k : string) (d : dict) : outcome (value B) :=
  match dict_get k d with
  | Some v => Ret v
  | None => Raise (key_error k)
  end.

(** [None if d.get(k) is None else f(str(d.get(k)))] *)
Definition optional_text (f : string -> string) (k : string) (d : dict)
  : option string :=
  match dict_get k d with
  | None => None
  | Some v => if is_none B v then None else Some (f (py_str B v))
  end.

Definition build_values (record : dict) : outcome upsert_values :=
  bind_outcome (dict_item "experiment_id" record) (fun e =>
  bind_outcome (dict_item "sample_id" record) (fun s =>
  bind_outcome (dict_item "assay_name" record) (fun a =>
  bind_outcome (dict_item "condition" record) (fun c =>
  bind_outcome (dict_item "replicate" record) (fun rp =>
  bind_outcome (py_int B rp) (fun rep =>
  bind_outcome (dict_item "measurement_value" record) (fun mv =>
  bind_outcome (py_float B mv) (fun val =>
  bind_outcome (dict_item "measurement_unit" record) (fun u =>
  bind_outcome (dict_item "measured_at" record) (fun m =>
  Ret {| v_experiment_id := strip (py_str B e)
       ; v_sample_id := strip (py_str B s)
       ; v_assay_name := strip (py_str B a)
       ; v_condition := strip (py_str B c)
       ; v_replicate := rep
       ; v_measurement_value := val
       ; v_measurement_unit := strip (py_str B u)
       ; v_operator := optional_text strip "operator" record
       ; v_instrument := optional_text strip "instrument" record
       ; v_measured_at := strip (py_str B m)
       ; v_notes := optional_text (fun x => x) "notes" record |})))))))))).

(** An INTEGER holds 64 signed bits; a larger [int] is refused on binding. *)
Definition fits_int64 (z : Z) : bool :=
  ((- 2 ^ 63 <=? z) && (z <=? 2 ^ 63 - 1))%Z.

Definition int_too_large : exn :=
  {| exn_cls := OverflowError
   ; exn_msg := "Python int too large to convert to SQLite INTEGER"
   ; exn_lineno := None |}.

Definition not_null_failed : exn :=
  {| exn_cls := IntegrityError
   ; exn_msg := "NOT NULL constraint failed: wetlab_results.measurement_value"
   ; exn_lineno := None |}.

(** The UNIQUE constraint: the five columns of the composite key. *)
Definition conflicts (v : upsert_values) (r : row) : bool :=
  (experiment_id r =? v_experiment_id v)
  && (sample_id r =? v_sample_id v)
  && (assay_name r =? v_assay_name v)
  && (condition r =? v_condition v)
  && (replicate r =? v_replicate v)%Z.

(** DO UPDATE SET ... *)
Definition do_update (now : string) (v : upsert_values) (r : row) : row :=
  {| result_id := result_id r
   ; experiment_id := experiment_id r
   ; sample_id := sample_id r
   ; assay_name := assay_name r
   ; condition := condition r
   ; replicate := replicate r
   ; measurement_value := v_measurement_value v
   ; measurement_unit := v_measurement_unit v
   ; operator := v_operator v
   ; instrument := v_instrument v
   ; measured_at := v_measured_at v
   ; notes := v_notes v
   ; created_at := created_at r
   ; updated_at := now |}.

Definition new_row (now : string) (id : Z) (v : upsert_values) : row :=
  {| result_id := id
   ; experiment_id := v_experiment_id v
   ; sample_id := v_sample_id v
   ; assay_name := v_assay_name v
   ; condition := v_condition v
   ; replicate := v_replicate v
   ; measurement_value := v_measurement_value v
   ; measurement_unit := v_measurement_unit v
   ; operator := v_operator v
   ; instrument := v_instrument v
   ; measured_at := v_measured_at v
   ; notes := v_notes v
   ; created_at := now
   ; updated_at := now |}.

(** A value bound to a parameter: a [str], an [int], or what binds
    without fail (a [float], [None]). *)
Inductive bound : Type :=
  | BoundText (s : string)
  | BoundInt (z : Z)
  | BoundOther.

Definition bind_value (b : bound) : outcome unit :=
  match b with
  | BoundText s => bind_text B s
  | BoundInt z => if fits_int64 z then Ret tt else Raise int_too_large
  | BoundOther => Ret tt
  end.

(** The parameters are bound in their order; the first that cannot be
    bound raises. *)
Fixpoint bind_values (l : list bound) : outcome unit :=
  match l with
  | [] => Ret tt
  | b :: rest => bind_outcome (bind_value b) (fun _ => bind_values rest)
  end.

Definition bound_optional (s : option string) : bound :=
  match s with
  | Some x => BoundText x
  | None => BoundOther
  end.

(** The eleven parameters of the upsert statement. *)
Definition upsert_parameters (v : upsert_values) : list bound :=
  [ BoundText (v_experiment_id v); BoundText (v_sample_id v)
  ; BoundText (v_assay_name v); BoundText (v_condition v)
  ; BoundInt (v_replicate v); BoundOther
  ; BoundText (v_measurement_unit v); bound_optional (v_operator v)
  ; bound_optional (v_instrument v); BoundText (v_measured_at v)
  ; bound_optional (v_notes v) ].

(** [conn.execute(upsert_sql, values)] at clock reading [now]: the values
    are bound, then the statement runs. A NaN is bound as NULL and the
    column is NOT NULL. *)
Definition execute_upsert (now : string) (t : table) (v : upsert_values)
  : outcome table :=
  bind_outcome (bind_values (upsert_parameters v)) (fun _ =>
  if real_is_nan B (v_measurement_value v) then Raise not_null_failed
  else if existsb (conflicts v) (rows t) then
    Ret {| rows := map (fun r => if conflicts v r then do_update now v r
                                 else r) (rows t)
         ; last_result_id :=
             if conflict_uses_rowid B then (last_result_id t + 1)%Z
             else last_result_id t |}
  else
    let id := (last_result_id t + 1)%Z in
    Ret {| rows := (rows t ++ [new_row now id v])%list
         ; last_result_id := id |}).

(** [repr] of a list of field names. *)
Definition repr_names (names : list string) : string :=
  "[" ++ join ", " (map (fun n => "'" ++ n ++ "'") names) ++ "]".

Definition str_of_nat (n : nat) : string := str_of_Z (Z.of_nat n).

(** The loop variables of [upsert_wetlab_results]. *)
Record upsert_loop : Type := mk_upsert_loop
  { ul_table : table
  ; ul_success_count : nat
  ; ul_error_details : list string }.

(** One turn of the loop, for the record at position [idx] (from 1). *)
Definition upsert_step (now : string) (idx : nat) (record : pyobj)
    (l : upsert_loop) : upsert_loop :=
  let fail (detail : string) :=
    {| ul_table := ul_table l
     ; ul_success_count := ul_success_count l
     ; ul_error_details :=
         app (ul_error_details l)
           ["Record " ++ str_of_nat idx ++ ": " ++ detail] |} in
  match record with
  | NotADict => fail "not a dictionary."
  | Dict d =>
      let missing :=
        filter (fun f => negb (dict_mem f d))
          _WETLAB_REQUIRED_RECORD_FIELDS in
      match missing with
      | _ :: _ =>
          fail ("missing required fields " ++ repr_names missing ++ ".")
      | [] =>
          match bind_outcome (build_values d)
                  (execute_upsert now (ul_table l)) with
          | Ret t' =>
              {| ul_table := t'
               ; ul_success_count := S (ul_success_count l)
               ; ul_error_details := ul_error_details l |}
          | Raise e => fail (exn_msg e)
          end
      end
  end.

Fixpoint upsert_loop_from (now : string) (idx : nat) (records : list pyobj)
    (l : upsert_loop) : upsert_loop :=
  match records with
  | [] => l
  | record :: rest =>
      upsert_loop_from now (S idx) rest (upsert_step now idx record l)
  end.

(** The reply text, by its parts. *)
Inductive upsert_reply : Type :=
  | UpsertError (message : string)
  | UpsertCompleted (input_records successful_upserts : nat)
      (failure_details : list string).

(** [upsert_wetlab_results(db_path, records)] on the database [db], read at
    clock reading [now]: the database afterwards and the reply. *)
Definition upsert_wetlab_results (now : string) (db_path : string)
    (records : list pyobj) (db : database) : database * upsert_reply :=
  match records with
  | [] =>
      (db, UpsertError
             "Error: records must be a non-empty list of dictionaries.")
  | _ =>
      match _connect_wetlab_db db_path with
      | Raise e =>
          (db, UpsertError ("Error upserting wetlab results: " ++ exn_msg e))
      | Ret _ =>
          let l := upsert_loop_from now 1 records
                     {| ul_table := _ensure_wetlab_table db
                      ; ul_success_count := 0
                      ; ul_error_details := [] |} in
          (Some (ul_table l),
           UpsertCompleted (List.length records) (ul_success_count l)
             (ul_error_details l))
      end
  end.

(** *** Queries *)

Fixpoint insert_sorted {A} (le : A -> A -> bool) (x : A) (l : list A)
  : list A :=
  match l with
  | [] => [x]
  | y :: l' => if le x y then x :: l else y :: insert_sorted le x l'
  end.

(** A stable sort. *)
Definition sort_by {A} (le : A -> A -> bool) (l : list A) : list A :=
  fold_right (insert_sorted le) [] l.

(** A TEXT column of the table, by name; NULL is [None]. *)
Definition text_column (field : string) (r : row) : option string :=
  if field =? "experiment_id" then Some (experiment_id r)
  else if field =? "sample_id" then Some (sample_id r)
  else if field =? "assay_name" then Some (assay_name r)
  else if field =? "condition" then Some (condition r)
  else if field =? "measurement_unit" then Some (measurement_unit r)
  else if field =? "operator" then operator r
  else if field =? "instrument" then instrument r
  else None.

(** [column = ?]: a NULL column equals nothing. *)
Definition text_equals (field : string) (x : string) (r : row) : bool :=
  match text_column field r with
  | Some y => y =? x
  | None => false
  end.

(** The loop over the queryable fields: the conditions of those present
    in [filters] with a value other than [None], each with the value it
    compares with. Only [int] can raise here. *)
Fixpoint field_conditions (fields : list string) (filters : dict)
  : outcome (list (row -> bool)) :=
  match fields with
  | [] => Ret []
  | field :: rest =>
      match dict_get field filters with
      | Some v =>
          if is_none B v then field_conditions rest filters
          else if field =? "replicate" then
            bind_outcome (py_int B v) (fun z =>
            bind_outcome (field_conditions rest filters) (fun cs =>
            Ret ((fun r => (replicate r =? z)%Z) :: cs)))
          else
            bind_outcome (field_conditions rest filters) (fun cs =>
            Ret (text_equals field (py_str B v) :: cs))
      | None => field_conditions rest filters
      end
  end.

(** The list [values] the same loop fills, one entry for each
    condition. *)
Fixpoint field_values (fields : list string) (filters : dict)
  : list bound :=
  match fields with
  | [] => []
  | field :: rest =>
      match dict_get field filters with
      | Some v =>
          if is_none B v then field_values rest filters
          else if field =? "replicate" then
            match py_int B v with
            | Ret z => BoundInt z :: field_values rest filters
            | Raise _ => field_values rest filters
            end
          else BoundText (py_str B v) :: field_values rest filters
      | None => field_values rest filters
      end
  end.

(** [filters.get(k)] is not [None]: the bound of a date range. *)
Definition range_bound (k : string) (filters : dict) : option string :=
  match dict_get k filters with
  | Some v => if is_none B v then None else Some (py_str B v)
  | None => None
  end.

Definition range_conditions (filters : dict) : list (row -> bool) :=
  (match range_bound "measured_at_from" filters with
   | Some lo => [fun r => String.leb lo (measured_at r)]
   | None => []
   end ++
   match range_bound "measured_at_to" filters with
   | Some hi => [fun r => String.leb (measured_at r) hi]
   | None => []
   end)%list.

(** The values of the two bounds, appended to [values]. *)
Definition range_values (filters : dict) : list bound :=
  (match range_bound "measured_at_from" filters with
   | Some lo => [BoundText lo]
   | None => []
   end ++
   match range_bound "measured_at_to" filters with
   | Some hi => [BoundText hi]
   | None => []
   end)%list.

(** The WHERE clause: the conjunction of the conditions. *)
Definition where_clause (conditions : list (row -> bool)) (r : row) : bool :=
  forallb (fun c => c r) conditions.

(** ORDER BY measured_at DESC, result_id DESC *)
Definition order_before (a b : row) : bool :=
  String.ltb (measured_at b) (measured_at a)
  || ((measured_at a =? measured_at b) && (result_id b <=? result_id a)%Z).

(** SELECT ... WHERE ... ORDER BY ... LIMIT [n]; a negative LIMIT is no
    limit. *)
Definition select_rows (conditions : list (row -> bool)) (n : Z)
    (t : table) : list row :=
  let matched := sort_by order_before (filter (where_clause conditions)
                                         (rows t)) in
  if (n <? 0)%Z then matched else firstn (Z.to_nat n) matched.

Definition allowed_filter_keys : list string :=
  (_WETLAB_QUERYABLE_FIELDS ++ ["measured_at_from"; "measured_at_to"])%list.

Definition mem_string (k : string) (l : list string) : bool :=
  existsb (String.eqb k) l.

Inductive query_reply : Type :=
  | QueryError (message : string)
  | QueryCompleted (total_count : nat) (limit : Z) (returned : list row).

(** [query_wetlab_results(db_path, filters, limit)] on the database [db]:
    the database afterwards and the reply. [filters] is [None] or an
    object. *)
Definition query_wetlab_results (db_path : string) (filters : option pyobj)
    (limit : value B) (db : database) : database * query_reply :=
  let filters := match filters with
                 | None => Dict []
                 | Some f => f
                 end in
  match filters with
  | NotADict => (db, QueryError "Error: filters must be a dictionary.")
  | Dict filters =>
      let unknown_keys :=
        filter (fun k => negb (mem_string k allowed_filter_keys))
          (dict_keys filters) in
      match unknown_keys with
      | _ :: _ =>
          (db, QueryError ("Error: unsupported filter fields: "
                           ++ join ", " (sort_by String.leb unknown_keys)))
      | [] =>
          match py_int B limit with
          | Raise e =>
              (db, QueryError ("Error querying wetlab results: "
                               ++ exn_msg e))
          | Ret n =>
              let limit := Z.max 1 n in
              match _connect_wetlab_db db_path with
              | Raise e =>
                  (db, QueryError ("Error querying wetlab results: "
                                   ++ exn_msg e))
              | Ret _ =>
                  let t := _ensure_wetlab_table db in
                  match field_conditions _WETLAB_QUERYABLE_FIELDS filters
                  with
                  | Raise e =>
                      (Some t, QueryError ("Error querying wetlab results: "
                                           ++ exn_msg e))
                  | Ret cs =>
                      let conditions :=
                        (cs ++ range_conditions filters)%list in
                      let values :=
                        (field_values _WETLAB_QUERYABLE_FIELDS filters
                         ++ range_values filters)%list in
                      match bind_values values with
                      | Raise e =>
                          (Some t,
                           QueryError ("Error querying wetlab results: "
                                       ++ exn_msg e))
                      | Ret _ =>
                          let total_count :=
                            List.length (filter (where_clause conditions)
                                           (rows t)) in
                          if fits_int64 limit then
                            (Some t,
                             QueryCompleted total_count limit
                               (select_rows conditions limit t))
                          else
                            (Some t,
                             QueryError ("Error querying wetlab results: "
                                         ++ exn_msg int_too_large))
                      end
                  end
              end
          end
      end
  end.

End WithBuiltins.

End Wetlab.

(* ================================================================== *)
(** ** Reference definitions and sample inputs *)
(* ================================================================== *)

Module Reference.
Import PyStr Transformer.

(** The first scan as the specification words it: the index follows the
    import and comment lines only, and the scan stops at the first
    definition line. *)
Fixpoint spec_scan_insert_at (lines : list string) (i insert_at : nat)
  : nat :=
  match lines with
  | [] => insert_at
  | line :: rest =>
      if import_or_comment line then spec_scan_insert_at rest (S i) (S i)
      else if definition_line line then insert_at
      else spec_scan_insert_at rest (S i) insert_at
  end.

Definition spec_insert_backend_import (script : string) : string :=
  let lines := split nl script in
  join nl_str
    (list_insert (spec_scan_insert_at lines 0 0) backend_import lines).

(** The lines before the first definition line. *)
Fixpoint leading_lines (lines : list string) : list string :=
  match lines with
  | [] => []
  | line :: rest =>
      if definition_line line then [] else line :: leading_lines rest
  end.

(** The first definition line and what follows it. *)
Fixpoint from_definition (lines : list string) : list string :=
  match lines with
  | [] => []
  | line :: rest =>
      if definition_line line then lines else from_definition rest
  end.

(** *** Block structure of a script whose statements take one line each *)

(** The width of the leading run of spaces. *)
Fixpoint indent (s : string) : nat :=
  match s with
  | String c s' => if Ascii.eqb c " " then S (indent s') else 0
  | "" => 0
  end.

(** Blank lines and comment lines carry no statement. *)
Definition code_line (line : string) : bool :=
  negb (strip line =? "") && negb (startswith "#" (strip line)).

(** A header whose suite starts on the next line. *)
Definition opens_block (line : string) : bool := endswith ":" (strip line).

(** The indentation rule between neighbouring statements: the line after a
    header is indented deeper than the header, the line after any other
    statement is not indented deeper than it, and the last line is not a
    header. *)
Fixpoint offside_from (prev : string) (rest : list string) : bool :=
  match rest with
  | [] => negb (opens_block prev)
  | line :: rest' =>
      (if opens_block prev then indent prev <? indent line
       else indent line <=? indent prev)%nat
      && offside_from line rest'
  end.

(** The rule on a whole script; the first statement starts in column 0.
    The parser accepts no script that breaks it, among the scripts in
    which no statement spans several lines and no trailing comment ends in
    a colon. *)
Definition offside_ok (script : string) : bool :=
  match filter code_line (split nl script) with
  | [] => true
  | first :: rest => (indent first =? 0)%nat && offside_from first rest
  end.

End Reference.

Module PipelineReference.
Import PyStr PyExn Transformer Pipeline.

(** The warnings a call of [_create_test_result] can add: none, or the
    one of a failed save. *)
Definition persist_warning (save_test_report : bool) (w : list string)
  : Prop :=
  w = []
  \/ save_test_report = true
     /\ exists e, w = ["Failed to save test report: " ++ exn_msg e].




End PipelineReference.

Module WetlabReference.
Import PyStr PyExn Wetlab.

Section WithBuiltins.

Variable B : Builtins.

(** The composite key: experiment, sample, assay, condition, replicate. *)
Definition key : Type := (string * string * string * string * Z)%type.

Definition row_key (r : row B) : key :=
  (experiment_id B r, sample_id B r, assay_name B r, condition B r,
   replicate B r).

Definition values_key (v : upsert_values B) : key :=
  (v_experiment_id B v, v_sample_id B v, v_assay_name B v,
   v_condition B v, v_replicate B v).

Definition key_eqb (a b : key) : bool :=
  let '(e1, s1, a1, c1, r1) := a in
  let '(e2, s2, a2, c2, r2) := b in
  (e1 =? e2) && (s1 =? s2) && (a1 =? a2) && (c1 =? c2) && (r1 =? r2)%Z.

(** The UNIQUE constraint, which every state of the table obeys. *)
Definition unique_keys (t : table B) : Prop :=
  NoDup (map row_key (rows B t)).

Definition well_formed (db : database B) : Prop :=
  match db with
  | Some t => unique_keys t
  | None => True
  end.

(** A complete record: no required field is missing. *)
Definition complete (d : dict B) : bool :=
  forallb (fun f => dict_mem B f d) _WETLAB_REQUIRED_RECORD_FIELDS.

(** The two records name the same composite key. *)
Definition same_key (d1 d2 : dict B) : Prop :=
  forall f, In f _WETLAB_KEY_FIELDS -> dict_get B f d1 = dict_get B f d2.

(** The key under which a record is stored: the text fields stripped, the
    replicate as an integer. *)
Definition record_key (d : dict B) : option key :=
  match dict_get B "experiment_id" d, dict_get B "sample_id" d,
        dict_get B "assay_name" d, dict_get B "condition" d,
        dict_get B "replicate" d with
  | Some e, Some s, Some a, Some c, Some rp =>
      match py_int B rp with
      | Ret z =>
          Some (strip (py_str B e), strip (py_str B s), strip (py_str B a),
                strip (py_str B c), z)
      | Raise _ => None
      end
  | _, _, _, _, _ => None
  end.

(** The rows stored under the key of a record. *)
Definition stored_for (d : dict B) (db : database B) : list (row B) :=
  match record_key d, db with
  | Some k, Some t => filter (fun r => key_eqb (row_key r) k) (rows B t)
  | _, _ => []
  end.

(** Two upserts of one record each, the second after the first. *)
Definition upsert_twice (now1 now2 db_path : string) (d1 d2 : dict B)
    (db : database B) : database B :=
  fst (upsert_wetlab_results B now2 db_path [Dict B d2]
         (fst (upsert_wetlab_results B now1 db_path [Dict B d1] db))).

(** The outcome the claim promises: one row under the key, holding the
    measurement value of the second record. *)
Definition second_upsert_wins (now1 now2 db_path : string) (d1 d2 : dict B)
    (db : database B) : Prop :=
  exists r v,
    stored_for d2 (upsert_twice now1 now2 db_path d1 d2 db) = [r]
    /\ dict_get B "measurement_value" d2 = Some v
    /\ py_float B v = Ret (measurement_value B r).

(** The texts among the parameters. *)
Definition bound_texts (l : list bound) : list string :=
  flat_map (fun b => match b with
                     | BoundText s => [s]
                     | _ => []
                     end) l.

(** Every text of the list can be bound: sqlite3 can encode it. *)
Definition texts_bind (l : list string) : Prop :=
  Forall (fun s => bind_text B s = Ret tt) l.

(** The texts an upsert of the record binds: the stripped texts of the
    key fields, of the unit, the operator, the instrument and the time of
    measurement, and the notes as they are. *)
Definition record_texts (d : dict B) : list string :=
  match build_values B d with
  | Ret v => bound_texts (upsert_parameters B v)
  | Raise _ => []
  end.

(** The values of the record can be bound: the replicate is an integer of
    64 bits, the measurement a number, and every text can be encoded. *)
Definition bindable (d : dict B) : Prop :=
  (exists rp z mv x,
     dict_get B "replicate" d = Some rp
     /\ py_int B rp = Ret z
     /\ fits_int64 z = true
     /\ dict_get B "measurement_value" d = Some mv
     /\ py_float B mv = Ret x
     /\ real_is_nan B x = false)
  /\ texts_bind (record_texts d).


End WithBuiltins.

End WetlabReference.

Module Samples.
Import PyStr PyExn Transformer Pipeline Wetlab.

Definition script_with_backend : string :=
  "lh = LiquidHandler(backend=STARBackend(), deck=deck)".

(** A class with a method, then the entry point. *)
Definition script_with_class : string :=
  join nl_str
    [ "import asyncio"
    ; ""
    ; "class Protocol:"
    ; "    def run(self):"
    ; "        return 1"
    ; ""
    ; "async def main():"
    ; "    Protocol().run()" ].

(** Two definitions under a condition, then the entry point. *)
Definition script_with_guarded_def : string :=
  join nl_str
    [ "import sys"
    ; "if sys.platform == 'win32':"
    ; "    def beep(): return 1"
    ; "else:"
    ; "    def beep(): return 0"
    ; "async def main():"
    ; "    beep()" ].

(** A statement between the imports and the entry point. *)
Definition script_with_statement : string :=
  join nl_str
    [ "import os"
    ; "x = 1"
    ; "def main():"
    ; "    pass" ].

(** An environment in which nothing fails: no file exists at the path
    given, every name resolves, the script defines no entry point. *)
Definition quiet_env : Env :=
  {| os_path_isfile := fun _ => Ret false
   ; read_text := fun _ => Ret ""
   ; ast_parse := fun _ => Ret []
   ; import_module := fun _ _ => Ret (fun _ => true)
   ; write_temp_script := fun _ => Ret "/tmp/tmpscript.py"
   ; os_unlink := fun _ => true
   ; thread_join := fun _ _ => Ret false
   ; exec_script := fun _ => Done NoMain
   ; call_main := fun _ => Done tt
   ; asyncio_run_main := fun _ _ => Done tt
   ; loop_running := false
   ; elapsed := 1
   ; makedirs := fun _ => Ret tt
   ; gettempdir := "/tmp"
   ; strftime := "20250101_000000"
   ; os_path_join := fun a b => a ++ "/" ++ b
   ; write_report := fun _ _ => Ret tt |}.

Definition with_ast_parse (f : string -> outcome (list ast_node))
    (env : Env) : Env :=
  {| os_path_isfile := os_path_isfile env
   ; read_text := read_text env
   ; ast_parse := f
   ; import_module := import_module env
   ; write_temp_script := write_temp_script env
   ; os_unlink := os_unlink env
   ; thread_join := thread_join env
   ; exec_script := exec_script env
   ; call_main := call_main env
   ; asyncio_run_main := asyncio_run_main env
   ; loop_running := loop_running env
   ; elapsed := elapsed env
   ; makedirs := makedirs env
   ; gettempdir := gettempdir env
   ; strftime := strftime env
   ; os_path_join := os_path_join env
   ; write_report := write_report env |}.

Definition with_import_module
    (f : string -> list string -> outcome (string -> bool)) (env : Env)
  : Env :=
  {| os_path_isfile := os_path_isfile env
   ; read_text := read_text env
   ; ast_parse := ast_parse env
   ; import_module := f
   ; write_temp_script := write_temp_script env
   ; os_unlink := os_unlink env
   ; thread_join := thread_join env
   ; exec_script := exec_script env
   ; call_main := call_main env
   ; asyncio_run_main := asyncio_run_main env
   ; loop_running := loop_running env
   ; elapsed := elapsed env
   ; makedirs := makedirs env
   ; gettempdir := gettempdir env
   ; strftime := strftime env
   ; os_path_join := os_path_join env
   ; write_report := write_report env |}.

Definition with_write_temp_script (f : string -> outcome string)
    (env : Env) : Env :=
  {| os_path_isfile := os_path_isfile env
   ; read_text := read_text env
   ; ast_parse := ast_parse env
   ; import_module := import_module env
   ; write_temp_script := f
   ; os_unlink := os_unlink env
   ; thread_join := thread_join env
   ; exec_script := exec_script env
   ; call_main := call_main env
   ; asyncio_run_main := asyncio_run_main env
   ; loop_running := loop_running env
   ; elapsed := elapsed env
   ; makedirs := makedirs env
   ; gettempdir := gettempdir env
   ; strftime := strftime env
   ; os_path_join := os_path_join env
   ; write_report := write_report env |}.

Definition with_write_report (f : string -> Report -> outcome unit)
    (env : Env) : Env :=
  {| os_path_isfile := os_path_isfile env
   ; read_text := read_text env
   ; ast_parse := ast_parse env
   ; import_module := import_module env
   ; write_temp_script := write_temp_script env
   ; os_unlink := os_unlink env
   ; thread_join := thread_join env
   ; exec_script := exec_script env
   ; call_main := call_main env
   ; asyncio_run_main := asyncio_run_main env
   ; loop_running := loop_running env
   ; elapsed := elapsed env
   ; makedirs := makedirs env
   ; gettempdir := gettempdir env
   ; strftime := strftime env
   ; os_path_join := os_path_join env
   ; write_report := f |}.

Definition broken_script : string := "def main(:".

Definition invalid_syntax : exn :=
  {| exn_cls := SyntaxError
   ; exn_msg := "invalid syntax (<unknown>, line 1)"
   ; exn_lineno := Some 1%Z |}.

(** The parser rejects every text. *)
Definition rejecting_env : Env :=
  with_ast_parse (fun _ => Raise invalid_syntax) quiet_env.

(** A text that holds a null byte, and what [ast.parse] raises on it. *)
Definition null_script : string := "x = 1" ++ String Ascii.zero "".

Definition null_bytes : exn :=
  {| exn_cls := ValueError
   ; exn_msg := "source code string cannot contain null bytes"
   ; exn_lineno := None |}.

Definition null_env : Env :=
  with_ast_parse
    (fun s => if contains (String Ascii.zero "") s
              then Raise null_bytes else Ret [])
    quiet_env.

Definition script_with_missing_import : string :=
  join nl_str
    [ "from pylabrobot.nowhere import Nothing"
    ; "def main():"
    ; "    pass" ].

Definition no_module : exn :=
  {| exn_cls := ImportError
   ; exn_msg := "No module named 'pylabrobot.nowhere'"
   ; exn_lineno := None |}.

(** The tree holds one import from the library, and the import fails. *)
Definition unresolved_env : Env :=
  with_import_module (fun _ _ => Raise no_module)
    (with_ast_parse
       (fun _ => Ret [ImportFrom (Some "pylabrobot.nowhere") ["Nothing"];
                      OtherNode])
       quiet_env).

Definition disk_full : exn :=
  {| exn_cls := OSError
   ; exn_msg := "[Errno 28] No space left on device"
   ; exn_lineno := None |}.

(** The temporary script cannot be written. *)
Definition no_temp_env : Env :=
  with_write_temp_script (fun _ => Raise disk_full) quiet_env.

(** The report file cannot be written. *)
Definition no_report_env : Env :=
  with_write_report (fun _ _ => Raise disk_full) quiet_env.


(** A small universe of values for the examples: [None], text that is no
    numeral, and integers small enough to be floats exactly. A REAL is
    written as the integer it equals. *)
Inductive sample_value : Type :=
  | SNone
  | SText (s : string)
  | SInt (z : Z).

Definition int_of_none : exn :=
  {| exn_cls := TypeError
   ; exn_msg := "int() argument must be a string, a bytes-like object or a real number, not 'NoneType'"
   ; exn_lineno := None |}.

Definition float_of_none : exn :=
  {| exn_cls := TypeError
   ; exn_msg := "float() argument must be a string or a real number, not 'NoneType'"
   ; exn_lineno := None |}.

Definition int_of_text (s : string) : exn :=
  {| exn_cls := ValueError
   ; exn_msg := "invalid literal for int() with base 10: '" ++ s ++ "'"
   ; exn_lineno := None |}.

Definition float_of_text (s : string) : exn :=
  {| exn_cls := ValueError
   ; exn_msg := "could not convert string to float: '" ++ s ++ "'"
   ; exn_lineno := None |}.

Definition sample_builtins : Builtins :=
  {| value := sample_value
   ; real := Z
   ; py_str := fun v => match v with
                        | SNone => "None"
                        | SText s => s
                        | SInt z => str_of_Z z
                        end
   ; py_int := fun v => match v with
                        | SNone => Raise int_of_none
                        | SText s => Raise (int_of_text s)
                        | SInt z => Ret z
                        end
   ; py_float := fun v => match v with
                          | SNone => Raise float_of_none
                          | SText s => Raise (float_of_text s)
                          | SInt z => Ret z
                          end
   ; is_none := fun v => match v with SNone => true | _ => false end
   ; real_is_nan := fun _ => false
   ; bind_text := fun _ => Ret tt
   ; open_database := fun _ => Ret tt
   ; conflict_uses_rowid := false |}.

(** A record with every required field; [mv] is its measurement value. *)
Definition sample_record (mv : sample_value) : dict sample_builtins :=
  [ ("experiment_id", SText "EXP-1")
  ; ("sample_id", SText " S-7 ")
  ; ("assay_name", SText "ELISA")
  ; ("condition", SText "treated")
  ; ("replicate", SInt 2)
  ; ("measurement_value", mv)
  ; ("measurement_unit", SText "ng/mL")
  ; ("measured_at", SText "2025-01-01T10:00:00") ].

(** The database after the first record is stored, and its rows. *)
Definition sample_db : database sample_builtins :=
  fst (upsert_wetlab_results sample_builtins "t1" "lab.db"
         [Dict sample_builtins (sample_record (SInt 1))] None).


End Samples.

(* ================================================================== *)
(** ** The wetlab results store: update, delete, initialise, format *)
(* ================================================================== *)

Module WetlabMore.
Import PyStr PyExn Wetlab WetlabReference.

Definition _WETLAB_UPDATABLE_FIELDS : list string :=
  ["measurement_value"; "measurement_unit"; "operator"; "instrument";
   "measured_at"; "notes"].

Section WithBuiltins.

Variable B : Builtins.

(** The entries of a dictionary in the order of their keys: a key counts
    once, with the value [dict_get] finds. *)
Fixpoint dict_items (d : dict B) : list (string * value B) :=
  match d with
  | [] => []
  | (k, v) :: d' =>
      (k, v) :: filter (fun kv => negb (fst kv =? k)) (dict_items d')
  end.

Definition _validate_wetlab_key (key : pyobj B) : bool * string :=
  match key with
  | NotADict _ => (false, "key must be a dictionary.")
  | Dict _ k =>
      let missing :=
        filter (fun f => negb (dict_mem B f k)) _WETLAB_KEY_FIELDS in
      match missing with
      | [] => (true, "")
      | _ => (false, "Missing key fields: " ++ join ", " missing)
      end
  end.

(** The key fields a dictionary lacks, in the order of the key. *)
Definition missing_key_fields (k : dict B) : list string :=
  filter (fun f => negb (dict_mem B f k)) _WETLAB_KEY_FIELDS.

(** The five values bound to the WHERE clause of [delete_wetlab_result]
    and of [update_wetlab_result]: the text fields stripped, the replicate
    converted last. *)
Definition key_values (k : dict B) : outcome key :=
  bind_outcome (dict_item B "experiment_id" k) (fun e =>
  bind_outcome (dict_item B "sample_id" k) (fun s =>
  bind_outcome (dict_item B "assay_name" k) (fun a =>
  bind_outcome (dict_item B "condition" k) (fun c =>
  bind_outcome (dict_item B "replicate" k) (fun rp =>
  bind_outcome (py_int B rp) (fun z =>
  Ret (strip (py_str B e), strip (py_str B s), strip (py_str B a),
       strip (py_str B c), z))))))).

(** WHERE experiment_id = ? AND ... AND replicate = ? *)
Definition under_key (k : key) (r : row B) : bool :=
  key_eqb (row_key B r) k.

Definition key_replicate (k : key) : Z := snd k.

(** *** delete_wetlab_result *)

Inductive delete_reply : Type :=
  | DeleteError (message : string)
  | DeleteCompleted (rows_deleted : nat).

(** The five parameters of the WHERE clause. *)
Definition key_parameters (k : key) : list bound :=
  let '(e, s, a, c, z) := k in
  [BoundText e; BoundText s; BoundText a; BoundText c; BoundInt z].

(** DELETE FROM wetlab_results WHERE ...: the key is bound, then the
    statement runs; the table afterwards and the row count of the
    cursor. *)
Definition execute_delete (t : table B) (k : key) : outcome (table B * nat) :=
  bind_outcome (bind_values B (key_parameters k)) (fun _ =>
    Ret ({| rows := filter (fun r => negb (under_key k r)) (rows B t)
          ; last_result_id := last_result_id B t |},
         List.length (filter (under_key k) (rows B t)))).

Definition delete_wetlab_result (db_path : string) (key : pyobj B)
    (db : database B) : database B * delete_reply :=
  match _validate_wetlab_key key, key with
  | (true, _), Dict _ k =>
      match _connect_wetlab_db B db_path with
      | Raise e =>
          (db, DeleteError ("Error deleting wetlab result: " ++ exn_msg e))
      | Ret _ =>
          let t := _ensure_wetlab_table B db in
          match bind_outcome (key_values k) (execute_delete t) with
          | Ret (t', deleted) => (Some t', DeleteCompleted deleted)
          | Raise e =>
              (Some t,
               DeleteError ("Error deleting wetlab result: " ++ exn_msg e))
          end
      end
  | (_, key_error), _ => (db, DeleteError ("Error: " ++ key_error))
  end.

(** *** update_wetlab_result *)

(** One SET clause with the value bound to it. *)
Inductive assignment : Type :=
  | SetMeasurementValue (x : real B)
  | SetText (field : string) (v : option string).

(** The loop over [updates.items()]: [measurement_value] goes through
    [float], the text fields through [str] unless they are [None]. *)
Fixpoint build_assignments (items : list (string * value B))
  : outcome (list assignment) :=
  match items with
  | [] => Ret []
  | (field, v) :: rest =>
      if field =? "measurement_value" then
        bind_outcome (py_float B v) (fun x =>
        bind_outcome (build_assignments rest) (fun l =>
        Ret (SetMeasurementValue x :: l)))
      else
        bind_outcome (build_assignments rest) (fun l =>
        Ret (SetText field (if is_none B v then None
                            else Some (py_str B v)) :: l))
  end.

Definition set_text (field : string) (v : option string) (r : row B)
  : row B :=
  {| result_id := result_id B r
   ; experiment_id := experiment_id B r
   ; sample_id := sample_id B r
   ; assay_name := assay_name B r
   ; condition := condition B r
   ; replicate := replicate B r
   ; measurement_value := measurement_value B r
   ; measurement_unit :=
       if field =? "measurement_unit"
       then match v with Some s => s | None => measurement_unit B r end
       else measurement_unit B r
   ; operator := if field =? "operator" then v else operator B r
   ; instrument := if field =? "instrument" then v else instrument B r
   ; measured_at :=
       if field =? "measured_at"
       then match v with Some s => s | None => measured_at B r end
       else measured_at B r
   ; notes := if field =? "notes" then v else notes B r
   ; created_at := created_at B r
   ; updated_at := updated_at B r |}.

Definition set_measurement_value (x : real B) (r : row B) : row B :=
  {| result_id := result_id B r
   ; experiment_id := experiment_id B r
   ; sample_id := sample_id B r
   ; assay_name := assay_name B r
   ; condition := condition B r
   ; replicate := replicate B r
   ; measurement_value := x
   ; measurement_unit := measurement_unit B r
   ; operator := operator B r
   ; instrument := instrument B r
   ; measured_at := measured_at B r
   ; notes := notes B r
   ; created_at := created_at B r
   ; updated_at := updated_at B r |}.

Definition set_updated_at (now : string) (r : row B) : row B :=
  {| result_id := result_id B r
   ; experiment_id := experiment_id B r
   ; sample_id := sample_id B r
   ; assay_name := assay_name B r
   ; condition := condition B r
   ; replicate := replicate B r
   ; measurement_value := measurement_value B r
   ; measurement_unit := measurement_unit B r
   ; operator := operator B r
   ; instrument := instrument B r
   ; measured_at := measured_at B r
   ; notes := notes B r
   ; created_at := created_at B r
   ; updated_at := now |}.

Definition assign (a : assignment) (r : row B) : row B :=
  match a with
  | SetMeasurementValue x => set_measurement_value x r
  | SetText field v => set_text field v r
  end.

(** SET ..., updated_at = ? on one row. *)
Definition apply_assignments (now : string) (l : list assignment)
    (r : row B) : row B :=
  set_updated_at now (fold_left (fun r a => assign a r) l r).

(** A value the NOT NULL columns refuse: NULL for the unit or the time of
    measurement, NaN (bound as NULL) for the measurement. *)
Definition refused (a : assignment) : bool :=
  match a with
  | SetMeasurementValue x => real_is_nan B x
  | SetText field None =>
      (field =? "measurement_unit") || (field =? "measured_at")
  | SetText _ (Some _) => false
  end.

Definition not_null_update_failed : exn :=
  {| exn_cls := IntegrityError
   ; exn_msg := "NOT NULL constraint failed"
   ; exn_lineno := None |}.

(** The value of one SET clause, as a parameter. *)
Definition assignment_parameter (a : assignment) : bound :=
  match a with
  | SetMeasurementValue _ => BoundOther
  | SetText _ (Some s) => BoundText s
  | SetText _ None => BoundOther
  end.

(** The list [values] of the update: the values of the SET clauses, the
    time stamp (ASCII, which always binds), the key. *)
Definition update_parameters (l : list assignment) (k : key)
  : list bound :=
  (map assignment_parameter l ++ [BoundOther] ++ key_parameters k)%list.

(** UPDATE wetlab_results SET ... WHERE ...: the values are bound, then
    the statement runs; the table afterwards and the row count of the
    cursor. The constraint is only met on a row the WHERE clause
    selects. *)
Definition execute_update (now : string) (t : table B)
    (l : list assignment) (k : key) : outcome (table B * nat) :=
  bind_outcome (bind_values B (update_parameters l k)) (fun _ =>
  if existsb (under_key k) (rows B t) && existsb refused l
  then Raise not_null_update_failed
  else
    Ret ({| rows := map (fun r => if under_key k r
                                  then apply_assignments now l r
                                  else r) (rows B t)
          ; last_result_id := last_result_id B t |},
         List.length (filter (under_key k) (rows B t)))).

Inductive update_reply : Type :=
  | UpdateError (message : string)
  | UpdateCompleted (rows_updated : nat).

(** [update_wetlab_result(db_path, key, updates)] on the database [db] at
    clock reading [now]. *)
Definition update_wetlab_result (now : string) (db_path : string)
    (key : pyobj B) (updates : pyobj B) (db : database B)
  : database B * update_reply :=
  match _validate_wetlab_key key, key with
  | (true, _), Dict _ k =>
      match updates with
      | NotADict _ | Dict _ [] =>
          (db, UpdateError "Error: updates must be a non-empty dictionary.")
      | Dict _ u =>
          let invalid_fields :=
            filter (fun f => negb (mem_string f _WETLAB_UPDATABLE_FIELDS))
              (map fst (dict_items u)) in
          match invalid_fields with
          | _ :: _ =>
              (db, UpdateError ("Error: unsupported update fields: "
                                ++ join ", " invalid_fields))
          | [] =>
              match _connect_wetlab_db B db_path with
              | Raise e =>
                  (db, UpdateError ("Error updating wetlab result: "
                                    ++ exn_msg e))
              | Ret _ =>
                  let t := _ensure_wetlab_table B db in
                  match
                    bind_outcome (build_assignments (dict_items u))
                      (fun l =>
                       bind_outcome (key_values k)
                         (execute_update now t l))
                  with
                  | Ret (t', affected) =>
                      (Some t', UpdateCompleted affected)
                  | Raise e =>
                      (Some t, UpdateError ("Error updating wetlab result: "
                                            ++ exn_msg e))
                  end
              end
          end
      end
  | (_, key_error), _ => (db, UpdateError ("Error: " ++ key_error))
  end.

(** *** Reading back *)

(** The filters that name the key of a record: its five key fields with
    the values the record gives them. *)
Definition key_filters (d : dict B) : dict B :=
  flat_map (fun f => match dict_get B f d with
                     | Some v => [(f, v)]
                     | None => []
                     end) _WETLAB_KEY_FIELDS.

(** The key values of the record are given as they are stored: none is
    [None], and the text of the text fields has no blank at either end. *)
Definition plain_key (d : dict B) : Prop :=
  forall f, In f _WETLAB_KEY_FIELDS ->
    exists v, dict_get B f d = Some v
              /\ is_none B v = false
              /\ (f <> "replicate" -> strip (py_str B v) = py_str B v).

(** Neighbours are in the order [le]. *)
Fixpoint sorted_by {A} (le : A -> A -> bool) (l : list A) : bool :=
  match l with
  | [] => true
  | x :: l' =>
      match l' with
      | [] => true
      | y :: _ => le x y && sorted_by le l'
      end
  end.

(** *** init_wetlab_results_table *)

Inductive init_reply : Type :=
  | InitError (message : string)
  | InitCompleted.

Definition init_wetlab_results_table (db_path : string) (db : database B)
  : database B * init_reply :=
  match _connect_wetlab_db B db_path with
  | Raise e =>
      (db, InitError ("Error initializing wetlab results table: "
                      ++ exn_msg e))
  | Ret _ => (Some (_ensure_wetlab_table B db), InitCompleted)
  end.

End WithBuiltins.

End WetlabMore.

Module WetlabSamples.
Import PyStr PyExn Wetlab WetlabReference WetlabMore Samples.

(** The key of [sample_record] as it is stored. *)
Definition sample_key : key :=
  ("EXP-1", "S-7", "ELISA", "treated", 2%Z).

(** A key dictionary with one field only. *)
Definition partial_key : dict sample_builtins :=
  [ ("experiment_id", SText "EXP-1") ].

(** A record whose key values are written as they are stored. *)
Definition plain_record : dict sample_builtins :=
  [ ("experiment_id", SText "EXP-2")
  ; ("sample_id", SText "S-8")
  ; ("assay_name", SText "qPCR")
  ; ("condition", SText "control")
  ; ("replicate", SInt 1)
  ; ("measurement_value", SInt 40)
  ; ("measurement_unit", SText "Ct")
  ; ("measured_at", SText "2025-01-02T09:30:00") ].

(** A batch of three: a good record, something that is no dictionary, and
    a record whose measurement does not convert. *)
Definition mixed_batch : list (pyobj sample_builtins) :=
  [ Dict sample_builtins (sample_record (SInt 1))
  ; NotADict sample_builtins
  ; Dict sample_builtins (sample_record SNone) ].

Definition new_value : pyobj sample_builtins :=
  Dict sample_builtins [ ("measurement_value", SInt 9) ].

Definition by_experiment : dict sample_builtins :=
  [ ("experiment_id", SText "EXP-1") ].

(** Filters on the replicate and on both ends of the date range. *)
Definition dated_filters : dict sample_builtins :=
  [ ("replicate", SInt 2)
  ; ("measured_at_from", SText "2025-01-01")
  ; ("measured_at_to", SText "2025-01-31") ].

End WetlabSamples.

(* ================================================================== *)
(** ** The text table of a query *)
(* ================================================================== *)

Module WetlabFormat.
Import PyStr.











End WetlabFormat.

Module PipelineMore.
Import PyStr PyExn Transformer Pipeline Samples.

(** The directory the report goes to: the one given when it is a
    non-empty string, the temporary directory otherwise. *)
Definition report_dir (env : Env) (test_report_dir : option string)
  : string :=
  match test_report_dir with
  | Some d => if truthy test_report_dir then d else gettempdir env
  | None => gettempdir env
  end.

Definition report_name (env : Env) : string :=
  "pylabrobot_test_report_" ++ strftime env ++ ".json".

(** The dictionary with its [test_report_path] entry set. *)
Definition with_report_path (path : string) (r : Report) : Report :=
  {| success := success r
   ; test_results := test_results r
   ; execution_summary := execution_summary r
   ; errors := errors r
   ; warnings := warnings r
   ; test_report_path := Some path |}.




Definition permission_denied : exn :=
  {| exn_cls := OSError
   ; exn_msg := "[Errno 13] Permission denied: 'protocol.py'"
   ; exn_lineno := None |}.

(** Every path is a file, and none can be read. *)
Definition unreadable_env : Env :=
  {| os_path_isfile := fun _ => Ret true
   ; read_text := fun _ => Raise permission_denied
   ; ast_parse := ast_parse quiet_env
   ; import_module := import_module quiet_env
   ; write_temp_script := write_temp_script quiet_env
   ; os_unlink := os_unlink quiet_env
   ; thread_join := thread_join quiet_env
   ; exec_script := exec_script quiet_env
   ; call_main := call_main quiet_env
   ; asyncio_run_main := asyncio_run_main quiet_env
   ; loop_running := loop_running quiet_env
   ; elapsed := elapsed quiet_env
   ; makedirs := makedirs quiet_env
   ; gettempdir := gettempdir quiet_env
   ; strftime := strftime quiet_env
   ; os_path_join := os_path_join quiet_env
   ; write_report := write_report quiet_env |}.






End PipelineMore.

(* ================================================================== *)
(** ** Exceptions of the script's own making *)
(* ================================================================== *)

(** [Pipeline] reads [str(e)] off an exception as a text and takes every
    exception kept by the worker for true. That is what the exceptions of
    the interpreter and of the libraries are like. The script runs in the
    process of the caller and may raise an object of a class of its own:
    [str(e)] and [bool(e)] can then raise in turn, inside the very handler
    that formats the message. This module embeds the execution stage and
    the handler around the stages once more, with such objects, and with
    the two ways the temporary file can fail. A script is taken to act on
    the call only through the way its runs end; one that reaches into the
    frames of the caller is outside of what is modelled. *)
Module ScriptExceptions.
Import PyStr PyExn Transformer Pipeline.

(** An exception object: its class when it is an [Exception] ([None] for
    a [BaseException] that is none), what [str(e)] does and what [bool(e)]
    does: give a value, or raise another object. The pipeline calls
    [str] a bounded number of times, so that finite chains are all it can
    tell apart. *)
Inductive raised : Type :=
  | Raised (cls : option exn_class) (text : printed) (truth : tested)
with printed : Type :=
  | Prints (text : string)
  | StrRaises (e : raised)
with tested : Type :=
  | Truth (b : bool)
  | BoolRaises (e : raised).

Definition r_class (e : raised) : option exn_class :=
  match e with Raised cls _ _ => cls end.

Definition r_str (e : raised) : printed :=
  match e with Raised _ text _ => text end.

Definition r_bool (e : raised) : tested :=
  match e with Raised _ _ truth => truth end.

(** [isinstance(e, Exception)] and [isinstance(e, RuntimeError)] *)
Definition is_exception (e : raised) : bool :=
  match r_class e with
  | Some _ => true
  | None => false
  end.

Definition is_runtime_error (e : raised) : bool :=
  match r_class e with
  | Some c => exn_class_eqb c RuntimeError
  | None => false
  end.

(** An exception of the interpreter or of a library. *)
Definition plain (e : exn) : raised :=
  Raised (Some (exn_cls e)) (Prints (exn_msg e)) (Truth true).

(** [e] is an [Exception] that is true and of which [str] raises [e']:
    an object of a class whose [__str__] raises. *)
Definition str_raises (e e' : raised) : Prop :=
  is_exception e = true /\ r_bool e = Truth true /\ r_str e = StrRaises e'.

(** [e] has a text and a truth value. *)
Definition prints (e : raised) : Prop :=
  exists text b, r_str e = Prints text /\ r_bool e = Truth b.

(** [SystemExit] and the like. *)
Definition base_exception : raised := Raised None (Prints "") (Truth true).

(** How a run of code of the script ends. *)
Inductive srun (A : Type) : Type :=
  | Finished (a : A)
  | Raises (e : raised).
Arguments Finished {A} a.
Arguments Raises {A} e.

(** How a call of the pipeline ends. *)
Inductive result (A : Type) : Type :=
  | Ok (a : A)
  | Err (e : raised).
Arguments Ok {A} a.
Arguments Err {A} e.

(** The [with] block that writes the temporary file: it ends with
    [temp_script_path] bound and the file closed; or it fails before the
    name is bound (the file cannot be created, the text cannot be
    encoded); or it fails when the file is closed, the name bound
    (the buffer cannot be flushed). *)
Inductive temp_file : Type :=
  | Written (path : string)
  | WriteFails (e : exn)
  | CloseFails (path : string) (e : exn).

(** What [Env] says of the script and of the temporary file, without its
    assumptions. *)
Record Behaviour : Type := mk_behaviour
  { b_exec_script : string -> srun main_kind
  ; b_call_main : string -> srun unit
  ; b_asyncio_run_main : string -> bool -> srun unit
  ; b_write_temp_script : string -> temp_file }.

Definition of_run {A} (r : run A) : srun A :=
  match r with
  | Done a => Finished a
  | Throws e => Raises (plain e)
  | Exits => Raises base_exception
  end.

Definition of_outcome {A} (o : outcome A) : result A :=
  match o with
  | Ret a => Ok a
  | Raise e => Err (plain e)
  end.

(** The behaviour an [Env] describes. *)
Definition of_env (env : Env) : Behaviour :=
  {| b_exec_script := fun s => of_run (exec_script env s)
   ; b_call_main := fun s => of_run (call_main env s)
   ; b_asyncio_run_main :=
       fun s nested => of_run (asyncio_run_main env s nested)
   ; b_write_temp_script :=
       fun s => match write_temp_script env s with
                | Ret path => Written path
                | Raise e => WriteFails e
                end |}.

(** The locals [result] and [exception] of the worker's closure. *)
Record worker_locals : Type := mk_worker_locals
  { wl_result : option RunResult; wl_exception : option raised }.

(** *** The state monad of [Pipeline], with these exceptions *)

Definition SM (A : Type) : Type := store -> result A * store.

Definition sret {A} (a : A) : SM A := fun st => (Ok a, st).
Definition sraise {A} (e : raised) : SM A := fun st => (Err e, st).
Definition sbind {A B} (m : SM A) (k : A -> SM B) : SM B :=
  fun st =>
    match m st with
    | (Ok a, st') => k a st'
    | (Err e, st') => (Err e, st')
    end.
(** A computation of [Pipeline]: its exceptions are plain. *)
Definition slift {A} (m : M A) : SM A :=
  fun st => let '(o, st') := m st in (of_outcome o, st').
Definition spure {A} (r : result A) : SM A := fun st => (r, st).
(** [try: m except Exception as e: h e] *)
Definition sexcept {A} (m : SM A) (h : raised -> SM A) : SM A :=
  fun st =>
    match m st with
    | (Ok a, st') => (Ok a, st')
    | (Err e, st') => if is_exception e then h e st' else (Err e, st')
    end.

Declare Scope script_scope.
Delimit Scope script_scope with script.
Notation "x <- m ;; k" := (sbind m (fun x => k))
  (at level 61, m at next level, right associativity) : script_scope.
Notation "m ;;; k" := (sbind m (fun _ => k))
  (at level 61, right associativity) : script_scope.

(** [prefix + str(e)] in a handler that has caught [e]. *)
Definition message (prefix : string) (e : raised) : result string :=
  match r_str e with
  | Prints text => Ok (prefix ++ text)
  | StrRaises e' => Err e'
  end.

(** [except Exception as e: errors.append(prefix + str(e))], for the
    dictionary [_execute_script_safely] then returns. *)
Definition handled (prefix : string) (r : result ExecResult)
  : result ExecResult :=
  match r with
  | Ok x => Ok x
  | Err e =>
      if is_exception e then
        match message prefix e with
        | Ok msg => Ok (exec_failure [msg])
        | Err e' => Err e'
        end
      else Err e
  end.

Section WithEnv.

Variable env : Env.
Variable script : Behaviour.

(** [if exception: raise exception], the exception kept by a closure. *)
Definition raise_if_kept (kept : option raised) : srun unit :=
  match kept with
  | None => Finished tt
  | Some e =>
      match r_bool e with
      | Truth true => Raises e
      | Truth false => Finished tt
      | BoolRaises e' => Raises e'
      end
  end.

(** The asynchronous entry point. With a loop running, a nested thread
    hosts [asyncio.run]; its closure keeps an [Exception], anything else
    ends the thread; the caller re-raises what was kept inside the [try]
    whose handler takes [RuntimeError]. *)
Definition run_async_main (script_content : string) : srun unit :=
  if loop_running env then
    let kept : option raised :=
      match b_asyncio_run_main script script_content true with
      | Finished _ => None
      | Raises e => if is_exception e then Some e else None
      end in
    match raise_if_kept kept with
    | Finished _ => Finished tt
    | Raises e =>
        if is_runtime_error e
        then b_asyncio_run_main script script_content false
        else Raises e
    end
  else b_asyncio_run_main script script_content false.

(** The handler of [_run_script_with_monitoring] evaluates [str(e)] before
    it raises the wrapping exception. *)
Definition _run_script_with_monitoring (script_path : string)
  : srun RunResult :=
  let body : srun unit :=
    match read_text env script_path with
    | Raise e => Raises (plain e)
    | Ret script_content =>
        match b_exec_script script script_content with
        | Finished NoMain => Finished tt
        | Finished AsyncMain => run_async_main script_content
        | Finished SyncMain => b_call_main script script_content
        | Raises e => Raises e
        end
    end in
  match body with
  | Finished _ => Finished {| rr_summary := zero_summary; rr_warnings := [] |}
  | Raises e =>
      if is_exception e then
        match message "Script execution error: " e with
        | Ok msg =>
            Raises (plain {| exn_cls := OtherException
                           ; exn_msg := msg
                           ; exn_lineno := None |})
        | Err e' => Raises e'
        end
      else Raises e
  end.

(** The closure [target] run to its end: it keeps an [Exception]; any
    other object ends the thread with both locals [None]. *)
Definition target (temp_script_path : string) : worker_locals :=
  match _run_script_with_monitoring temp_script_path with
  | Finished r => {| wl_result := Some r; wl_exception := None |}
  | Raises e =>
      if is_exception e
      then {| wl_result := None; wl_exception := Some e |}
      else {| wl_result := None; wl_exception := None |}
  end.

(** The body of the inner [try]: the worker is started and joined, and
    the branches on [thread.is_alive()], [exception] and [result]. *)
Definition join_worker (temp_script_path : string) (timeout_seconds : Z)
  : result ExecResult :=
  match thread_join env temp_script_path timeout_seconds with
  | Raise e => Err (plain e)
  | Ret true =>
      Ok (exec_failure ["Script execution timed out after "
                        ++ str_of_Z timeout_seconds ++ " seconds"])
  | Ret false =>
      let locals := target temp_script_path in
      let on_result : ExecResult :=
        match wl_result locals with
        | Some result =>
            {| er_success := true
             ; er_summary := rr_summary result
             ; er_errors := []
             ; er_warnings := rr_warnings result |}
        | None =>
            exec_failure
              ["Script execution completed but returned no result"]
        end in
      match wl_exception locals with
      | None => Ok on_result
      | Some e =>
          match r_bool e with
          | Truth true => Err e
          | Truth false => Ok on_result
          | BoolRaises e' => Err e'
          end
      end
  end.

(** An exception raised inside the inner handler reaches the outer one,
    and one raised inside the outer handler leaves the function, after
    the [finally] clause. When the file was not written that clause raises
    itself, on the unbound [temp_script_path]. *)
Definition _execute_script_safely (script_content : string)
    (timeout_seconds : Z) : result ExecResult :=
  match b_write_temp_script script script_content with
  | WriteFails _ => Err (plain unbound_temp_script_path)
  | CloseFails temp_script_path e =>
      let returned :=
        handled "Failed to prepare script execution: " (Err (plain e)) in
      let _ := os_unlink env temp_script_path in
      returned
  | Written temp_script_path =>
      let returned :=
        handled "Failed to prepare script execution: "
          (handled "Script execution failed: "
             (join_worker temp_script_path timeout_seconds)) in
      let _ := os_unlink env temp_script_path in
      returned
  end.

(** Steps 1 to 4, the body of the outer [try]. *)
Definition run_stages (script_content : string) (enable_tracking : bool)
    (timeout_seconds : Z) (save_test_report : bool)
    (test_report_dir : option string) : SM (flow unit) :=
  (parsed <- slift
     (enter StageSyntax ;;;
      try_except_class SyntaxError
        (lift (ast_parse env script_content) ;;;
         set_test_results set_syntax_valid ;;;
         ret (Continue tt))
        (fun e =>
           errors_append ("Syntax Error: " ++ exn_msg e ++ " at line "
                          ++ str_of_lineno (exn_lineno e)) ;;;
           r <- _create_test_result env false save_test_report
                  test_report_dir ;;
           ret (Return r)))%py ;;
   match parsed with
   | Return r => sret (Return r)
   | Continue _ =>
       let import_results :=
         Pipeline._validate_pylabrobot_imports env script_content in
       let modified_script :=
         _modify_script_for_testing script_content enable_tracking in
       slift
         (enter StageImports ;;;
          set_test_results (set_imports_valid (ir_success import_results)) ;;;
          (if negb (ir_success import_results)
           then errors_extend (ir_errors import_results) ;;;
                warnings_extend (ir_warnings import_results)
           else ret tt) ;;;
          enter StageTransform ;;;
          enter StageExecute)%py ;;;
       execution_result <-
         spure (_execute_script_safely modified_script timeout_seconds) ;;
       slift
         (set_test_results
            (set_simulation_successful (er_success execution_result)) ;;;
          set_execution_summary
            (summary_update (er_summary execution_result)) ;;;
          (if negb (er_success execution_result)
           then errors_extend (er_errors execution_result)
           else ret tt) ;;;
          warnings_extend (er_warnings execution_result) ;;;
          ret (Continue tt))%py
   end)%script.

(** The handler around the stages evaluates [str(e)] as well; what that
    raises leaves [test_pylabrobot_script]. *)
Definition test_body (script_input : string) (enable_tracking : bool)
    (timeout_seconds : Z) (save_test_report : bool)
    (test_report_dir : option string) : SM result_dict :=
  (resolved <- slift (resolve_input env script_input save_test_report
                        test_report_dir) ;;
   match resolved with
   | Return r => sret r
   | Continue script_content =>
       if strip script_content =? "" then
         slift (errors_append "Script content is empty" ;;;
                _create_test_result env false save_test_report
                  test_report_dir)%py
       else
         staged <- sexcept
                     (run_stages script_content enable_tracking
                        timeout_seconds save_test_report test_report_dir)
                     (fun e =>
                        msg <- spure (message
                                        "Unexpected error during testing: "
                                        e) ;;
                        slift (errors_append msg) ;;;
                        sret (Continue tt)) ;;
         match staged with
         | Return r => sret r
         | Continue _ =>
             slift
               (st <- get ;;
                let t := st_test_results st in
                let overall_success :=
                  syntax_valid t && imports_valid t
                  && simulation_successful t in
                _create_test_result env overall_success save_test_report
                  test_report_dir)%py
         end
   end)%script.

(** The call as its caller sees it: the dictionary read after the return,
    or the object that escaped. *)
Definition test_pylabrobot_script (script_input : string)
    (enable_tracking : bool) (timeout_seconds : Z)
    (save_test_report : bool) (test_report_dir : option string)
  : result Report :=
  match test_body script_input enable_tracking timeout_seconds
          save_test_report test_report_dir (initial_store enable_tracking)
  with
  | (Ok r, st) => Ok (view r st)
  | (Err e, _) => Err e
  end.

(** The stages the call entered, in order. *)
Definition stages_entered (script_input : string)
    (enable_tracking : bool) (timeout_seconds : Z)
    (save_test_report : bool) (test_report_dir : option string)
  : list stage :=
  st_stages
    (snd (test_body script_input enable_tracking timeout_seconds
            save_test_report test_report_dir
            (initial_store enable_tracking))).

End WithEnv.

(** *** Sample scripts *)

(** An object of a class whose [__str__] raises another object of the
    class, [n] times over; the last one prints. *)
Fixpoint sulky (n : nat) : raised :=
  match n with
  | O => Raised (Some OtherException) (Prints "") (Truth true)
  | S k => Raised (Some OtherException) (StrRaises (sulky k)) (Truth true)
  end.

(** A script that raises such an object at its top level. No line of it
    starts a definition, so that the transformer leaves it in one
    piece. *)
Definition sulky_script : string :=
  join nl_str
    [ "E = type('E', (Exception,), {})"
    ; "E.__str__ = lambda self: (_ for _ in ()).throw(E())"
    ; "raise E()" ].

(** The temporary file holds the transformed script, and running that
    text raises the object. *)
Definition sulky_env : Env :=
  {| os_path_isfile := fun _ => Ret false
   ; read_text := fun _ => Ret (_modify_script_for_testing sulky_script true)
   ; ast_parse := fun _ => Ret []
   ; import_module := fun _ _ => Ret (fun _ => true)
   ; write_temp_script := fun _ => Ret "/tmp/tmpscript.py"
   ; os_unlink := fun _ => true
   ; thread_join := fun _ _ => Ret false
   ; exec_script := fun _ => Done NoMain
   ; call_main := fun _ => Done tt
   ; asyncio_run_main := fun _ _ => Done tt
   ; loop_running := false
   ; elapsed := 1
   ; makedirs := fun _ => Ret tt
   ; gettempdir := "/tmp"
   ; strftime := "20250101_000000"
   ; os_path_join := fun a b => a ++ "/" ++ b
   ; write_report := fun _ _ => Ret tt |}.

Definition sulky_behaviour : Behaviour :=
  {| b_exec_script :=
       fun text =>
         if text =? _modify_script_for_testing sulky_script true
         then Raises (sulky 4) else Finished NoMain
   ; b_call_main := fun _ => Finished tt
   ; b_asyncio_run_main := fun _ _ => Finished tt
   ; b_write_temp_script := fun _ => Written "/tmp/tmpscript.py" |}.

(** A script that raises an exception that prints. *)
Definition failing_behaviour : Behaviour :=
  {| b_exec_script :=
       fun _ => Raises (plain {| exn_cls := OtherException
                               ; exn_msg := "division by zero"
                               ; exn_lineno := None |})
   ; b_call_main := fun _ => Finished tt
   ; b_asyncio_run_main := fun _ _ => Finished tt
   ; b_write_temp_script := fun _ => Written "/tmp/tmpscript.py" |}.

End ScriptExceptions.

(* ================================================================== *)
(** ** The curated liquid-handling guide *)
(* ================================================================== *)

Module Docs.
Import PyStr.

(** The two typographic quotes of the last heading, U+201C and U+201D,
    are written as the bytes of their UTF-8 encoding; nothing below
    measures a heading. *)
Definition left_quote : string :=
  String (ascii_of_nat 226) (String (ascii_of_nat 128)
    (String (ascii_of_nat 156) "")).
Definition right_quote : string :=
  String (ascii_of_nat 226) (String (ascii_of_nat 128)
    (String (ascii_of_nat 157) "")).

(** The curated order: a heading and the keywords that claim a file. *)
Definition sections : list (string * list string) :=
  [ ("Getting started with liquid handling on a Hamilton STAR(let)",
     ["/hamilton-star/"; "basic.ipynb"; "basic"; "getting-started"])
  ; ("iSWAP Module", ["iswap"])
  ; ("Liquid level detection on Hamilton STAR(let)",
     ["liquid-level"; "lld"; "level_detection"; "level-detection"])
  ; ("Z-probing",
     ["z-probing"; "z_probing"; "z-probing"; "zprobing"; "z-prob"])
  ; ("Foil", ["foil"])
  ; ("Using the 96 head", ["96"; "head"; "mca"; "96-head"; "head-96"])
  ; ("Using " ++ left_quote ++ "Hamilton Liquid Classes" ++ right_quote
     ++ " with Pylabrobot",
     ["liquid-classes"; "liquid_classes"; "hamilton-liquid-classes"]) ].

(** [idx in used] *)
Definition is_used (idx : nat) (used : list nat) : bool :=
  existsb (Nat.eqb idx) used.

(** [pick_first], from the document at position [idx] on: the set [used]
    afterwards and the text returned. *)
Fixpoint pick_first_from (keywords : list string)
    (docs : list (string * string)) (idx : nat) (used : list nat)
  : list nat * string :=
  match docs with
  | [] => (used, "")
  | (fname, text) :: rest =>
      if is_used idx used then pick_first_from keywords rest (S idx) used
      else if existsb (fun k => contains k fname) keywords
      then (idx :: used, text)
      else pick_first_from keywords rest (S idx) used
  end.

Definition pick_first (keywords : list string)
    (named_docs : list (string * string)) (used : list nat)
  : list nat * string :=
  pick_first_from keywords named_docs 0 used.

(** One entry of [out_parts]: the heading line, an empty line, the
    text. *)
Definition block (heading text : string) : string :=
  "## " ++ heading ++ nl_str ++ nl_str ++ text.

(** The loop over the sections. *)
Fixpoint curated (secs : list (string * list string))
    (named_docs : list (string * string)) (used : list nat)
    (out_parts : list string) : list nat * list string :=
  match secs with
  | [] => (used, out_parts)
  | (heading, keywords) :: rest =>
      let '(used', text) := pick_first keywords named_docs used in
      curated rest named_docs used'
        (if text =? "" then out_parts
         else (out_parts ++ [block heading text])%list)
  end.

(** [s.rsplit(sep, 1)[0]] *)
Definition before_last (sep : ascii) (s : string) : string :=
  match split sep s with
  | [] | [_] => s
  | parts => join (String sep "") (removelast parts)
  end.

Section WithTitle.

(** [str.title] *)
Variable title : string -> string.

(** The title derived from a file name. *)
Definition derived_title (fname : string) : string :=
  let leaf := last (split "/"%char fname) "" in
  let t := replace "-" " " (replace "_" " " leaf) in
  title (strip (before_last "."%char t)).

(** The loop over the documents no section claimed. *)
Fixpoint remaining (docs : list (string * string)) (idx : nat)
    (used : list nat) (out_parts : list string) : list string :=
  match docs with
  | [] => out_parts
  | (fname, text) :: rest =>
      if negb (is_used idx used) && negb (text =? "")
      then remaining rest (S idx) used
             (out_parts ++ [block (derived_title fname) text])%list
      else remaining rest (S idx) used out_parts
  end.

Definition _format_liquid_user_guide (named_docs : list (string * string))
  : string :=
  let '(used, out_parts) := curated sections named_docs [] [] in
  join (nl_str ++ nl_str) (remaining named_docs 0 used out_parts).

End WithTitle.

(** The texts of the documents that have one, in their order. *)
Definition nonempty_texts (docs : list (string * string)) : list string :=
  filter (fun t => negb (t =? "")) (map snd docs).

(** [out_parts] for a list of headings with their texts. *)
Definition blocks (parts : list (string * string)) : list string :=
  map (fun p => block (fst p) (snd p)) parts.

End Docs.

(* ================================================================== *)
(** ** Facts about the string methods *)
(* ================================================================== *)

Module PyStrFacts.
Import PyStr.

Lemma prefix_nil_l (s : string) : prefix "" s = true.
Proof. destruct s; reflexivity. Qed.

Lemma prefix_cons (a c : ascii) (p s : string) :
  prefix (String a p) (String c s) = Ascii.eqb a c && prefix p s.
Proof.
  simpl. destruct (ascii_dec a c) as [->|Hne].
  - now rewrite Ascii.eqb_refl.
  - apply Ascii.eqb_neq in Hne. now rewrite Hne.
Qed.

Lemma prefix_app_same (p r : string) : prefix p (p ++ r) = true.
Proof.
  induction p as [|a p IH]; [apply prefix_nil_l|].
  change (String a p ++ r) with (String a (p ++ r)).
  now rewrite prefix_cons, Ascii.eqb_refl, IH.
Qed.

Lemma prefix_true_app (p s : string) :
  prefix p s = true -> exists r, s = p ++ r.
Proof.
  revert s. induction p as [|a p IH]; intros s H.
  - now exists s.
  - destruct s as [|c s]; [discriminate|].
    rewrite prefix_cons in H. apply andb_true_iff in H as [Hac Hp].
    apply Ascii.eqb_eq in Hac as ->.
    destruct (IH _ Hp) as [r ->]. now exists r.
Qed.

(** A pattern that lacks the separator cannot reach across it. *)
Lemma prefix_app_sep (sep : ascii) (p a b : string) :
  mem_char sep p = false ->
  prefix p (a ++ String sep b) = prefix p a.
Proof.
  revert a. induction p as [|x p IH]; intros a Hp.
  - now rewrite !prefix_nil_l.
  - simpl in Hp. apply orb_false_iff in Hp as [Hx Hp].
    destruct a as [|c a].
    + change ("" ++ String sep b) with (String sep b).
      rewrite prefix_cons. rewrite Ascii.eqb_sym in Hx. now rewrite Hx.
    + change (String c a ++ String sep b) with (String c (a ++ String sep b)).
      now rewrite !prefix_cons, IH.
Qed.

Lemma occurrences_nil (p : string) : p <> "" -> occurrences p "" = 0.
Proof. destruct p; [congruence | reflexivity]. Qed.

Lemma occurrences_app_sep (sep : ascii) (p a b : string) :
  p <> "" -> mem_char sep p = false ->
  occurrences p (a ++ String sep b) = occurrences p a + occurrences p b.
Proof.
  intros Hne Hp. induction a as [|c a IH].
  - rewrite occurrences_nil by assumption.
    change ("" ++ String sep b) with (String sep b).
    change (occurrences p (String sep b))
      with ((if prefix p (String sep b) then 1 else 0) + occurrences p b).
    replace (prefix p (String sep b)) with (prefix p "").
    + destruct p; [congruence | reflexivity].
    + symmetry. apply (prefix_app_sep sep p "" b Hp).
  - change (String c a ++ String sep b) with (String c (a ++ String sep b)).
    change (occurrences p (String c (a ++ String sep b)))
      with ((if prefix p (String c (a ++ String sep b)) then 1 else 0)
            + occurrences p (a ++ String sep b)).
    change (occurrences p (String c a))
      with ((if prefix p (String c a) then 1 else 0) + occurrences p a).
    rewrite IH.
    change (String c (a ++ String sep b)) with (String c a ++ String sep b).
    rewrite prefix_app_sep by assumption. lia.
Qed.

Lemma split_not_nil (sep : ascii) (s : string) : split sep s <> [].
Proof.
  induction s as [|c s IH]; simpl; [discriminate|].
  destruct (Ascii.eqb c sep); [discriminate|].
  destruct (split sep s); [contradiction | discriminate].
Qed.

Lemma concat_cons_cons (sep x y : string) (l : list string) :
  String.concat sep (x :: y :: l) = x ++ sep ++ String.concat sep (y :: l).
Proof. reflexivity. Qed.

(** Joining what [split] gave restores the text. *)
Lemma join_split (sep : ascii) (s : string) :
  join (String sep "") (split sep s) = s.
Proof.
  unfold join. induction s as [|c s IH]; [reflexivity|].
  simpl split. destruct (Ascii.eqb c sep) eqn:E.
  - apply Ascii.eqb_eq in E as ->.
    pose proof (split_not_nil sep s) as Hne.
    destruct (split sep s) as [|h t]; [contradiction|].
    rewrite concat_cons_cons, IH. reflexivity.
  - pose proof (split_not_nil sep s) as Hne.
    destruct (split sep s) as [|h t]; [contradiction|].
    destruct t as [|h' t].
    + simpl in *. now rewrite IH.
    + rewrite concat_cons_cons. rewrite concat_cons_cons in IH.
      change (String c h ++ String sep "" ++ String.concat (String sep "") (h' :: t))
        with (String c (h ++ String sep "" ++ String.concat (String sep "") (h' :: t))).
      now rewrite IH.
Qed.

(** The occurrences in a joined text are those of its pieces. *)
Lemma occurrences_join (sep : ascii) (p : string) (ls : list string) :
  p <> "" -> mem_char sep p = false ->
  occurrences p (join (String sep "") ls)
  = list_sum (map (occurrences p) ls).
Proof.
  intros Hne Hp. unfold join. induction ls as [|x ls IH].
  - simpl. now apply occurrences_nil.
  - destruct ls as [|y ls].
    + simpl. lia.
    + rewrite concat_cons_cons.
      change (x ++ String sep "" ++ String.concat (String sep "") (y :: ls))
        with (x ++ String sep (String.concat (String sep "") (y :: ls))).
      rewrite occurrences_app_sep by assumption.
      rewrite IH. reflexivity.
Qed.

Lemma list_sum_insert {A} (f : A -> nat) (i : nat) (x : A) (l : list A) :
  list_sum (map f (list_insert i x l)) = f x + list_sum (map f l).
Proof.
  unfold list_insert.
  rewrite <- (firstn_skipn i l) at 3.
  rewrite !map_app, !list_sum_app. simpl. lia.
Qed.

(** Inserting a line adds its occurrences and no other. *)
Lemma occurrences_insert_line (p x s : string) (i : nat) :
  p <> "" -> mem_char nl p = false ->
  occurrences p (join nl_str (list_insert i x (split nl s)))
  = occurrences p x + occurrences p s.
Proof.
  intros Hne Hp. unfold nl_str.
  rewrite (occurrences_join nl p _ Hne Hp), list_sum_insert.
  rewrite <- (occurrences_join nl p _ Hne Hp).
  now rewrite join_split.
Qed.

Lemma contains_nil (p : string) : p <> "" -> contains p "" = false.
Proof. destruct p; [congruence | reflexivity]. Qed.

Lemma replace_go_cons (old new : string) (c : ascii) (s : string) :
  replace_go old new 0 (String c s)
  = if prefix old (String c s)
    then new ++ replace_go old new (String.length old - 1) s
    else String c (replace_go old new 0 s).
Proof. reflexivity. Qed.

Lemma occurrences_cons (p : string) (c : ascii) (s : string) :
  occurrences p (String c s)
  = (if prefix p (String c s) then 1 else 0) + occurrences p s.
Proof. reflexivity. Qed.

Section Replace.

Variables (old new olds news : string) (o h : ascii).
Hypothesis Hold : old = String o olds.
Hypothesis Hnew : new = String h news.
Hypothesis Ho : mem_char o new = false.
Hypothesis Hh : mem_char h old = false.

(** What the scan emits starts like the text it read, as far as a pattern
    free of the first character of [new] can tell. *)
Lemma prefix_replace_go (p : string) :
  mem_char h p = false ->
  forall s, prefix p (replace_go old new 0 s) = true -> prefix p s = true.
Proof.
  induction p as [|a p IH]; intros Hp s H; [apply prefix_nil_l|].
  simpl in Hp. apply orb_false_iff in Hp as [Hha Hp].
  destruct s as [|c s]; [simpl in H; discriminate|].
  rewrite replace_go_cons in H.
  destruct (prefix old (String c s)) eqn:E.
  - exfalso. rewrite Hnew in H. cbn [append] in H.
    rewrite prefix_cons in H. apply andb_true_iff in H as [H _].
    rewrite Ascii.eqb_sym in H. congruence.
  - rewrite prefix_cons in H |- *.
    apply andb_true_iff in H as [H1 H2].
    rewrite H1. simpl. now apply IH.
Qed.

Lemma occurrences_skip_new (t x : string) :
  mem_char o t = false -> occurrences old (t ++ x) = occurrences old x.
Proof.
  induction t as [|c t IH]; intros Ht; [reflexivity|].
  simpl in Ht. apply orb_false_iff in Ht as [Hc Ht].
  change (String c t ++ x) with (String c (t ++ x)).
  change (occurrences old (String c (t ++ x)))
    with ((if prefix old (String c (t ++ x)) then 1 else 0)
          + occurrences old (t ++ x)).
  rewrite IH by assumption.
  rewrite Hold at 1. rewrite prefix_cons, Hc. reflexivity.
Qed.

(** No occurrence of [old] survives the replacement. *)
Lemma occurrences_replace_go (s : string) :
  forall skip, occurrences old (replace_go old new skip s) = 0.
Proof.
  induction s as [|c s IH]; intros skip.
  - simpl. rewrite Hold. reflexivity.
  - destruct skip as [|k]; [|apply IH].
    pose proof (prefix_replace_go old Hh (String c s)) as Hpre.
    rewrite replace_go_cons in *.
    destruct (prefix old (String c s)) eqn:E.
    + rewrite occurrences_skip_new by assumption. apply IH.
    + rewrite occurrences_cons, IH.
      destruct (prefix old (String c (replace_go old new 0 s)));
        [specialize (Hpre eq_refl); discriminate | reflexivity].
Qed.

(** Where [old] occurred, [new] now does. *)
Lemma occurrences_new_replace_go (s : string) :
  contains old s = true -> 1 <= occurrences new (replace_go old new 0 s).
Proof.
  induction s as [|c s IH]; intros H.
  - rewrite contains_nil in H; [discriminate | rewrite Hold; discriminate].
  - rewrite replace_go_cons.
    change (contains old (String c s))
      with (prefix old (String c s) || contains old s) in H.
    destruct (prefix old (String c s)) eqn:E.
    + pose proof (prefix_app_same new
                    (replace_go old new (String.length old - 1) s)) as Hp.
      destruct (new ++ replace_go old new (String.length old - 1) s) eqn:Eo.
      * rewrite Hnew in Eo. discriminate.
      * rewrite occurrences_cons, Hp. lia.
    + simpl in H. specialize (IH H). rewrite occurrences_cons. lia.
Qed.

End Replace.

End PyStrFacts.

(* ================================================================== *)
(** ** The script transformer: properties *)
(* ================================================================== *)

Module TransformerSpec.
Import PyStr PyStrFacts Transformer Reference Samples.

Lemma apply_replacements_eq (s : string) :
  apply_replacements s
  = replace_go hardware_backend simulation_backend 0 s.
Proof. reflexivity. Qed.

Lemma hardware_backend_gone (s : string) :
  occurrences hardware_backend (apply_replacements s) = 0.
Proof.
  rewrite apply_replacements_eq.
  eapply occurrences_replace_go; reflexivity.
Qed.

Lemma simulation_backend_present (s : string) :
  contains hardware_backend s = true ->
  1 <= occurrences simulation_backend (apply_replacements s).
Proof.
  rewrite apply_replacements_eq.
  eapply occurrences_new_replace_go; reflexivity.
Qed.

Lemma occurrences_modify (p script : string) (enable_tracking : bool) :
  p <> "" -> mem_char nl p = false ->
  occurrences p (_modify_script_for_testing script enable_tracking)
  = occurrences p (tracking_setup enable_tracking)
    + (occurrences p backend_import
       + occurrences p (apply_replacements script)).
Proof.
  intros Hne Hp.
  unfold _modify_script_for_testing, insert_tracking, insert_backend_import.
  now rewrite !occurrences_insert_line.
Qed.

(** C7. Whenever the source holds a literal [STARBackend()], the
    transformed source holds no [STARBackend()] at all and at least one
    [LiquidHandlerChatterboxBackend()]. *)
Theorem backend_swapped (script : string) (enable_tracking : bool) :
  contains hardware_backend script = true ->
  occurrences hardware_backend
    (_modify_script_for_testing script enable_tracking) = 0
  /\ 1 <= occurrences simulation_backend
            (_modify_script_for_testing script enable_tracking).
Proof.
  intros H. split.
  - rewrite occurrences_modify by (discriminate || reflexivity).
    rewrite hardware_backend_gone.
    destruct enable_tracking; reflexivity.
  - rewrite occurrences_modify by (discriminate || reflexivity).
    pose proof (simulation_backend_present script H). lia.
Qed.

Lemma backend_swapped_witness :
  contains hardware_backend script_with_backend = true
  /\ occurrences hardware_backend
       (_modify_script_for_testing script_with_backend true) = 0
  /\ 1 <= occurrences simulation_backend
            (_modify_script_for_testing script_with_backend true).
Proof.
  split; [reflexivity | apply (backend_swapped script_with_backend true)].
  reflexivity.
Defined.

(** *** The insertion point of the import *)

(** A definition line is never an import or comment line, so the order of
    the two tests of the loop is immaterial. *)
Lemma definition_not_import (line : string) :
  definition_line line = true -> import_or_comment line = false.
Proof.
  unfold definition_line, import_or_comment, startswith_any, startswith.
  generalize (strip line) as t. intros t H. simpl in H.
  repeat (apply orb_true_iff in H as [H|H]);
    try discriminate;
    apply prefix_true_app in H as [r ->]; reflexivity.
Qed.

Lemma split_lines (lines : list string) :
  lines = (leading_lines lines ++ from_definition lines)%list.
Proof.
  induction lines as [|l lines IH]; [reflexivity|].
  simpl. destruct (definition_line l); [reflexivity|].
  simpl. now f_equal.
Qed.

Lemma leading_lines_no_definition (lines : list string) :
  Forall (fun l => definition_line l = false) (leading_lines lines).
Proof.
  induction lines as [|l lines IH]; simpl; [constructor|].
  destruct (definition_line l) eqn:E; constructor; assumption.
Qed.

Lemma from_definition_head (lines : list string) :
  from_definition lines = []
  \/ exists d rest,
       from_definition lines = d :: rest /\ definition_line d = true.
Proof.
  induction lines as [|l lines IH]; simpl; [now left|].
  destruct (definition_line l) eqn:E; [right; now exists l, lines | exact IH].
Qed.

(** The loop leaves in [insert_at] the index of the first definition
    line: every line before it moves the index, whatever the line is. *)
Lemma scan_insert_at_leading (lines : list string) (i insert_at : nat) :
  scan_insert_at lines i insert_at
  = match leading_lines lines with
    | [] => insert_at
    | _ => i + List.length (leading_lines lines)
    end.
Proof.
  revert i insert_at. induction lines as [|l lines IH]; intros i a.
  - reflexivity.
  - simpl. destruct (definition_line l) eqn:D.
    + now rewrite (definition_not_import l D).
    + assert (E : scan_insert_at lines (S i) (S i)
                  = i + S (List.length (leading_lines lines))).
      { rewrite IH. destruct (leading_lines lines); simpl; lia. }
      destruct (import_or_comment l); simpl; exact E.
Qed.

Lemma scan_insert_at_first_definition (lines : list string) :
  scan_insert_at lines 0 0 = List.length (leading_lines lines).
Proof.
  rewrite scan_insert_at_leading. now destruct (leading_lines lines).
Qed.

Lemma list_insert_app {A} (x : A) (l1 l2 : list A) :
  list_insert (List.length l1) x (l1 ++ l2) = (l1 ++ x :: l2)%list.
Proof.
  unfold list_insert.
  rewrite firstn_app, skipn_app, Nat.sub_diag, firstn_all, skipn_all.
  simpl. now rewrite app_nil_r.
Qed.

(** C2 as worded fails: with a statement between the imports and
    the first definition, the index the specification describes stays
    behind the one the loop computes. *)
Lemma import_boundary_counterexample :
  ~ (forall script,
       insert_backend_import script = spec_insert_backend_import script).
Proof.
  intros H. specialize (H script_with_statement).
  vm_compute in H. discriminate.
Qed.

(** C2, amended. The import statement is inserted immediately before the
    first definition line (stripped text starting with [async def], [def],
    [class] or [if __name__]), or after the last line when there is none;
    every line before that one, import, comment or other statement alike,
    moves the insertion index past itself. *)
Theorem import_inserted_before_first_definition (script : string) :
  let lines := split nl script in
  scan_insert_at lines 0 0 = List.length (leading_lines lines)
  /\ lines = (leading_lines lines ++ from_definition lines)%list
  /\ Forall (fun l => definition_line l = false) (leading_lines lines)
  /\ (from_definition lines = []
      \/ exists d rest,
           from_definition lines = d :: rest /\ definition_line d = true)
  /\ insert_backend_import script
     = join nl_str
         (leading_lines lines ++ backend_import :: from_definition lines)%list.
Proof.
  intros lines. repeat split.
  - apply scan_insert_at_first_definition.
  - apply split_lines.
  - apply leading_lines_no_definition.
  - apply from_definition_head.
  - unfold insert_backend_import. fold lines.
    rewrite scan_insert_at_first_definition.
    rewrite (split_lines lines) at 2.
    now rewrite list_insert_app.
Qed.

(** Where only import and comment lines precede the first definition, the
    loop and the wording of the specification agree. *)
Lemma spec_scan_agrees (lines : list string) (i insert_at : nat) :
  Forall (fun l => import_or_comment l = true) (leading_lines lines) ->
  spec_scan_insert_at lines i insert_at = scan_insert_at lines i insert_at.
Proof.
  revert i insert_at. induction lines as [|l lines IH]; intros i a H.
  - reflexivity.
  - simpl in *. destruct (definition_line l) eqn:D.
    + now rewrite (definition_not_import l D).
    + inversion H as [|? ? Hl Hr]; subst. rewrite Hl. now apply IH.
Qed.

(** *** Validity of the transformed script *)

(** On a valid script whose first [def] sits under an [if], the import
    insertion alone breaks the indentation rule: the first scan strips the
    line before it looks for [def], stops inside the suite, and the import
    statement, which starts in column 0, follows the header. *)
Lemma import_insertion_splits_suite :
  apply_replacements script_with_guarded_def = script_with_guarded_def
  /\ offside_ok script_with_guarded_def = true
  /\ offside_ok (insert_backend_import script_with_guarded_def) = false
  /\ firstn 3 (skipn 1 (split nl (insert_backend_import
                                    script_with_guarded_def)))
     = ["if sys.platform == 'win32':"; backend_import;
        "    def beep(): return 1"]
  /\ forall enable_tracking,
       offside_ok (_modify_script_for_testing script_with_guarded_def
                     enable_tracking) = false.
Proof.
  repeat split; try (vm_compute; reflexivity);
    intros []; vm_compute; reflexivity.
Qed.

(** C1, on a valid script that declares a class with a method before its
    entry point: the script obeys the indentation rule, the transformed
    script does not, for either value of the tracking flag. The tracking
    snippet, which starts in column 0, lands between the class header and
    the indented method. *)
Theorem transformed_class_script_invalid (enable_tracking : bool) :
  offside_ok script_with_class = true
  /\ offside_ok (_modify_script_for_testing script_with_class enable_tracking)
     = false
  /\ firstn 2 (skipn 3 (split nl (_modify_script_for_testing
                                    script_with_class enable_tracking)))
     = ["class Protocol:"; ""]
  /\ nth 6 (split nl (_modify_script_for_testing
                        script_with_class enable_tracking)) ""
     = "try:"
  /\ nth 14 (split nl (_modify_script_for_testing
                         script_with_class enable_tracking)) ""
     = "    def run(self):".
Proof. destruct enable_tracking; vm_compute; repeat split. Qed.

End TransformerSpec.

(* ================================================================== *)
(** ** The validation pipeline: properties *)
(* ================================================================== *)

Module PipelineSpec.
Import PyStr PyExn Transformer Pipeline PipelineReference Samples.

(** Runs the monadic program of the goal on its store. Stores are taken
    apart beforehand, so that every projection meets a constructor. *)
Ltac run_monad :=
  cbv beta iota zeta delta
    [bind ret raise lift get modify try_except try_except_class
     errors_append errors_extend warnings_append warnings_extend
     set_test_results set_execution_summary enter
     st_test_results st_execution_summary st_errors st_warnings st_stages].

Ltac fields :=
  cbn [st_test_results st_execution_summary st_errors st_warnings st_stages
       rd_success rd_test_report_path view success test_results
       execution_summary errors warnings test_report_path
       syntax_valid imports_valid simulation_successful tracking_enabled
       input_type file_path set_syntax_valid set_imports_valid
       set_simulation_successful fst snd] in *.

Lemma app_not_nil_r {A} (l1 l2 : list A) : l2 <> [] -> (l1 ++ l2)%list <> [].
Proof. destruct l1, l2; simpl; congruence. Qed.

Lemma app_not_nil_l {A} (l1 l2 : list A) : l1 <> [] -> (l1 ++ l2)%list <> [].
Proof. destruct l1; simpl; congruence. Qed.

(** What [_create_test_result] does to the shared objects. *)
Lemma create_test_result_run env ok save dir st :
  exists r w,
    _create_test_result env ok save dir st
    = (Ret r,
       {| st_test_results := st_test_results st
        ; st_execution_summary :=
            stamp_total_time env (st_execution_summary st)
        ; st_errors := st_errors st
        ; st_warnings := (st_warnings st ++ w)%list
        ; st_stages := (st_stages st ++ [StageReport])%list |})
    /\ rd_success r = ok
    /\ persist_warning save w
    /\ (save = false -> rd_test_report_path r = None).
Proof.
  destruct st as [tr su er wa sg].
  unfold _create_test_result, persist_warning. run_monad.
  destruct save.
  - match goal with
    | |- context [save_report env dir ?x] =>
        destruct (save_report env dir x) as [path|e]
    end.
    + exists {| rd_success := ok; rd_test_report_path := Some path |}, [].
      rewrite app_nil_r. repeat split; auto; discriminate.
    + eexists _, _. split; [reflexivity|]. repeat split; try discriminate.
      right. split; [reflexivity | now exists e].
  - exists {| rd_success := ok; rd_test_report_path := None |}, [].
    rewrite app_nil_r. repeat split; auto.
Qed.

Ltac use_create :=
  match goal with
  | |- context [_create_test_result ?env ?b ?save ?dir ?x] =>
      let r := fresh "r" in
      let w := fresh "w" in
      let H := fresh "Hcreate" in
      destruct (create_test_result_run env b save dir x)
        as (r & w & H & ?Hsucc & ?Hwarn & ?Hpath);
      rewrite H; run_monad
  end.

Lemma validate_failure_has_errors env c :
  ir_success (_validate_pylabrobot_imports env c) = false ->
  ir_errors (_validate_pylabrobot_imports env c) <> [].
Proof.
  unfold _validate_pylabrobot_imports.
  destruct (ast_parse env c) as [tree|e]; [|discriminate].
  destruct (fold_left _ _ _) as [es ws]. cbn [ir_success ir_errors].
  destruct es; discriminate.
Qed.

Lemma execute_failure_has_errors env s t x :
  _execute_script_safely env s t = Ret x ->
  er_success x = false -> er_errors x <> [].
Proof.
  unfold _execute_script_safely.
  destruct (write_temp_script env s) as [p|e]; [|discriminate].
  intros H. injection H as <-.
  destruct (thread_join env p t) as [[|]|e]; try discriminate.
  destruct (tl_exception (target env p)); [discriminate|].
  destruct (tl_result (target env p)); discriminate.
Qed.

(** Resolving the input either hands over the source text, leaving the
    lists, the summary and the three stage flags as they were, or returns
    a failed result with an error recorded. *)
Lemma resolve_input_run env input save dir st :
  (exists c st1,
     resolve_input env input save dir st = (Ret (Continue c), st1)
     /\ st_errors st1 = st_errors st
     /\ st_warnings st1 = st_warnings st
     /\ st_stages st1 = st_stages st
     /\ st_execution_summary st1 = st_execution_summary st
     /\ syntax_valid (st_test_results st1) = syntax_valid (st_test_results st)
     /\ imports_valid (st_test_results st1)
        = imports_valid (st_test_results st)
     /\ simulation_successful (st_test_results st1)
        = simulation_successful (st_test_results st))
  \/ (exists r st1,
        resolve_input env input save dir st = (Ret (Return r), st1)
        /\ rd_success r = false
        /\ st_errors st1 <> []).
Proof.
  destruct st as [tr su er wa sg].
  unfold resolve_input. run_monad.
  destruct (endswith ".py" input).
  - destruct (os_path_isfile env input) as [[|]|e].
    + cbn [andb]. destruct (negb (contains nl_str (take 100 input))).
      * destruct (read_text env input) as [c|e].
        -- left. eexists _, _. split; [reflexivity|].
           repeat split; reflexivity.
        -- right. use_create. eexists _, _. split; [reflexivity|].
           split; [assumption|]. fields.
           apply app_not_nil_r. discriminate.
      * left. eexists _, _. split; [reflexivity|].
        repeat split; reflexivity.
    + cbn [andb]. left. eexists _, _. split; [reflexivity|].
      repeat split; reflexivity.
    + right. use_create. eexists _, _. split; [reflexivity|].
      split; [assumption|]. fields.
      apply app_not_nil_r. discriminate.
  - cbn [andb]. left. eexists _, _. split; [reflexivity|].
    repeat split; reflexivity.
Qed.

Lemma syntax_error_run env input tracking timeout save dir content st1 e :
  resolve_input env input save dir (initial_store tracking)
  = (Ret (Continue content), st1) ->
  strip content <> "" ->
  ast_parse env content = Raise e ->
  exn_cls e = SyntaxError ->
  exists r st',
    test_body env input tracking timeout save dir (initial_store tracking)
    = (Ret r, st')
    /\ rd_success r = false
    /\ syntax_valid (st_test_results st') = false
    /\ imports_valid (st_test_results st') = false
    /\ simulation_successful (st_test_results st') = false
    /\ st_errors st' = ["Syntax Error: " ++ exn_msg e ++ " at line "
                        ++ str_of_lineno (exn_lineno e)]
    /\ persist_warning save (st_warnings st')
    /\ st_execution_summary st'
       = stamp_total_time env
           (st_execution_summary (initial_store tracking))
    /\ st_stages st' = [StageSyntax; StageReport].
Proof.
  intros Hres Hne Hparse Hcls.
  destruct (resolve_input_run env input save dir (initial_store tracking))
    as [(c & s1 & Hr & He & Hw & Hs & Hsum & Hsyn & Himp & Hsim)
       |(r & s1 & Hr & _)];
    rewrite Hres in Hr; [|discriminate].
  injection Hr as <- <-.
  apply String.eqb_neq in Hne.
  destruct st1 as [tr su er wa sg].
  unfold initial_store in He, Hw, Hs, Hsum, Hsyn, Himp, Hsim.
  fields. subst er wa sg su.
  unfold test_body. unfold bind at 1. rewrite Hres, Hne.
  unfold run_stages. run_monad. rewrite Hparse, Hcls.
  change (exn_class_eqb SyntaxError SyntaxError) with true.
  cbv beta iota. use_create.
  eexists _, _. split; [reflexivity|]. fields.
  repeat (split; [assumption || reflexivity|]).
  reflexivity.
Qed.

(** C3, amended. A submission that resolves to a non-empty source text on
    which the parser raises [SyntaxError] yields a result with [success]
    and [syntax_valid] false and exactly one error: the text
    "Syntax Error: ", the message of the exception, " at line " and the
    decimal numeral of the line number the parser reports (the word None
    when it reports none). No later stage is entered: the import and
    simulation flags and the summary keep their initial values, and the
    only warning there can be is the one of a failed save of the report.
    The parser failing with an exception of another class is not covered:
    see [parse_failure_counterexample]. *)
Theorem syntax_error_aborts env input tracking timeout save dir content st1 e :
  resolve_input env input save dir (initial_store tracking)
  = (Ret (Continue content), st1) ->
  strip content <> "" ->
  ast_parse env content = Raise e ->
  exn_cls e = SyntaxError ->
  exists r,
    test_pylabrobot_script env input tracking timeout save dir = Ret r
    /\ success r = false
    /\ syntax_valid (test_results r) = false
    /\ imports_valid (test_results r) = false
    /\ simulation_successful (test_results r) = false
    /\ errors r = ["Syntax Error: " ++ exn_msg e ++ " at line "
                   ++ match exn_lineno e with
                      | Some n => NilZero.string_of_int (Z.to_int n)
                      | None => "None"
                      end]
    /\ persist_warning save (warnings r)
    /\ execution_summary r
       = stamp_total_time env
           (st_execution_summary (initial_store tracking))
    /\ stages_entered env input tracking timeout save dir
       = [StageSyntax; StageReport].
Proof.
  intros Hres Hne Hparse Hcls.
  destruct (syntax_error_run env input tracking timeout save dir content
              st1 e Hres Hne Hparse Hcls) as (r & st' & Hrun & H).
  unfold test_pylabrobot_script, stages_entered. rewrite Hrun.
  eexists. split; [reflexivity|]. fields. exact H.
Qed.

(** A parser failure of another class than [SyntaxError] reaches the outer
    handler: the stages stop all the same, and the error recorded is the
    one of that handler. *)
Lemma other_parse_failure env input tracking timeout save dir content st1 e :
  resolve_input env input save dir (initial_store tracking)
  = (Ret (Continue content), st1) ->
  strip content <> "" ->
  ast_parse env content = Raise e ->
  exn_class_eqb (exn_cls e) SyntaxError = false ->
  exists r,
    test_pylabrobot_script env input tracking timeout save dir = Ret r
    /\ success r = false
    /\ syntax_valid (test_results r) = false
    /\ errors r = ["Unexpected error during testing: " ++ exn_msg e]
    /\ stages_entered env input tracking timeout save dir
       = [StageSyntax; StageReport].
Proof.
  intros Hres Hne Hparse Hcls.
  destruct (resolve_input_run env input save dir (initial_store tracking))
    as [(c & s1 & Hr & He & Hw & Hs & Hsum & Hsyn & Himp & Hsim)
       |(r & s1 & Hr & _)];
    rewrite Hres in Hr; [|discriminate].
  injection Hr as <- <-.
  apply String.eqb_neq in Hne.
  destruct st1 as [tr su er wa sg].
  unfold initial_store in He, Hw, Hs, Hsum, Hsyn, Himp, Hsim.
  fields. subst er wa sg su.
  assert (Hrun : exists r st',
            test_body env input tracking timeout save dir
              (initial_store tracking) = (Ret r, st')
            /\ rd_success r = false
            /\ syntax_valid (st_test_results st') = false
            /\ st_errors st'
               = ["Unexpected error during testing: " ++ exn_msg e]
            /\ st_stages st' = [StageSyntax; StageReport]).
  { unfold test_body. unfold bind at 1. rewrite Hres, Hne.
    unfold run_stages. run_monad. rewrite Hparse, Hcls.
    cbv beta iota. fields. rewrite Hsyn. cbn [andb]. use_create.
    eexists _, _. split; [reflexivity|]. fields.
    repeat (split; [assumption || reflexivity|]). reflexivity. }
  destruct Hrun as (r & st' & Hrun & H).
  unfold test_pylabrobot_script, stages_entered. rewrite Hrun.
  eexists. split; [reflexivity|]. fields. exact H.
Qed.


Lemma stages_guarded env c tracking timeout save dir st :
  exists f st',
    try_except (run_stages env c tracking timeout save dir)
      (fun e =>
         errors_append ("Unexpected error during testing: " ++ exn_msg e) ;;;
         ret (Continue tt)) st
    = (Ret f, st')
    /\ match f with
       | Return r => rd_success r = false /\ st_errors st' <> []
       | Continue _ =>
           syntax_valid (st_test_results st')
           && imports_valid (st_test_results st')
           && simulation_successful (st_test_results st') = false ->
           st_errors st' <> []
       end.
Proof.
  destruct st as [tr su er wa sg].
  unfold run_stages. run_monad.
  destruct (ast_parse env c) as [tree|e].
  - pose proof (validate_failure_has_errors env c) as Hv.
    destruct (ir_success (_validate_pylabrobot_imports env c)) eqn:Hi;
      cbn [negb]; cbv beta iota;
      destruct (_execute_script_safely env
                  (_modify_script_for_testing c tracking) timeout)
        as [x|ex] eqn:Hexec; cbv beta iota;
      try (pose proof (execute_failure_has_errors env _ _ x Hexec) as Hx;
           destruct (er_success x); cbn [negb]; cbv beta iota);
      eexists _, _; (split; [reflexivity|]); fields; intros Hflags;
      try discriminate Hflags;
      first [ apply app_not_nil_r; solve [discriminate | auto]
            | apply app_not_nil_l; apply app_not_nil_r; solve [auto] ].
  - destruct (exn_class_eqb (exn_cls e) SyntaxError).
    + use_create. eexists _, _. split; [reflexivity|].
      split; [assumption|]. fields.
      apply app_not_nil_r. discriminate.
    + eexists _, _. split; [reflexivity|]. fields. intros _.
      apply app_not_nil_r. discriminate.
Qed.

(** Under the assumptions of [Pipeline], where every exception has a
    text, the call returns its result dictionary, and a failed validation
    has at least one entry in [errors]. *)
Lemma pipeline_returns env input tracking timeout save dir :
  exists r,
    test_pylabrobot_script env input tracking timeout save dir = Ret r
    /\ (success r = false -> errors r <> []).
Proof.
  unfold test_pylabrobot_script, test_body. unfold bind at 1.
  destruct (resolve_input_run env input save dir (initial_store tracking))
    as [(c & s1 & Hr & He & _)|(r & s1 & Hr & Hs & He)]; rewrite Hr.
  - destruct (strip c =? "").
    + destruct s1 as [tr su er wa sg]. run_monad. use_create.
      eexists. split; [reflexivity|]. fields.
      intros _. apply app_not_nil_r. discriminate.
    + unfold bind at 1.
      destruct (stages_guarded env c tracking timeout save dir s1)
        as (f & s2 & Hg & Hf). rewrite Hg.
      destruct f as [[]|r].
      * destruct s2 as [tr su er wa sg]. run_monad. use_create.
        eexists. split; [reflexivity|]. fields.
        rewrite Hsucc. exact Hf.
      * unfold ret. eexists. split; [reflexivity|]. fields. tauto.
  - unfold ret. eexists. split; [reflexivity|]. fields. tauto.
Qed.



Lemma syntax_error_aborts_witness :
  exists r,
    test_pylabrobot_script rejecting_env broken_script true 60 false None
    = Ret r
    /\ success r = false
    /\ syntax_valid (test_results r) = false
    /\ imports_valid (test_results r) = false
    /\ simulation_successful (test_results r) = false
    /\ errors r
       = ["Syntax Error: invalid syntax (<unknown>, line 1) at line 1"]
    /\ persist_warning false (warnings r)
    /\ execution_summary r
       = stamp_total_time rejecting_env
           (st_execution_summary (initial_store true))
    /\ stages_entered rejecting_env broken_script true 60 false None
       = [StageSyntax; StageReport].
Proof.
  eapply (syntax_error_aborts rejecting_env broken_script true 60 false None
            broken_script _ invalid_syntax).
  - vm_compute. reflexivity.
  - vm_compute. discriminate.
  - reflexivity.
  - reflexivity.
Defined.

(** C3 as worded fails: the parser can refuse a text with an exception of
    another class than [SyntaxError]. On a text that holds a null byte
    [ast.parse] raises [ValueError]; the handler of the syntax stage does
    not take it, and the one error of the result is that of the outer
    handler, which names no line and is no syntax error message. *)
Lemma parse_failure_counterexample :
  strip null_script <> ""
  /\ ast_parse null_env null_script = Raise null_bytes
  /\ exists r,
       test_pylabrobot_script null_env null_script true 60 false None
       = Ret r
       /\ success r = false
       /\ syntax_valid (test_results r) = false
       /\ errors r
          = ["Unexpected error during testing: "
             ++ "source code string cannot contain null bytes"]
       /\ ~ (exists text, errors r = ["Syntax Error: " ++ text]).
Proof.
  split; [vm_compute; discriminate|].
  split; [vm_compute; reflexivity|].
  eexists. split; [vm_compute; reflexivity|].
  split; [reflexivity|]. split; [reflexivity|].
  split; [reflexivity|].
  intros (text & H). cbn in H. discriminate H.
Qed.

(** With the temporary file written, the runner returns, and reports
    success exactly when the worker ended within the timeout and the
    monitored run came back with its result. *)
Lemma execute_success_iff env script timeout path :
  write_temp_script env script = Ret path ->
  exists x,
    _execute_script_safely env script timeout = Ret x
    /\ (er_success x = true
        <-> thread_join env path timeout = Ret false
            /\ exists r, _run_script_with_monitoring env path = Done r)
    /\ (er_success x = false -> er_errors x <> []).
Proof.
  intros Hw. unfold _execute_script_safely. rewrite Hw.
  eexists. split; [reflexivity|]. unfold target.
  destruct (thread_join env path timeout) as [[|]|e];
    try (split; [split; [discriminate | intros [H _]; discriminate]
                | discriminate]).
  destruct (_run_script_with_monitoring env path) as [r|e|];
    cbn [tl_exception tl_result er_success er_errors exec_failure].
  - split; [|discriminate]. split; [|reflexivity].
    intros _. split; [reflexivity | now exists r].
  - split; [|discriminate]. split; [discriminate|].
    intros [_ [r Hr]]. discriminate.
  - split; [|discriminate]. split; [discriminate|].
    intros [_ [r Hr]]. discriminate.
Qed.

(** C5, where the code departs from it. When the temporary script cannot
    be written, [_execute_script_safely] returns no dictionary at all: the
    [finally] clause reads the unbound [temp_script_path] and the
    [UnboundLocalError] escapes. *)
Theorem temp_file_failure_escapes env script timeout e :
  write_temp_script env script = Raise e ->
  _execute_script_safely env script timeout = Raise unbound_temp_script_path
  /\ forall x, _execute_script_safely env script timeout <> Ret x.
Proof.
  intros Hw. unfold _execute_script_safely. rewrite Hw.
  split; [reflexivity | discriminate].
Qed.

Lemma temp_file_failure_escapes_witness :
  _execute_script_safely no_temp_env script_with_class 60
  = Raise unbound_temp_script_path
  /\ forall x,
       _execute_script_safely no_temp_env script_with_class 60 <> Ret x.
Proof.
  apply (temp_file_failure_escapes no_temp_env script_with_class 60
           disk_full).
  reflexivity.
Defined.

(** C8. When saving the report fails, the failure is appended to the
    warnings the returned dictionary shows, the success flag is the one
    passed in, errors and stage flags are untouched, and no
    [test_report_path] is set. *)
Theorem save_failure_is_warning env ok dir st e :
  save_report env dir
    {| success := ok
     ; test_results := st_test_results st
     ; execution_summary := stamp_total_time env (st_execution_summary st)
     ; errors := st_errors st
     ; warnings := st_warnings st
     ; test_report_path := None |}
  = Raise e ->
  exists r st',
    _create_test_result env ok true dir st = (Ret r, st')
    /\ success (view r st') = ok
    /\ warnings (view r st')
       = app (st_warnings st)
           ["Failed to save test report: " ++ exn_msg e]
    /\ errors (view r st') = st_errors st
    /\ test_results (view r st') = st_test_results st
    /\ test_report_path (view r st') = None.
Proof.
  destruct st as [tr su er wa sg]. fields. intros Hsave.
  unfold _create_test_result. run_monad.
  unfold view at 1. fields. rewrite Hsave.
  eexists _, _. split; [reflexivity|]. fields. repeat split.
Qed.

Lemma save_failure_is_warning_witness :
  exists r st',
    _create_test_result no_report_env true true (Some "reports")
      (initial_store false) = (Ret r, st')
    /\ success (view r st') = true
    /\ warnings (view r st')
       = app (st_warnings (initial_store false))
           ["Failed to save test report: " ++ exn_msg disk_full]
    /\ errors (view r st') = st_errors (initial_store false)
    /\ test_results (view r st') = st_test_results (initial_store false)
    /\ test_report_path (view r st') = None.
Proof.
  apply (save_failure_is_warning no_report_env true (Some "reports")
           (initial_store false) disk_full).
  reflexivity.
Defined.
End PipelineSpec.

(* ================================================================== *)
(** ** The wetlab results store: properties *)
(* ================================================================== *)

Module WetlabSpec.
Import PyStr PyExn Wetlab WetlabReference Samples.

Section WithBuiltins.

Variable B : Builtins.

Lemma key_eqb_eq (a b : key) : key_eqb a b = true <-> a = b.
Proof.
  destruct a as [[[[e1 s1] a1] c1] r1], b as [[[[e2 s2] a2] c2] r2].
  unfold key_eqb. rewrite !andb_true_iff, !String.eqb_eq, Z.eqb_eq.
  split.
  - intros [[[[-> ->] ->] ->] ->]. reflexivity.
  - intros H. injection H as -> -> -> -> ->. repeat split.
Qed.

Lemma key_eqb_refl (a : key) : key_eqb a a = true.
Proof. now apply key_eqb_eq. Qed.

Lemma conflicts_key (v : upsert_values B) (r : row B) :
  conflicts B v r = key_eqb (row_key B r) (values_key B v).
Proof. reflexivity. Qed.

Lemma row_key_do_update (now : string) (v : upsert_values B) (r : row B) :
  row_key B (do_update B now v r) = row_key B r.
Proof. reflexivity. Qed.

Lemma row_key_new_row (now : string) (id : Z) (v : upsert_values B) :
  row_key B (new_row B now id v) = values_key B v.
Proof. reflexivity. Qed.

(** Under the UNIQUE constraint at most one row carries a given key. *)
Lemma filter_key_absent (k : key) (l : list (row B)) :
  ~ In k (map (row_key B) l) ->
  filter (fun r => key_eqb (row_key B r) k) l = [].
Proof.
  induction l as [|a l IH]; intros Hn; [reflexivity|].
  cbn [filter map In] in *. destruct (key_eqb (row_key B a) k) eqn:E.
  - apply key_eqb_eq in E. tauto.
  - apply IH. tauto.
Qed.

Lemma existsb_false_filter {A} (f : A -> bool) (l : list A) :
  existsb f l = false -> filter f l = [].
Proof.
  induction l as [|a l IH]; simpl; [reflexivity|].
  intros H. apply orb_false_iff in H as [Ha Hl]. rewrite Ha. now apply IH.
Qed.

Lemma existsb_false_not_in (k : key) (l : list (row B)) :
  existsb (fun r => key_eqb (row_key B r) k) l = false ->
  ~ In k (map (row_key B) l).
Proof.
  induction l as [|a l IH]; cbn [existsb map In]; [tauto|].
  intros H. apply orb_false_iff in H as [Ha Hl].
  intros [Hk|Hk].
  - apply key_eqb_eq in Hk. congruence.
  - now apply IH.
Qed.

(** DO UPDATE rewrites the one conflicting row and keeps every key. *)
Lemma update_conflicting (now : string) (v : upsert_values B)
    (l : list (row B)) :
  let g := fun r => if conflicts B v r then do_update B now v r else r in
  NoDup (map (row_key B) l) ->
  existsb (conflicts B v) l = true ->
  map (row_key B) (map g l) = map (row_key B) l
  /\ exists r0,
       filter (fun r => key_eqb (row_key B r) (values_key B v)) (map g l)
       = [do_update B now v r0].
Proof.
  intros g. induction l as [|a l IH]; intros Hnd Hex; [discriminate|].
  cbn [map existsb] in Hnd, Hex.
  inversion Hnd as [|? ? Hnotin Hnd']; subst.
  assert (Hkeys : forall l', map (row_key B) (map g l') = map (row_key B) l').
  { induction l' as [|b l' IH']; [reflexivity|].
    cbn [map]. rewrite IH'. f_equal. unfold g.
    destruct (conflicts B v b); reflexivity. }
  split; [apply Hkeys|].
  cbn [map filter]. unfold g at 1 2.
  destruct (conflicts B v a) eqn:Ea.
  - exists a. rewrite row_key_do_update.
    rewrite conflicts_key in Ea. rewrite Ea. f_equal.
    apply filter_key_absent. rewrite Hkeys.
    apply key_eqb_eq in Ea. now rewrite <- Ea.
  - rewrite conflicts_key in Ea. rewrite Ea.
    cbn [orb] in Hex.
    destruct (IH Hnd' Hex) as [_ [r0 Hr0]]. now exists r0.
Qed.

(** A statement that executes leaves exactly one row under the key of its
    values, holding their measurement, and keeps the constraint. *)
Lemma execute_upsert_row (now : string) (t t' : table B)
    (v : upsert_values B) :
  unique_keys B t ->
  execute_upsert B now t v = Ret t' ->
  unique_keys B t'
  /\ exists r,
       filter (fun r => key_eqb (row_key B r) (values_key B v)) (rows B t')
       = [r]
       /\ measurement_value B r = v_measurement_value B v.
Proof.
  unfold unique_keys, execute_upsert. intros Hu H.
  destruct (bind_values B (upsert_parameters B v)) as [[]|];
    [|discriminate].
  cbn [bind_outcome] in H.
  destruct (real_is_nan B (v_measurement_value B v)); [discriminate|].
  destruct (existsb (conflicts B v) (rows B t)) eqn:Ex;
    injection H as <-; cbn [rows].
  - destruct (update_conflicting now v (rows B t) Hu Ex) as [Hk [r0 Hr0]].
    split; [now rewrite Hk|]. exists (do_update B now v r0).
    split; [exact Hr0 | reflexivity].
  - assert (Hnot : ~ In (values_key B v) (map (row_key B) (rows B t))).
    { apply existsb_false_not_in. exact Ex. }
    split.
    + rewrite map_app. cbn [map]. rewrite row_key_new_row.
      apply NoDup_app; repeat split.
      * exact Hu.
      * constructor; [cbn [In]; tauto | constructor].
      * intros k Hin [<-|[]]. contradiction.
    + exists (new_row B now (last_result_id B t + 1) v).
      rewrite filter_app, (filter_key_absent _ _ Hnot). cbn [filter app].
      rewrite row_key_new_row, key_eqb_refl. split; reflexivity.
Qed.

(** Parameters bind when every text among them can be encoded and every
    integer has 64 bits. *)
Lemma bind_values_ok (l : list bound) :
  texts_bind B (bound_texts l) ->
  Forall (fun b => match b with
                   | BoundInt z => fits_int64 z = true
                   | _ => True
                   end) l ->
  bind_values B l = Ret tt.
Proof.
  unfold texts_bind.
  induction l as [|b l IH]; intros Ht Hi; [reflexivity|].
  inversion Hi as [|? ? Hb Hl]; subst.
  cbn [bind_values]. destruct b as [s|z|]; cbn [bind_value bound_texts
                                                 flat_map app] in *.
  - inversion Ht as [|? ? Hs Ht']; subst. rewrite Hs.
    cbn [bind_outcome]. now apply IH.
  - rewrite Hb. cbn [bind_outcome]. now apply IH.
  - cbn [bind_outcome]. now apply IH.
Qed.

Lemma upsert_parameters_bind (v : upsert_values B) :
  texts_bind B (bound_texts (upsert_parameters B v)) ->
  fits_int64 (v_replicate B v) = true ->
  bind_values B (upsert_parameters B v) = Ret tt.
Proof.
  intros Ht Hf. apply bind_values_ok; [exact Ht|].
  unfold upsert_parameters, bound_optional.
  destruct (v_operator B v), (v_instrument B v), (v_notes B v);
    repeat constructor; exact Hf.
Qed.

Lemma execute_upsert_succeeds (now : string) (t : table B)
    (v : upsert_values B) :
  bind_values B (upsert_parameters B v) = Ret tt ->
  real_is_nan B (v_measurement_value B v) = false ->
  exists t', execute_upsert B now t v = Ret t'.
Proof.
  intros Hf Hn. unfold execute_upsert. rewrite Hf, Hn. cbn [bind_outcome].
  destruct (existsb (conflicts B v) (rows B t)); eexists; reflexivity.
Qed.


Lemma forallb_filter_negb {A} (f : A -> bool) (l : list A) :
  forallb f l = true -> filter (fun a => negb (f a)) l = [].
Proof.
  induction l as [|a l IH]; cbn [forallb filter]; [reflexivity|].
  intros H. apply andb_true_iff in H as [Ha Hl]. rewrite Ha. now apply IH.
Qed.

Lemma build_values_ok (d : dict B) (rp mv : value B) (z : Z) (x : real B) :
  complete B d = true ->
  dict_get B "replicate" d = Some rp -> py_int B rp = Ret z ->
  dict_get B "measurement_value" d = Some mv -> py_float B mv = Ret x ->
  exists v,
    build_values B d = Ret v
    /\ record_key B d = Some (values_key B v)
    /\ v_replicate B v = z
    /\ v_measurement_value B v = x.
Proof.
  intros Hc Hrp Hz Hmv Hx.
  unfold complete in Hc.
  cbn [forallb _WETLAB_REQUIRED_RECORD_FIELDS] in Hc.
  unfold dict_mem in Hc. rewrite Hrp, Hmv in Hc.
  destruct (dict_get B "experiment_id" d) as [e|] eqn:He; [|discriminate].
  destruct (dict_get B "sample_id" d) as [s|] eqn:Hs; [|discriminate].
  destruct (dict_get B "assay_name" d) as [a|] eqn:Ha; [|discriminate].
  destruct (dict_get B "condition" d) as [c|] eqn:Hcd; [|discriminate].
  destruct (dict_get B "measurement_unit" d) as [u|] eqn:Hu;
    [|discriminate].
  destruct (dict_get B "measured_at" d) as [m|] eqn:Hm;
    [|cbn in Hc; discriminate].
  unfold build_values, dict_item, record_key.
  rewrite He, Hs, Ha, Hcd, Hrp, Hmv, Hu, Hm. cbn [bind_outcome].
  rewrite Hz, Hx. cbn [bind_outcome].
  eexists. split; [reflexivity|]. repeat split.
Qed.

(** A turn of the loop keeps the constraint, whatever the record. *)
Lemma upsert_step_unique (now : string) (idx : nat) (record : pyobj B)
    (l : upsert_loop B) :
  unique_keys B (ul_table B l) ->
  unique_keys B (ul_table B (upsert_step B now idx record l)).
Proof.
  intros Hu. unfold upsert_step.
  destruct record as [|d]; [exact Hu|].
  destruct (filter _ _WETLAB_REQUIRED_RECORD_FIELDS); [|exact Hu].
  destruct (build_values B d) as [v|e]; cbn [bind_outcome]; [|exact Hu].
  destruct (execute_upsert B now (ul_table B l) v) as [t'|e] eqn:E;
    [|exact Hu].
  cbn [ul_table]. now destruct (execute_upsert_row now _ _ v Hu E).
Qed.

(** A turn of the loop on a complete record whose values can be bound
    stores them under the key of the record. *)
Lemma upsert_step_stores (now : string) (idx : nat) (d : dict B)
    (l : upsert_loop B) :
  complete B d = true -> bindable B d ->
  unique_keys B (ul_table B l) ->
  exists k r mv,
    record_key B d = Some k
    /\ filter (fun r => key_eqb (row_key B r) k)
         (rows B (ul_table B (upsert_step B now idx (Dict B d) l))) = [r]
    /\ dict_get B "measurement_value" d = Some mv
    /\ py_float B mv = Ret (measurement_value B r).
Proof.
  intros Hc [(rp & z & mv & x & Hrp & Hz & Hfit & Hmv & Hx & Hnan) Htexts]
    Hu.
  destruct (build_values_ok d rp mv z x Hc Hrp Hz Hmv Hx)
    as (v & Hv & Hk & Hvz & Hvx).
  subst z x. unfold record_texts in Htexts. rewrite Hv in Htexts.
  destruct (execute_upsert_succeeds now (ul_table B l) v
              (upsert_parameters_bind v Htexts Hfit) Hnan)
    as [t' Ht'].
  destruct (execute_upsert_row now _ _ v Hu Ht') as [_ (r & Hr & Hm)].
  exists (values_key B v), r, mv.
  split; [exact Hk|]. split; [|split; [exact Hmv | now rewrite Hm]].
  unfold upsert_step. unfold complete in Hc.
  rewrite (forallb_filter_negb _ _ Hc), Hv. cbn [bind_outcome].
  rewrite Ht'. exact Hr.
Qed.

Lemma ensure_unique (db : database B) :
  well_formed B db -> unique_keys B (_ensure_wetlab_table B db).
Proof.
  destruct db as [t|]; [tauto|]. intros _. constructor.
Qed.

(** One call with one record, on a database that opens. *)
Lemma upsert_one (now db_path : string) (record : pyobj B)
    (db : database B) :
  _connect_wetlab_db B db_path = Ret tt ->
  fst (upsert_wetlab_results B now db_path [record] db)
  = Some (ul_table B
            (upsert_step B now 1 record
               {| ul_table := _ensure_wetlab_table B db
                ; ul_success_count := 0
                ; ul_error_details := [] |})).
Proof.
  intros Hc. unfold upsert_wetlab_results. now rewrite Hc.
Qed.

(** C9, amended. On a database that opens and obeys its UNIQUE
    constraint, upserting a record and then a complete record whose
    replicate converts to an integer of 64 bits, whose measurement
    value converts to a number other than NaN and whose texts can all be
    encoded for binding leaves exactly one row under the key of that
    record, holding the measurement value of the second upsert. *)
Theorem second_upsert_stored (now1 now2 db_path : string) (d1 d2 : dict B)
    (db : database B) :
  well_formed B db ->
  _connect_wetlab_db B db_path = Ret tt ->
  complete B d2 = true ->
  bindable B d2 ->
  second_upsert_wins B now1 now2 db_path d1 d2 db.
Proof.
  intros Hwf Hc Hcomplete Hbind.
  unfold second_upsert_wins, upsert_twice.
  rewrite (upsert_one now1 db_path (Dict B d1) db Hc).
  rewrite (upsert_one now2 db_path (Dict B d2) _ Hc).
  cbn [_ensure_wetlab_table].
  pose proof (upsert_step_unique now1 1 (Dict B d1)
                {| ul_table := _ensure_wetlab_table B db
                 ; ul_success_count := 0
                 ; ul_error_details := [] |} (ensure_unique db Hwf)) as Hu1.
  destruct (upsert_step_stores now2 1 d2
              {| ul_table :=
                   ul_table B
                     (upsert_step B now1 1 (Dict B d1)
                        {| ul_table := _ensure_wetlab_table B db
                         ; ul_success_count := 0
                         ; ul_error_details := [] |})
               ; ul_success_count := 0
               ; ul_error_details := [] |} Hcomplete Hbind Hu1)
    as (k & r & mv & Hk & Hr & Hmv & Hf).
  exists r, mv. unfold stored_for. rewrite Hk.
  split; [exact Hr | split; assumption].
Qed.

(** *** Queries *)





(** With no filter, a limit that converts and a database that opens, the
    query completes. *)
Lemma query_completes (db_path : string) (limit : value B)
    (db : database B) (n : Z) :
  py_int B limit = Ret n ->
  _connect_wetlab_db B db_path = Ret tt ->
  fits_int64 (Z.max 1 n) = true ->
  exists total returned,
    query_wetlab_results B db_path None limit db
    = (Some (_ensure_wetlab_table B db),
       QueryCompleted B total (Z.max 1 n) returned).
Proof.
  intros Hn Hc Hf. unfold query_wetlab_results.
  cbn [dict_keys map filter]. rewrite Hn, Hc.
  cbn [field_conditions _WETLAB_QUERYABLE_FIELDS dict_get bind_outcome].
  unfold range_values, range_bound.
  cbn [field_values _WETLAB_QUERYABLE_FIELDS dict_get app bind_values].
  rewrite Hf. eexists _, _. reflexivity.
Qed.

End WithBuiltins.

Lemma second_upsert_stored_witness :
  second_upsert_wins sample_builtins "t1" "t2" "lab.db"
    (sample_record (SInt 1)) (sample_record (SInt 5)) None.
Proof.
  apply (second_upsert_stored sample_builtins "t1" "t2" "lab.db"
           (sample_record (SInt 1)) (sample_record (SInt 5)) None).
  - exact I.
  - reflexivity.
  - reflexivity.
  - split; [exists (SInt 2), 2%Z, (SInt 5), 5%Z; repeat split|].
    apply Forall_forall. intros s _. reflexivity.
Defined.

(** C9 as worded fails: a record can hold every required field and
    still not convert. Here the second record, complete and equal in key
    to the first, carries [None] as its measurement value; the upsert of
    it is refused and the row keeps the value of the first. *)
Lemma second_upsert_counterexample :
  complete sample_builtins (sample_record (SInt 1)) = true
  /\ complete sample_builtins (sample_record SNone) = true
  /\ same_key sample_builtins (sample_record (SInt 1)) (sample_record SNone)
  /\ dict_get sample_builtins "measurement_value" (sample_record (SInt 1))
     <> dict_get sample_builtins "measurement_value" (sample_record SNone)
  /\ map (measurement_value sample_builtins)
       (stored_for sample_builtins (sample_record SNone)
          (upsert_twice sample_builtins "t1" "t2" "lab.db"
             (sample_record (SInt 1)) (sample_record SNone) None))
     = [1%Z]
  /\ ~ second_upsert_wins sample_builtins "t1" "t2" "lab.db"
         (sample_record (SInt 1)) (sample_record SNone) None.
Proof.
  split; [reflexivity|]. split; [reflexivity|].
  split; [intros f Hf; cbn in Hf;
          repeat (destruct Hf as [<-|Hf]; [reflexivity|]); destruct Hf|].
  split; [discriminate|]. split; [reflexivity|].
  intros (r & v & _ & Hv & Hf).
  injection Hv as <-. discriminate Hf.
Qed.



End WetlabSpec.

(* ================================================================== *)
(** ** The script transformer: what it keeps *)
(* ================================================================== *)

Module TransformerMoreSpec.
Import PyStr PyStrFacts Transformer Reference Samples TransformerSpec.

Lemma split_single (sep : ascii) (a : string) :
  mem_char sep a = false -> split sep a = [a].
Proof.
  induction a as [|c a IH]; intros H; [reflexivity|].
  cbn [mem_char] in H. apply orb_false_iff in H as [Hc Ha].
  cbn [split]. rewrite Ascii.eqb_sym, Hc. now rewrite (IH Ha).
Qed.

Lemma split_app_sep (sep : ascii) (a b : string) :
  mem_char sep a = false ->
  split sep (a ++ String sep b) = a :: split sep b.
Proof.
  induction a as [|c a IH]; intros H.
  - change ("" ++ String sep b) with (String sep b).
    cbn [split]. now rewrite Ascii.eqb_refl.
  - cbn [mem_char] in H. apply orb_false_iff in H as [Hc Ha].
    change (String c a ++ String sep b) with (String c (a ++ String sep b)).
    cbn [split]. rewrite Ascii.eqb_sym, Hc. now rewrite (IH Ha).
Qed.

(** No piece of a split text holds the separator. *)
Lemma split_no_sep (sep : ascii) (s : string) :
  Forall (fun l => mem_char sep l = false) (split sep s).
Proof.
  induction s as [|c s IH]; [repeat constructor|].
  cbn [split]. destruct (Ascii.eqb c sep) eqn:E.
  - constructor; [reflexivity | exact IH].
  - pose proof (split_not_nil sep s) as Hne.
    destruct (split sep s) as [|h t]; [contradiction|].
    inversion IH as [|? ? Hh Ht]; subst.
    constructor; [|exact Ht].
    cbn [mem_char]. rewrite Ascii.eqb_sym, E. exact Hh.
Qed.

(** Splitting what [join] made of separator-free lines restores them. *)
Lemma split_join (sep : ascii) (ls : list string) :
  ls <> [] ->
  Forall (fun l => mem_char sep l = false) ls ->
  split sep (join (String sep "") ls) = ls.
Proof.
  unfold join. induction ls as [|x ls IH]; intros Hne H; [contradiction|].
  inversion H as [|? ? Hx Hls]; subst.
  destruct ls as [|y ls].
  - cbn [String.concat]. now apply split_single.
  - rewrite concat_cons_cons.
    change (x ++ String sep "" ++ String.concat (String sep "") (y :: ls))
      with (x ++ String sep (String.concat (String sep "") (y :: ls))).
    rewrite split_app_sep by assumption.
    f_equal. apply IH; [discriminate | assumption].
Qed.

(** The second loop stops at the first entry line, and leaves 0 when
    there is none. *)
Lemma scan_insert_index_spec (lines : list string) (i : nat) :
  (exists m1 d m2,
     lines = (m1 ++ d :: m2)%list
     /\ Forall (fun l => entry_line l = false) m1
     /\ entry_line d = true
     /\ scan_insert_index lines i = i + List.length m1)
  \/ (Forall (fun l => entry_line l = false) lines
      /\ scan_insert_index lines i = 0).
Proof.
  revert i. induction lines as [|l lines IH]; intros i.
  - right. split; [constructor | reflexivity].
  - cbn [scan_insert_index]. destruct (entry_line l) eqn:E.
    + left. exists [], l, lines. cbn [app List.length].
      repeat split; [constructor | exact E | lia].
    + destruct (IH (S i)) as [(m1 & d & m2 & -> & Hm1 & Hd & Hi)|[Hall Hi]].
      * left. exists (l :: m1), d, m2. cbn [app List.length].
        repeat split; [now constructor | exact Hd | lia].
      * right. split; [now constructor | exact Hi].
Qed.

(** X1. The transformer only inserts. The lines of the result are those of
    the script after the backend replacement, in their order, with the
    import line put in once and the tracking snippet once. The import line
    goes immediately before the first definition line (no line before it
    is one), and after the last line when no line is one; the snippet
    goes immediately before the first entry line, and to the very top
    when no line is one. *)
Theorem transformer_only_inserts (script : string) (enable_tracking : bool) :
  exists l1 l2 m1 d m2,
    split nl (apply_replacements script) = (l1 ++ l2)%list
    /\ Forall (fun l => definition_line l = false) l1
    /\ (l2 = []
        \/ exists first rest,
             l2 = first :: rest /\ definition_line first = true)
    /\ (l1 ++ backend_import :: l2 = m1 ++ d :: m2)%list
    /\ _modify_script_for_testing script enable_tracking
       = join nl_str (m1 ++ tracking_setup enable_tracking :: d :: m2)
    /\ Forall (fun l => entry_line l = false) m1
    /\ (entry_line d = true
        \/ m1 = [] /\ Forall (fun l => entry_line l = false) (d :: m2)).
Proof.
  set (lines := split nl (apply_replacements script)).
  exists (leading_lines lines), (from_definition lines).
  assert (Hins : insert_backend_import (apply_replacements script)
                 = join nl_str
                     (leading_lines lines
                      ++ backend_import :: from_definition lines)).
  { unfold insert_backend_import. fold lines.
    rewrite scan_insert_at_first_definition.
    rewrite (split_lines lines) at 2. now rewrite list_insert_app. }
  assert (Hsplit : split nl (insert_backend_import
                               (apply_replacements script))
                   = (leading_lines lines
                      ++ backend_import :: from_definition lines)%list).
  { rewrite Hins. unfold nl_str. apply split_join.
    - destruct (leading_lines lines); discriminate.
    - pose proof (split_no_sep nl (apply_replacements script)) as Hno.
      fold lines in Hno. rewrite (split_lines lines) in Hno.
      apply Forall_app in Hno as [H1 H2].
      apply Forall_app. split; [exact H1|].
      constructor; [reflexivity | exact H2]. }
  unfold _modify_script_for_testing, insert_tracking. rewrite Hsplit.
  set (L := (leading_lines lines
             ++ backend_import :: from_definition lines)%list).
  destruct (scan_insert_index_spec L 0)
    as [(m1 & d & m2 & HL & Hm1 & Hd & Hi)|[Hall Hi]].
  - exists m1, d, m2. rewrite Hi, HL. cbn [Nat.add].
    rewrite list_insert_app.
    split; [apply split_lines|].
    split; [apply leading_lines_no_definition|].
    split; [apply from_definition_head|]. split; [reflexivity|].
    split; [reflexivity|]. split; [exact Hm1 | now left].
  - assert (HL : exists d m2, L = d :: m2).
    { unfold L. destruct (leading_lines lines); cbn [app]; eauto. }
    destruct HL as (d & m2 & HL).
    exists [], d, m2. rewrite Hi. rewrite HL in Hall |- *.
    split; [apply split_lines|].
    split; [apply leading_lines_no_definition|].
    split; [apply from_definition_head|]. split; [reflexivity|].
    split; [reflexivity|]. split; [constructor | right; now split].
Qed.

Lemma entry_is_definition (line : string) :
  entry_line line = true -> definition_line line = true.
Proof.
  unfold entry_line, definition_line, startswith_any.
  cbn [existsb]. intros H.
  apply orb_true_iff in H as [H|H];
    [apply orb_true_iff in H as [H|H]|]; rewrite H;
    rewrite ?orb_true_r; reflexivity.
Qed.

Lemma join_cons (sep x : string) (ls : list string) :
  ls <> [] -> join sep (x :: ls) = x ++ sep ++ join sep ls.
Proof. destruct ls; [contradiction | reflexivity]. Qed.

Lemma append_assoc (a b c : string) : (a ++ b) ++ c = a ++ b ++ c.
Proof.
  induction a as [|x a IH]; [reflexivity|].
  cbn [append]. now rewrite IH.
Qed.

Lemma join_snoc (sep y : string) (ls : list string) :
  ls <> [] -> join sep (ls ++ [y]) = join sep ls ++ sep ++ y.
Proof.
  induction ls as [|x ls IH]; intros Hne; [contradiction|].
  destruct ls as [|z ls]; [reflexivity|].
  change ((x :: z :: ls) ++ [y])%list with (x :: (z :: ls) ++ [y])%list.
  rewrite join_cons by discriminate.
  rewrite IH by discriminate.
  rewrite (join_cons sep x (z :: ls)) by discriminate.
  now rewrite !append_assoc.
Qed.

Lemma leading_all (lines : list string) :
  Forall (fun l => definition_line l = false) lines ->
  leading_lines lines = lines /\ from_definition lines = [].
Proof.
  induction 1 as [|l lines Hl _ [IH1 IH2]]; [split; reflexivity|].
  cbn [leading_lines from_definition]. rewrite Hl.
  split; [now rewrite IH1 | exact IH2].
Qed.

(** X2. A script with no definition line at all gets the tracking snippet in
    front of its first line and the import statement after its last
    one. *)
Theorem flat_script_import_comes_last (script : string)
    (enable_tracking : bool) :
  Forall (fun l => definition_line l = false)
    (split nl (apply_replacements script)) ->
  _modify_script_for_testing script enable_tracking
  = tracking_setup enable_tracking ++ nl_str
    ++ apply_replacements script ++ nl_str ++ backend_import.
Proof.
  intros Hflat.
  set (lines := split nl (apply_replacements script)) in *.
  destruct (leading_all lines Hflat) as [Hlead Hfrom].
  assert (Hne : lines <> []) by apply split_not_nil.
  assert (Hins : insert_backend_import (apply_replacements script)
                 = join nl_str (lines ++ [backend_import])).
  { unfold insert_backend_import. fold lines.
    rewrite scan_insert_at_first_definition, Hlead.
    rewrite <- (app_nil_r lines) at 2. now rewrite list_insert_app. }
  assert (Hno : Forall (fun l => mem_char nl l = false)
                  (lines ++ [backend_import])).
  { apply Forall_app. split; [apply split_no_sep|].
    constructor; [reflexivity | constructor]. }
  assert (Hentry : Forall (fun l => entry_line l = false)
                     (lines ++ [backend_import])).
  { apply Forall_app. split.
    - eapply Forall_impl; [|exact Hflat]. cbv beta. intros l Hl.
      destruct (entry_line l) eqn:E; [|reflexivity].
      apply entry_is_definition in E. congruence.
    - constructor; [reflexivity | constructor]. }
  unfold _modify_script_for_testing, insert_tracking.
  assert (Hsplit : split nl (join nl_str (lines ++ [backend_import]))
                   = (lines ++ [backend_import])%list).
  { unfold nl_str. apply split_join; [|exact Hno].
    intros H. apply app_eq_nil in H as [_ H]. discriminate. }
  rewrite Hins, Hsplit.
  destruct (scan_insert_index_spec (lines ++ [backend_import]) 0)
    as [(m1 & d & m2 & HL & Hm1 & Hd & Hi)|[_ Hi]].
  - exfalso. rewrite HL in Hentry.
    apply Forall_app in Hentry as [_ Hentry].
    inversion Hentry; subst. congruence.
  - rewrite Hi. unfold list_insert. cbn [firstn skipn].
    change ([] ++ tracking_setup enable_tracking
                  :: lines ++ [backend_import])%list
      with (tracking_setup enable_tracking
              :: lines ++ [backend_import])%list.
    rewrite join_cons
      by (intros H; apply app_eq_nil in H as [_ H]; discriminate).
    rewrite join_snoc by exact Hne.
    unfold lines, nl_str. now rewrite join_split.
Qed.

Lemma no_definition_line (lines : list string) :
  forallb (fun l => negb (definition_line l)) lines = true ->
  Forall (fun l => definition_line l = false) lines.
Proof.
  intros H. apply Forall_forall. intros l Hl.
  apply negb_true_iff. revert l Hl. now apply forallb_forall.
Qed.

Lemma flat_script_import_comes_last_witness :
  _modify_script_for_testing script_with_backend false
  = tracking_setup false ++ nl_str
    ++ apply_replacements script_with_backend ++ nl_str ++ backend_import.
Proof.
  apply (flat_script_import_comes_last script_with_backend false).
  apply no_definition_line. vm_compute. reflexivity.
Defined.

Lemma absent_not_prefix (p s : string) :
  contains p s = false -> prefix p s = false.
Proof.
  destruct s; cbn [contains]; intros H;
    now apply orb_false_iff in H as [H _].
Qed.

Lemma replace_go_absent (old new s : string) :
  contains old s = false -> replace_go old new 0 s = s.
Proof.
  induction s as [|c s IH]; intros H; [reflexivity|].
  rewrite replace_go_cons, (absent_not_prefix _ _ H).
  change (contains old (String c s))
    with (prefix old (String c s) || contains old s) in H.
  apply orb_false_iff in H as [_ H]. now rewrite IH.
Qed.

Lemma occurrences_zero_absent (p s : string) :
  occurrences p s = 0 -> contains p s = false.
Proof.
  induction s as [|c s IH]; intros H.
  - cbn [occurrences contains] in *.
    destruct (prefix p ""); [discriminate | reflexivity].
  - rewrite occurrences_cons in H.
    change (contains p (String c s))
      with (prefix p (String c s) || contains p s).
    destruct (prefix p (String c s)); [discriminate|].
    cbn [orb]. apply IH. lia.
Qed.

(** X3. The backend replacement leaves a script without [STARBackend()] as it
    is, and so does nothing when run a second time. *)
Theorem backend_replacement_stable (script : string) :
  (contains hardware_backend script = false ->
   apply_replacements script = script)
  /\ apply_replacements (apply_replacements script)
     = apply_replacements script.
Proof.
  assert (H : forall s, contains hardware_backend s = false ->
                        apply_replacements s = s).
  { intros s Hs. rewrite apply_replacements_eq.
    now apply replace_go_absent. }
  split; [apply H|].
  apply H, occurrences_zero_absent, hardware_backend_gone.
Qed.

End TransformerMoreSpec.

(* ================================================================== *)
(** ** The validation pipeline: further properties *)
(* ================================================================== *)

Module PipelineMoreSpec.
Import PyStr PyStrFacts PyExn Transformer Pipeline PipelineReference
  Samples PipelineSpec PipelineMore.

(** X4. An empty submission, inline or read from a file, is refused before
    any stage: the result fails with the one error "Script content is
    empty" and only the report is made. *)
Theorem empty_submission_rejected env input tracking timeout save dir
    content st1 :
  resolve_input env input save dir (initial_store tracking)
  = (Ret (Continue content), st1) ->
  strip content = "" ->
  exists r,
    test_pylabrobot_script env input tracking timeout save dir = Ret r
    /\ success r = false
    /\ errors r = ["Script content is empty"]
    /\ syntax_valid (test_results r) = false
    /\ imports_valid (test_results r) = false
    /\ simulation_successful (test_results r) = false
    /\ stages_entered env input tracking timeout save dir = [StageReport].
Proof.
  intros Hres Hempty.
  destruct (resolve_input_run env input save dir (initial_store tracking))
    as [(c & s1 & Hr & He & Hw & Hs & Hsum & Hsyn & Himp & Hsim)
       |(r & s1 & Hr & _)];
    rewrite Hres in Hr; [|discriminate].
  injection Hr as <- <-.
  apply String.eqb_eq in Hempty.
  destruct st1 as [tr su er wa sg].
  unfold initial_store in He, Hw, Hs, Hsum, Hsyn, Himp, Hsim.
  fields. subst er wa sg su.
  assert (Hrun : exists r st',
            test_body env input tracking timeout save dir
              (initial_store tracking) = (Ret r, st')
            /\ rd_success r = false
            /\ st_errors st' = ["Script content is empty"]
            /\ syntax_valid (st_test_results st') = false
            /\ imports_valid (st_test_results st') = false
            /\ simulation_successful (st_test_results st') = false
            /\ st_stages st' = [StageReport]).
  { unfold test_body. unfold bind at 1. rewrite Hres, Hempty.
    run_monad. use_create.
    eexists _, _. split; [reflexivity|]. fields.
    repeat (split; [assumption || reflexivity|]). reflexivity. }
  destruct Hrun as (r & st' & Hrun & H).
  unfold test_pylabrobot_script, stages_entered. rewrite Hrun.
  eexists. split; [reflexivity|]. fields. exact H.
Qed.

(** X5. A path that exists and cannot be read ends the call at once: one
    error naming the file, no stage flag set, no input type recorded. *)
Theorem unreadable_file_rejected env input tracking timeout save dir e :
  endswith ".py" input = true ->
  os_path_isfile env input = Ret true ->
  contains nl_str (take 100 input) = false ->
  read_text env input = Raise e ->
  exists r,
    test_pylabrobot_script env input tracking timeout save dir = Ret r
    /\ success r = false
    /\ errors r = ["Failed to read script file '" ++ input ++ "': "
                   ++ exn_msg e]
    /\ input_type (test_results r) = None
    /\ syntax_valid (test_results r) = false
    /\ stages_entered env input tracking timeout save dir = [StageReport].
Proof.
  intros Hpy Hfile Hnl Hread.
  assert (Hrun : exists r st',
            test_body env input tracking timeout save dir
              (initial_store tracking) = (Ret r, st')
            /\ rd_success r = false
            /\ st_errors st'
               = ["Failed to read script file '" ++ input ++ "': "
                  ++ exn_msg e]
            /\ input_type (st_test_results st') = None
            /\ syntax_valid (st_test_results st') = false
            /\ st_stages st' = [StageReport]).
  { unfold test_body, resolve_input, initial_store. run_monad.
    rewrite Hpy, Hfile, Hnl. cbn [andb negb]. rewrite Hread.
    cbv beta iota. use_create.
    eexists _, _. split; [reflexivity|]. fields.
    repeat (split; [assumption || reflexivity|]). reflexivity. }
  destruct Hrun as (r & st' & Hrun & H).
  unfold test_pylabrobot_script, stages_entered. rewrite Hrun.
  eexists. split; [reflexivity|]. fields. exact H.
Qed.



(** Resolving the input either hands over the source text and records the
    kind of input, or returns a failed result after the report stage. *)
Lemma resolve_input_cases env input save dir tr su er wa sg :
  (exists c it fp,
     resolve_input env input save dir
       {| st_test_results := tr; st_execution_summary := su
        ; st_errors := er; st_warnings := wa; st_stages := sg |}
     = (Ret (Continue c),
        {| st_test_results :=
             {| syntax_valid := syntax_valid tr
              ; imports_valid := imports_valid tr
              ; simulation_successful := simulation_successful tr
              ; tracking_enabled := tracking_enabled tr
              ; input_type := it; file_path := fp |}
         ; st_execution_summary := su
         ; st_errors := er; st_warnings := wa; st_stages := sg |}))
  \/ (exists r st1,
        resolve_input env input save dir
          {| st_test_results := tr; st_execution_summary := su
           ; st_errors := er; st_warnings := wa; st_stages := sg |}
        = (Ret (Return r), st1)
        /\ rd_success r = false
        /\ st_test_results st1 = tr
        /\ st_execution_summary st1 = stamp_total_time env su
        /\ st_stages st1 = (sg ++ [StageReport])%list).
Proof.
  unfold resolve_input. run_monad.
  destruct (endswith ".py" input).
  - destruct (os_path_isfile env input) as [[|]|e].
    + cbn [andb]. destruct (negb (contains nl_str (take 100 input))).
      * destruct (read_text env input) as [c|e].
        -- left. eexists _, _, _. reflexivity.
        -- right. use_create. eexists _, _. split; [reflexivity|].
           fields. repeat split; assumption || reflexivity.
      * left. eexists _, _, _. reflexivity.
    + cbn [andb]. left. eexists _, _, _. reflexivity.
    + right. use_create. eexists _, _. split; [reflexivity|].
      fields. repeat split; assumption || reflexivity.
  - cbn [andb]. left. eexists _, _, _. reflexivity.
Qed.



Lemma empty_submission_rejected_witness :
  exists r,
    test_pylabrobot_script quiet_env "   " true 60 false None = Ret r
    /\ success r = false
    /\ errors r = ["Script content is empty"]
    /\ syntax_valid (test_results r) = false
    /\ imports_valid (test_results r) = false
    /\ simulation_successful (test_results r) = false
    /\ stages_entered quiet_env "   " true 60 false None = [StageReport].
Proof.
  eapply (empty_submission_rejected quiet_env "   " true 60 false None
            "   ").
  - vm_compute. reflexivity.
  - vm_compute. reflexivity.
Defined.

Lemma unreadable_file_rejected_witness :
  exists r,
    test_pylabrobot_script unreadable_env "protocol.py" true 60 false None
    = Ret r
    /\ success r = false
    /\ errors r = ["Failed to read script file '" ++ "protocol.py" ++ "': "
                   ++ exn_msg permission_denied]
    /\ input_type (test_results r) = None
    /\ syntax_valid (test_results r) = false
    /\ stages_entered unreadable_env "protocol.py" true 60 false None
       = [StageReport].
Proof.
  apply (unreadable_file_rejected unreadable_env "protocol.py" true 60 false
           None permission_denied).
  - vm_compute. reflexivity.
  - reflexivity.
  - vm_compute. reflexivity.
  - reflexivity.
Defined.



Lemma prefix_app_l (p s x : string) :
  prefix p s = true -> prefix p (s ++ x) = true.
Proof.
  revert s. induction p as [|a p IH]; intros s H; [apply prefix_nil_l|].
  destruct s as [|c s]; [discriminate|].
  change (String c s ++ x) with (String c (s ++ x)).
  rewrite prefix_cons in H |- *.
  apply andb_true_iff in H as [-> H]. now rewrite IH.
Qed.

Lemma contains_app_l (p s x : string) :
  contains p s = true -> contains p (s ++ x) = true.
Proof.
  induction s as [|c s IH]; intros H.
  - destruct p; [|discriminate].
    destruct x; reflexivity.
  - change (contains p (String c s))
      with (prefix p (String c s) || contains p s) in H.
    change (String c s ++ x) with (String c (s ++ x)).
    change (contains p (String c (s ++ x)))
      with (prefix p (String c (s ++ x)) || contains p (s ++ x)).
    apply orb_true_iff in H as [H|H]; apply orb_true_iff.
    + left. now apply (prefix_app_l p (String c s) x).
    + right. now apply IH.
Qed.

Lemma collected_imports_name_library (nodes : list ast_node) (n : string) :
  In n (collect_imports nodes) -> contains "pylabrobot" n = true.
Proof.
  unfold collect_imports. rewrite in_flat_map.
  intros (node & _ & Hn). destruct node as [names|[m|] names|].
  - now apply filter_In in Hn as [_ Hn].
  - destruct (negb (m =? "") && contains "pylabrobot" m) eqn:E;
      [|contradiction].
    apply andb_true_iff in E as [_ E].
    apply in_map_iff in Hn as (a & <- & _).
    now apply contains_app_l.
  - contradiction.
  - contradiction.
Qed.

Lemma check_loop env (names : list string) (acc : list string * list string) :
  fold_left
    (fun (acc : list string * list string) import_name =>
       let '(e, w) := check_import env import_name in
       (fst acc ++ e, snd acc ++ w)%list)
    names acc
  = ((fst acc ++ flat_map (fun n => fst (check_import env n)) names)%list,
     (snd acc ++ flat_map (fun n => snd (check_import env n)) names)%list).
Proof.
  revert acc. induction names as [|n names IH]; intros [es ws].
  - cbn [fold_left flat_map fst snd]. now rewrite !app_nil_r.
  - cbn [fold_left flat_map]. rewrite IH.
    destruct (check_import env n) as [e w]. cbn [fst snd].
    now rewrite !app_assoc.
Qed.

Lemma check_import_one env (n : string) :
  List.length (fst (check_import env n))
  + List.length (snd (check_import env n)) <= 1.
Proof.
  unfold check_import.
  destruct (contains "." n).
  - destruct (import_module env _ _) as [has|e].
    + destruct (has _); cbn; lia.
    + destruct (exn_class_eqb (exn_cls e) ImportError); cbn; lia.
  - destruct (import_module env n []) as [has|e].
    + cbn; lia.
    + destruct (exn_class_eqb (exn_cls e) ImportError); cbn; lia.
Qed.

(** X9. On a text that parses, the import check tries the names that mention
    the library and no other, in the order of the walk; each name leaves
    at most one entry, an error or a warning; the check passes exactly
    when no name leaves an error. *)
Theorem import_check_result env (c : string) (tree : list ast_node) :
  ast_parse env c = Ret tree ->
  ir_errors (_validate_pylabrobot_imports env c)
  = flat_map (fun n => fst (check_import env n)) (collect_imports tree)
  /\ ir_warnings (_validate_pylabrobot_imports env c)
     = flat_map (fun n => snd (check_import env n)) (collect_imports tree)
  /\ (ir_success (_validate_pylabrobot_imports env c) = true
      <-> forall n, In n (collect_imports tree) ->
                    fst (check_import env n) = [])
  /\ (forall n, In n (collect_imports tree) ->
                contains "pylabrobot" n = true
                /\ List.length (fst (check_import env n))
                   + List.length (snd (check_import env n)) <= 1).
Proof.
  intros Hparse. unfold _validate_pylabrobot_imports. rewrite Hparse.
  rewrite check_loop. cbn [fst snd app ir_errors ir_warnings ir_success].
  split; [reflexivity|]. split; [reflexivity|]. split.
  - rewrite Nat.eqb_eq, length_zero_iff_nil.
    induction (collect_imports tree) as [|n l IH]; cbn [flat_map].
    + split; [intros _ n [] | reflexivity].
    + split.
      * intros H. apply app_eq_nil in H as [Hn Hl].
        intros m [<-|Hm]; [exact Hn | now apply IH].
      * intros H. rewrite (H n (or_introl eq_refl)). cbn [app].
        apply IH. intros m Hm. apply H. now right.
  - intros n Hn. split.
    + now apply (collected_imports_name_library tree).
    + apply check_import_one.
Qed.

Lemma import_check_result_witness :
  ir_errors (_validate_pylabrobot_imports unresolved_env
               script_with_missing_import)
  = flat_map (fun n => fst (check_import unresolved_env n))
      (collect_imports
         [ImportFrom (Some "pylabrobot.nowhere") ["Nothing"]; OtherNode])
  /\ ir_warnings (_validate_pylabrobot_imports unresolved_env
                    script_with_missing_import)
     = flat_map (fun n => snd (check_import unresolved_env n))
         (collect_imports
            [ImportFrom (Some "pylabrobot.nowhere") ["Nothing"]; OtherNode])
  /\ (ir_success (_validate_pylabrobot_imports unresolved_env
                    script_with_missing_import) = true
      <-> forall n,
            In n (collect_imports
                    [ImportFrom (Some "pylabrobot.nowhere") ["Nothing"];
                     OtherNode]) ->
            fst (check_import unresolved_env n) = [])
  /\ (forall n,
        In n (collect_imports
                [ImportFrom (Some "pylabrobot.nowhere") ["Nothing"];
                 OtherNode]) ->
        contains "pylabrobot" n = true
        /\ List.length (fst (check_import unresolved_env n))
           + List.length (snd (check_import unresolved_env n)) <= 1).
Proof.
  apply (import_check_result unresolved_env script_with_missing_import
           [ImportFrom (Some "pylabrobot.nowhere") ["Nothing"]; OtherNode]).
  reflexivity.
Defined.



(** X12. When the report is saved, the dictionary returned is the one written
    with the path of the file added: the file itself holds no
    [test_report_path]. The file is named after the time stamp, in the
    directory given or, for none or an empty one, the temporary
    directory; no warning is added. *)
Theorem saved_report_lacks_its_path env ok dir st path :
  save_report env dir
    {| success := ok
     ; test_results := st_test_results st
     ; execution_summary := stamp_total_time env (st_execution_summary st)
     ; errors := st_errors st
     ; warnings := st_warnings st
     ; test_report_path := None |}
  = Ret path ->
  exists r st' written,
    _create_test_result env ok true dir st = (Ret r, st')
    /\ write_report env path written = Ret tt
    /\ test_report_path written = None
    /\ view r st' = with_report_path path written
    /\ warnings written = st_warnings st
    /\ path = os_path_join env (report_dir env dir) (report_name env).
Proof.
  destruct st as [tr su er wa sg]. fields. intros Hsave.
  unfold _create_test_result. run_monad.
  unfold view at 1. fields. rewrite Hsave.
  eexists _, _, _. split; [reflexivity|].
  unfold save_report, report_dir, report_name in *.
  assert (Hwrite : forall d R,
            match write_report env
                    (os_path_join env d
                       ("pylabrobot_test_report_" ++ strftime env ++ ".json"))
                    R with
            | Ret _ =>
                Ret (os_path_join env d
                       ("pylabrobot_test_report_" ++ strftime env ++ ".json"))
            | Raise e0 => Raise e0
            end = Ret path ->
            write_report env path R = Ret tt
            /\ path = os_path_join env d
                        ("pylabrobot_test_report_" ++ strftime env
                         ++ ".json")).
  { intros d R H.
    destruct (write_report env _ R) as [[]|e0] eqn:E; [|discriminate].
    injection H as <-. split; [exact E | reflexivity]. }
  destruct dir as [d|].
  - destruct (truthy (Some d)).
    + destruct (makedirs env d); [|discriminate].
      apply Hwrite in Hsave as [Hwr Hp].
      split; [exact Hwr|]. repeat split. exact Hp.
    + apply Hwrite in Hsave as [Hwr Hp].
      split; [exact Hwr|]. repeat split. exact Hp.
  - apply Hwrite in Hsave as [Hwr Hp].
    split; [exact Hwr|]. repeat split. exact Hp.
Qed.

Lemma saved_report_lacks_its_path_witness :
  exists r st' written,
    _create_test_result quiet_env true true (Some "") (initial_store false)
    = (Ret r, st')
    /\ write_report quiet_env "/tmp/pylabrobot_test_report_20250101_000000.json"
         written = Ret tt
    /\ test_report_path written = None
    /\ view r st'
       = with_report_path "/tmp/pylabrobot_test_report_20250101_000000.json"
           written
    /\ warnings written = st_warnings (initial_store false)
    /\ "/tmp/pylabrobot_test_report_20250101_000000.json"
       = os_path_join quiet_env (report_dir quiet_env (Some ""))
           (report_name quiet_env).
Proof.
  apply (saved_report_lacks_its_path quiet_env true (Some "")
           (initial_store false)
           "/tmp/pylabrobot_test_report_20250101_000000.json").
  reflexivity.
Defined.






End PipelineMoreSpec.

(* ================================================================== *)
(** ** Facts about scripts that raise objects of their own *)
(* ================================================================== *)

Module ScriptExceptionsSpec.
Import PyStr PyExn Transformer Pipeline PipelineReference Samples
  ScriptExceptions.

Ltac run_script :=
  cbv beta iota zeta delta
    [sbind sret sraise slift spure sexcept of_outcome
     bind ret raise lift get modify try_except try_except_class
     errors_append errors_extend warnings_append warnings_extend
     set_test_results set_execution_summary enter
     st_test_results st_execution_summary st_errors st_warnings st_stages].

Lemma run_async_agrees env s :
  ScriptExceptions.run_async_main env (of_env env) s
  = of_run (Pipeline.run_async_main env s).
Proof.
  unfold ScriptExceptions.run_async_main, Pipeline.run_async_main.
  destruct (loop_running env); [|reflexivity].
  cbn [of_env b_asyncio_run_main].
  destruct (asyncio_run_main env s true) as [[]|e|]; cbn; try reflexivity.
  unfold is_runtime_error. cbn.
  destruct (exn_class_eqb (exn_cls e) RuntimeError); reflexivity.
Qed.

Lemma run_agrees env path :
  ScriptExceptions._run_script_with_monitoring env (of_env env) path
  = of_run (Pipeline._run_script_with_monitoring env path).
Proof.
  unfold ScriptExceptions._run_script_with_monitoring,
    Pipeline._run_script_with_monitoring.
  destruct (read_text env path) as [c|e]; [|reflexivity].
  cbn [of_env b_exec_script b_call_main].
  destruct (exec_script env c) as [[]|e|]; cbn [of_run]; try reflexivity.
  - destruct (call_main env c) as [[]|e|]; reflexivity.
  - rewrite run_async_agrees.
    destruct (Pipeline.run_async_main env c) as [[]|e|]; reflexivity.
Qed.

Lemma execute_agrees env s t :
  ScriptExceptions._execute_script_safely env (of_env env) s t
  = of_outcome (Pipeline._execute_script_safely env s t).
Proof.
  unfold ScriptExceptions._execute_script_safely,
    Pipeline._execute_script_safely.
  cbn [of_env b_write_temp_script].
  destruct (write_temp_script env s) as [p|e]; [|reflexivity].
  unfold join_worker, ScriptExceptions.target, Pipeline.target.
  rewrite run_agrees.
  destruct (thread_join env p t) as [[|]|e]; try reflexivity.
  destruct (Pipeline._run_script_with_monitoring env p) as [r|e|];
    reflexivity.
Qed.

Lemma run_stages_agrees env c tracking timeout save dir st :
  ScriptExceptions.run_stages env (of_env env) c tracking timeout save dir st
  = slift (Pipeline.run_stages env c tracking timeout save dir) st.
Proof.
  destruct st as [tr su er wa sg].
  unfold ScriptExceptions.run_stages, Pipeline.run_stages.
  rewrite execute_agrees. run_script.
  destruct (ast_parse env c) as [tree|e].
  - destruct (negb (ir_success (_validate_pylabrobot_imports env c)));
      destruct (Pipeline._execute_script_safely env
                  (_modify_script_for_testing c tracking) timeout)
        as [x|ex]; cbv beta iota; try reflexivity;
      destruct (negb (er_success x)); reflexivity.
  - destruct (exn_class_eqb (exn_cls e) SyntaxError); [|reflexivity].
    match goal with
    | |- context [_create_test_result ?a ?b ?c ?d ?x] =>
        destruct (_create_test_result a b c d x) as [[r|e'] st']
    end; reflexivity.
Qed.

Lemma slift_bind {A B} (m : M A) (k : A -> M B) st :
  slift (bind m k) st = sbind (slift m) (fun a => slift (k a)) st.
Proof.
  unfold slift, sbind, bind. destruct (m st) as [[a|e] st']; reflexivity.
Qed.

Lemma sbind_run {A B} (m : SM A) (k : A -> SM B) st :
  sbind m k st
  = match m st with
    | (Ok a, st') => k a st'
    | (Err e, st') => (Err e, st')
    end.
Proof. reflexivity. Qed.

Lemma test_body_agrees env input tracking timeout save dir st :
  ScriptExceptions.test_body env (of_env env) input tracking timeout save
    dir st
  = slift (Pipeline.test_body env input tracking timeout save dir) st.
Proof.
  unfold ScriptExceptions.test_body, Pipeline.test_body.
  rewrite slift_bind, !sbind_run.
  destruct (slift (resolve_input env input save dir) st)
    as [[[c|r]|e] st1]; try reflexivity.
  destruct (strip c =? ""); [reflexivity|].
  rewrite slift_bind, !sbind_run.
  unfold sexcept. rewrite run_stages_agrees.
  unfold slift, try_except.
  destruct (Pipeline.run_stages env c tracking timeout save dir st1)
    as [[[[]|r]|e] st2]; reflexivity.
Qed.

(** On the behaviour an [Env] describes, where every exception prints and
    is true, the call is the one of [Pipeline]. *)
Lemma pipeline_agrees env input tracking timeout save dir :
  ScriptExceptions.test_pylabrobot_script env (of_env env) input tracking
    timeout save dir
  = of_outcome
      (Pipeline.test_pylabrobot_script env input tracking timeout save dir)
  /\ ScriptExceptions.stages_entered env (of_env env) input tracking
       timeout save dir
     = Pipeline.stages_entered env input tracking timeout save dir.
Proof.
  unfold ScriptExceptions.test_pylabrobot_script,
    Pipeline.test_pylabrobot_script, ScriptExceptions.stages_entered,
    Pipeline.stages_entered.
  rewrite test_body_agrees. unfold slift.
  destruct (Pipeline.test_body env input tracking timeout save dir
              (initial_store tracking)) as [[r|e] st].
  all: split; reflexivity.
Qed.

(** For a script of which every exception has a text and is true, and a
    temporary file that either is written or fails before its name is
    bound, which is what an [Env] can describe, the call returns its
    dictionary, and a failed validation has an entry in [errors]. *)
Lemma plain_behaviour_returns env input tracking timeout save dir :
  exists r,
    test_pylabrobot_script env (of_env env) input tracking timeout save dir
    = Ok r
    /\ (success r = false -> errors r <> []).
Proof.
  destruct (pipeline_agrees env input tracking timeout save dir) as [-> _].
  destruct (PipelineSpec.pipeline_returns env input tracking timeout save
              dir) as (r & -> & Hr).
  exists r. split; [reflexivity | exact Hr].
Qed.

(** The two ways the temporary file fails. Before [temp_script_path] is
    bound, the [finally] clause raises on the unbound name and no
    dictionary is returned; when the file is closed, the name is bound and
    the failure is returned as the one error of the dictionary. *)
Lemma write_failure_leaves env script s timeout e :
  b_write_temp_script script s = WriteFails e ->
  _execute_script_safely env script s timeout
  = Err (plain unbound_temp_script_path).
Proof.
  intros Hw. unfold _execute_script_safely. now rewrite Hw.
Qed.

Lemma close_failure_is_returned env script s timeout path e :
  b_write_temp_script script s = CloseFails path e ->
  _execute_script_safely env script s timeout
  = Ok (exec_failure
          ["Failed to prepare script execution: " ++ exn_msg e]).
Proof.
  intros Hw. unfold _execute_script_safely. now rewrite Hw.
Qed.

(** C6, where the code departs from it. A script is free to raise an
    object of a class of its own whose [__str__] raises an object of that
    class again. Each handler on the way formats its message with
    [str(e)]: the one in [_run_script_with_monitoring], the two in
    [_execute_script_safely] and the one around the stages in
    [test_pylabrobot_script]. Each raises in turn, nothing is appended to
    [errors], and the object raised by the last goes to the caller: no
    dictionary is returned, and the report stage is not entered. *)
Theorem unprintable_exception_escapes env script input tracking timeout
    save dir content st1 tree path text e1 e2 e3 e4 e5 :
  resolve_input env input save dir (initial_store tracking)
  = (Ret (Continue content), st1) ->
  strip content <> "" ->
  ast_parse env content = Ret tree ->
  b_write_temp_script script (_modify_script_for_testing content tracking)
  = Written path ->
  thread_join env path timeout = Ret false ->
  read_text env path = Ret text ->
  b_exec_script script text = Raises e1 ->
  str_raises e1 e2 -> str_raises e2 e3 -> str_raises e3 e4 ->
  str_raises e4 e5 ->
  test_pylabrobot_script env script input tracking timeout save dir = Err e5
  /\ (forall r,
        test_pylabrobot_script env script input tracking timeout save dir
        <> Ok r)
  /\ stages_entered env script input tracking timeout save dir
     = [StageSyntax; StageImports; StageTransform; StageExecute].
Proof.
  intros Hres Hne Hparse Hw Hjoin Hread Hexec
    (Hx1 & _ & Hs1) (Hx2 & Hb2 & Hs2) (Hx3 & _ & Hs3) (Hx4 & _ & Hs4).
  assert (Hrun : _run_script_with_monitoring env script path = Raises e2).
  { unfold _run_script_with_monitoring. rewrite Hread, Hexec, Hx1.
    unfold message. now rewrite Hs1. }
  assert (Hsafe : _execute_script_safely env script
                    (_modify_script_for_testing content tracking) timeout
                  = Err e4).
  { unfold _execute_script_safely. rewrite Hw.
    unfold join_worker, target. rewrite Hjoin, Hrun, Hx2.
    cbn [wl_exception wl_result]. rewrite Hb2.
    unfold handled, message. now rewrite Hx2, Hs2, Hx3, Hs3. }
  destruct (PipelineSpec.resolve_input_run env input save dir
              (initial_store tracking))
    as [(c & s1 & Hr & He & Hwa & Hsg & _)|(r & s1 & Hr & _)];
    rewrite Hres in Hr; [|discriminate].
  injection Hr as <- <-.
  apply String.eqb_neq in Hne.
  destruct st1 as [tr su er wa sg].
  unfold initial_store in He, Hwa, Hsg.
  cbn [st_errors st_warnings st_stages] in He, Hwa, Hsg. subst er wa sg.
  assert (Hbody : exists st',
             test_body env script input tracking timeout save dir
               (initial_store tracking) = (Err e5, st')
             /\ st_stages st'
                = [StageSyntax; StageImports; StageTransform;
                   StageExecute]).
  { unfold test_body. rewrite !sbind_run.
    unfold slift at 1. rewrite Hres. cbn [of_outcome]. rewrite Hne.
    rewrite !sbind_run. unfold sexcept, run_stages.
    rewrite Hsafe. run_script. rewrite Hparse.
    destruct (negb (ir_success (_validate_pylabrobot_imports env content)));
      cbv beta iota; rewrite Hx4; unfold message; rewrite Hs4;
      eexists; split; reflexivity. }
  destruct Hbody as (st' & Hbody & Hstages).
  unfold test_pylabrobot_script, stages_entered.
  rewrite Hbody. split; [reflexivity|]. split; [discriminate|].
  exact Hstages.
Qed.

Lemma unprintable_exception_escapes_witness :
  test_pylabrobot_script sulky_env sulky_behaviour sulky_script true 60
    false None = Err (sulky 0)
  /\ (forall r,
        test_pylabrobot_script sulky_env sulky_behaviour sulky_script true
          60 false None <> Ok r)
  /\ stages_entered sulky_env sulky_behaviour sulky_script true 60 false
       None
     = [StageSyntax; StageImports; StageTransform; StageExecute].
Proof.
  eapply (unprintable_exception_escapes sulky_env sulky_behaviour
            sulky_script true 60 false None sulky_script _ []
            "/tmp/tmpscript.py"
            (_modify_script_for_testing sulky_script true)
            (sulky 4) (sulky 3) (sulky 2) (sulky 1) (sulky 0)).
  - vm_compute. reflexivity.
  - vm_compute. discriminate.
  - reflexivity.
  - reflexivity.
  - reflexivity.
  - reflexivity.
  - cbn [sulky_behaviour b_exec_script]. rewrite String.eqb_refl.
    reflexivity.
  - repeat split.
  - repeat split.
  - repeat split.
  - repeat split.
Defined.

(** What a dictionary returned by [_execute_script_safely] looks like. *)
Lemma execute_returned env script s timeout x :
  _execute_script_safely env script s timeout = Ok x ->
  (er_success x = false -> exists msg, er_errors x = [msg])
  /\ (er_success x = true ->
      exists path r,
        b_write_temp_script script s = Written path
        /\ thread_join env path timeout = Ret false
        /\ _run_script_with_monitoring env script path = Finished r).
Proof.
  unfold _execute_script_safely.
  assert (Hfail : forall prefix y,
             match y with
             | Ok x => er_success x = false /\ exists msg, er_errors x = [msg]
             | Err _ => True
             end ->
             match handled prefix y with
             | Ok x => er_success x = false /\ exists msg, er_errors x = [msg]
             | Err _ => True
             end).
  { intros prefix [y|e] Hy; cbn [handled]; [exact Hy|].
    destruct (is_exception e); [|exact I].
    destruct (message prefix e) as [msg|e']; [|exact I].
    split; [reflexivity | now exists msg]. }
  destruct (b_write_temp_script script s) as [path|e|path e] eqn:Hw.
  - unfold join_worker, target.
    destruct (thread_join env path timeout) as [[|]|e] eqn:Hjoin.
    + cbn [handled]. intros H. injection H as <-.
      split; [intros _; eexists; reflexivity | discriminate].
    + destruct (_run_script_with_monitoring env script path) as [r|e]
        eqn:Hrun.
      * cbn [wl_exception wl_result handled]. intros H. injection H as <-.
        split; [discriminate|]. intros _. exists path, r. now repeat split.
      * intros H.
        match type of H with
        | handled _ (handled _ ?y) = _ =>
            assert (Hy : match y with
                         | Ok x => er_success x = false
                                   /\ exists msg, er_errors x = [msg]
                         | Err _ => True
                         end)
        end.
        { destruct (is_exception e); cbn [wl_exception wl_result].
          - destruct (r_bool e) as [[|]|e']; [exact I| |exact I].
            split; [reflexivity | eexists; reflexivity].
          - split; [reflexivity | eexists; reflexivity]. }
        apply (Hfail "Script execution failed: ") in Hy.
        apply (Hfail "Failed to prepare script execution: ") in Hy.
        rewrite H in Hy. destruct Hy as [Hs Hm]. split; [now intros _|].
        rewrite Hs. discriminate.
    + cbn [handled is_exception plain r_class message r_str].
      intros H. injection H as <-.
      split; [intros _; eexists; reflexivity | discriminate].
  - discriminate.
  - cbn [handled is_exception plain r_class message r_str].
    intros H. injection H as <-.
    split; [intros _; eexists; reflexivity | discriminate].
Qed.

(** The stages under the outer handler, when they come back: what they
    leave in the shared objects. *)
Lemma stages_returned env script c tracking timeout save dir tr su er wa sg
    f st' :
  sexcept (run_stages env script c tracking timeout save dir)
    (fun e =>
       (msg <- spure (message "Unexpected error during testing: " e) ;;
        slift (errors_append msg) ;;; sret (Continue tt))%script)
    {| st_test_results := tr; st_execution_summary := su
     ; st_errors := er; st_warnings := wa; st_stages := sg |}
  = (Ok f, st') ->
  match f with
  | Return r =>
      rd_success r = false
      /\ syntax_valid (st_test_results st') = syntax_valid tr
  | Continue _ =>
      syntax_valid tr = false ->
      simulation_successful tr = false ->
      syntax_valid (st_test_results st')
      && imports_valid (st_test_results st')
      && simulation_successful (st_test_results st') = true ->
      st_errors st' = er
      /\ st_stages st'
         = (sg ++ [StageSyntax; StageImports; StageTransform;
                   StageExecute])%list
  end.
Proof.
  unfold sexcept, run_stages. run_script.
  destruct (ast_parse env c) as [tree|e].
  - destruct (ir_success (_validate_pylabrobot_imports env c)) eqn:Hi;
      cbn [negb]; cbv beta iota;
      destruct (_execute_script_safely env script
                  (_modify_script_for_testing c tracking) timeout)
        as [x|ex] eqn:Hexec; cbv beta iota.
    + destruct (er_success x) eqn:Hx; cbn [negb]; cbv beta iota;
        intros H; injection H as <- <-; PipelineSpec.fields;
        intros Hsyn Hsim Hflags; rewrite ?andb_false_r in Hflags;
        try discriminate Hflags.
      rewrite <- !app_assoc. split; reflexivity.
    + destruct (is_exception ex); [|discriminate].
      destruct (message _ ex) as [msg|e']; [|discriminate].
      intros H; injection H as <- <-; PipelineSpec.fields.
      intros Hsyn Hsim Hflags. rewrite Hsim, !andb_false_r in Hflags.
      discriminate.
    + destruct (er_success x) eqn:Hx; cbn [negb]; cbv beta iota;
        intros H; injection H as <- <-; PipelineSpec.fields;
        intros Hsyn Hsim Hflags; rewrite ?andb_false_r in Hflags;
        discriminate Hflags.
    + destruct (is_exception ex); [|discriminate].
      destruct (message _ ex) as [msg|e']; [|discriminate].
      intros H; injection H as <- <-; PipelineSpec.fields.
      intros Hsyn Hsim Hflags. rewrite !andb_false_r in Hflags.
      discriminate.
  - destruct (exn_class_eqb (exn_cls e) SyntaxError).
    + PipelineSpec.use_create. run_script.
      intros H; injection H as <- <-. PipelineSpec.fields.
      split; [assumption | reflexivity].
    + cbn [is_exception plain r_class message r_str].
      intros H; injection H as <- <-. PipelineSpec.fields.
      intros Hsyn _ Hflags. rewrite Hsyn in Hflags. discriminate.
Qed.

Lemma test_body_returned env script input tracking timeout save dir r st' :
  test_body env script input tracking timeout save dir
    (initial_store tracking) = (Ok r, st') ->
  rd_success r
  = syntax_valid (st_test_results st') && imports_valid (st_test_results st')
    && simulation_successful (st_test_results st')
  /\ (rd_success r = true ->
      st_errors st' = []
      /\ st_stages st' = [StageSyntax; StageImports; StageTransform;
                          StageExecute; StageReport]).
Proof.
  unfold test_body. rewrite sbind_run. unfold slift at 1.
  unfold initial_store.
  match goal with
  | |- context [resolve_input env input save dir
                  {| st_test_results := ?tr; st_execution_summary := ?su
                   ; st_errors := ?er; st_warnings := ?wa
                   ; st_stages := ?sg |}] =>
      destruct (PipelineMoreSpec.resolve_input_cases env input save dir
                  tr su er wa sg)
        as [(c & it & fp & Hr)|(r0 & s1 & Hr & Hs & Htr & Hsu & Hsg)]
  end; rewrite Hr; cbn [of_outcome]; PipelineSpec.fields.
  - destruct (strip c =? "").
    + run_script. PipelineSpec.use_create. run_script.
      intros H. injection H as <- <-. PipelineSpec.fields. rewrite Hsucc.
      split; [reflexivity | discriminate].
    + rewrite sbind_run.
      match goal with
      | |- context [sexcept ?m ?h ?st] =>
          destruct (sexcept m h st) as [[f|e] s2] eqn:Hg
      end; [|discriminate].
      apply stages_returned in Hg.
      destruct f as [[]|r1].
      * destruct s2 as [tr2 su2 er2 wa2 sg2]. run_script.
        PipelineSpec.use_create. run_script.
        intros H. injection H as <- <-. PipelineSpec.fields.
        rewrite Hsucc. split; [reflexivity|].
        intros Hflags.
        destruct (Hg eq_refl eq_refl Hflags) as [-> ->].
        split; reflexivity.
      * destruct Hg as (Hs & Hsyn). unfold sret.
        intros H. injection H as <- <-. rewrite Hs, Hsyn.
        split; [reflexivity | discriminate].
  - unfold sret. intros H. injection H as <- <-.
    rewrite Hs, Htr. PipelineSpec.fields.
    split; [reflexivity | discriminate].
Qed.

(** X6. Whenever [test_pylabrobot_script] returns, the [success] of the
    result is the conjunction of the three stage flags; a successful
    result has no error and went through all five stages in order. The
    script is taken to act on the call only through the way its runs
    end. *)
Theorem returned_success_is_conjunction env script input tracking timeout
    save dir r :
  test_pylabrobot_script env script input tracking timeout save dir = Ok r ->
  success r
  = syntax_valid (test_results r) && imports_valid (test_results r)
    && simulation_successful (test_results r)
  /\ (success r = true ->
      errors r = []
      /\ stages_entered env script input tracking timeout save dir
         = [StageSyntax; StageImports; StageTransform; StageExecute;
            StageReport]).
Proof.
  unfold test_pylabrobot_script, stages_entered.
  destruct (test_body env script input tracking timeout save dir
              (initial_store tracking)) as [[r0|e] st'] eqn:Hrun;
    [|discriminate].
  intros H. injection H as <-.
  apply test_body_returned in Hrun. PipelineSpec.fields. exact Hrun.
Qed.

Lemma returned_success_is_conjunction_witness :
  exists r,
    test_pylabrobot_script quiet_env (of_env quiet_env) script_with_backend
      true 60 false None = Ok r
    /\ success r = true
    /\ success r
       = syntax_valid (test_results r) && imports_valid (test_results r)
         && simulation_successful (test_results r)
    /\ (success r = true ->
        errors r = []
        /\ stages_entered quiet_env (of_env quiet_env) script_with_backend
             true 60 false None
           = [StageSyntax; StageImports; StageTransform; StageExecute;
              StageReport]).
Proof.
  eexists. split; [vm_compute; reflexivity|]. split; [reflexivity|].
  apply (returned_success_is_conjunction quiet_env (of_env quiet_env)
           script_with_backend true 60 false None).
  vm_compute. reflexivity.
Defined.

(** X10. Once the temporary file is written: when [_execute_script_safely]
    returns, it reports success exactly when the worker ended within the
    timeout and the monitored run came back with its result, and a
    failure carries exactly one error; and it does return when the
    exception of the monitored run, if there is one, has a text and a
    truth value. *)
Theorem execute_returns_success_iff env script s timeout path :
  b_write_temp_script script s = Written path ->
  (forall x,
     _execute_script_safely env script s timeout = Ok x ->
     (er_success x = true
      <-> thread_join env path timeout = Ret false
          /\ exists r,
               _run_script_with_monitoring env script path = Finished r)
     /\ (er_success x = false -> exists msg, er_errors x = [msg]))
  /\ ((forall e,
         _run_script_with_monitoring env script path = Raises e ->
         prints e) ->
      exists x, _execute_script_safely env script s timeout = Ok x).
Proof.
  intros Hw. split.
  - intros x Hx. destruct (execute_returned env script s timeout x Hx)
      as [Hfail Hok].
    split; [|exact Hfail]. split.
    + intros Hs. destruct (Hok Hs) as (p & r & Hp & Hj & Hr).
      rewrite Hw in Hp. injection Hp as <-.
      split; [exact Hj | now exists r].
    + intros [Hj [r Hr]]. revert Hx.
      unfold _execute_script_safely. rewrite Hw.
      unfold join_worker, target. rewrite Hj, Hr.
      cbn [wl_exception wl_result handled].
      intros H. injection H as <-. reflexivity.
  - intros Hprints. unfold _execute_script_safely. rewrite Hw.
    unfold join_worker, target.
    destruct (thread_join env path timeout) as [[|]|e];
      try (eexists; reflexivity).
    destruct (_run_script_with_monitoring env script path) as [r|e];
      [eexists; reflexivity|].
    destruct (Hprints e eq_refl) as (text & b & Hs & Hb).
    destruct (is_exception e) eqn:Hx; cbn [wl_exception wl_result];
      [|eexists; reflexivity].
    rewrite Hb. destruct b; [|eexists; reflexivity].
    unfold handled at 2. rewrite Hx. unfold message. rewrite Hs.
    eexists. reflexivity.
Qed.

Lemma execute_returns_success_iff_witness :
  (forall x,
     _execute_script_safely sulky_env failing_behaviour script_with_backend
       60 = Ok x ->
     (er_success x = true
      <-> thread_join sulky_env "/tmp/tmpscript.py" 60 = Ret false
          /\ exists r,
               _run_script_with_monitoring sulky_env failing_behaviour
                 "/tmp/tmpscript.py" = Finished r)
     /\ (er_success x = false -> exists msg, er_errors x = [msg]))
  /\ ((forall e,
         _run_script_with_monitoring sulky_env failing_behaviour
           "/tmp/tmpscript.py" = Raises e ->
         prints e) ->
      exists x,
        _execute_script_safely sulky_env failing_behaviour
          script_with_backend 60 = Ok x).
Proof.
  apply (execute_returns_success_iff sulky_env failing_behaviour
           script_with_backend 60 "/tmp/tmpscript.py").
  reflexivity.
Defined.

End ScriptExceptionsSpec.

(* ================================================================== *)
(** ** The wetlab results store: further properties *)
(* ================================================================== *)

Module WetlabMoreSpec.
Import PyStr PyExn Wetlab WetlabReference WetlabMore Samples
  WetlabSamples WetlabSpec.

Section WithBuiltins.

Variable B : Builtins.

Lemma filter_nil_forall {A} (f : A -> bool) (l : list A) :
  filter f l = [] <-> forall x, In x l -> f x = false.
Proof.
  induction l as [|a l IH]; cbn [filter In]; [tauto|].
  destruct (f a) eqn:E; split.
  - discriminate.
  - intros H. specialize (H a (or_introl eq_refl)). congruence.
  - intros H x [<-|Hx]; [exact E | now apply IH].
  - intros H. apply IH. intros x Hx. apply H. now right.
Qed.

Lemma validate_key_missing (k : dict B) (f : string) :
  In f _WETLAB_KEY_FIELDS -> dict_mem B f k = false ->
  _validate_wetlab_key B (Dict B k)
  = (false, "Missing key fields: " ++ join ", " (missing_key_fields B k))
  /\ In f (missing_key_fields B k).
Proof.
  intros Hin Hm.
  assert (Hf : In f (missing_key_fields B k)).
  { apply filter_In. split; [exact Hin | now rewrite Hm]. }
  split; [|exact Hf].
  unfold _validate_wetlab_key. fold (missing_key_fields B k).
  destruct (missing_key_fields B k); [destruct Hf | reflexivity].
Qed.


(** X13. An incomplete key stops [delete_wetlab_result] and
    [update_wetlab_result] before the database is opened: the database is
    as it was and the reply names the missing fields. *)
Theorem incomplete_key_rejected (now db_path : string) (k : dict B)
    (updates : pyobj B) (db : database B) (f : string) :
  In f _WETLAB_KEY_FIELDS -> dict_mem B f k = false ->
  In f (missing_key_fields B k)
  /\ delete_wetlab_result B db_path (Dict B k) db
     = (db, DeleteError ("Error: Missing key fields: "
                         ++ join ", " (missing_key_fields B k)))
  /\ update_wetlab_result B now db_path (Dict B k) updates db
     = (db, UpdateError ("Error: Missing key fields: "
                         ++ join ", " (missing_key_fields B k))).
Proof.
  intros Hin Hm. destruct (validate_key_missing k f Hin Hm) as [Hv Hf].
  split; [exact Hf|].
  unfold delete_wetlab_result, update_wetlab_result. rewrite Hv.
  split; reflexivity.
Qed.

Lemma key_values_record_key (k : dict B) (kk : key) :
  key_values B k = Ret kk <-> record_key B k = Some kk.
Proof.
  unfold key_values, record_key, dict_item.
  destruct (dict_get B "experiment_id" k); cbn [bind_outcome];
    [|split; discriminate].
  destruct (dict_get B "sample_id" k); cbn [bind_outcome];
    [|split; discriminate].
  destruct (dict_get B "assay_name" k); cbn [bind_outcome];
    [|split; discriminate].
  destruct (dict_get B "condition" k); cbn [bind_outcome];
    [|split; discriminate].
  destruct (dict_get B "replicate" k); cbn [bind_outcome];
    [|split; discriminate].
  destruct (py_int B _); cbn [bind_outcome]; [|split; discriminate].
  split; intros H; injection H as <-; reflexivity.
Qed.

(** A key whose values can be bound is a valid key. *)
Lemma key_values_valid (k : dict B) (kk : key) :
  key_values B k = Ret kk ->
  _validate_wetlab_key B (Dict B k) = (true, "").
Proof.
  unfold key_values, dict_item, _validate_wetlab_key, dict_mem.
  cbn [filter _WETLAB_KEY_FIELDS].
  destruct (dict_get B "experiment_id" k); [|discriminate].
  destruct (dict_get B "sample_id" k); [|discriminate].
  destruct (dict_get B "assay_name" k); [|discriminate].
  destruct (dict_get B "condition" k); [|discriminate].
  destruct (dict_get B "replicate" k); [|discriminate].
  reflexivity.
Qed.

Lemma filter_key_le1 (k : key) (l : list (row B)) :
  NoDup (map (row_key B) l) ->
  List.length (filter (under_key B k) l) <= 1.
Proof.
  unfold under_key.
  induction l as [|a l IH]; intros Hnd; cbn [filter List.length]; [lia|].
  cbn [map] in Hnd. inversion Hnd as [|? ? Hnotin Hnd']; subst.
  destruct (key_eqb (row_key B a) k) eqn:E; [|now apply IH].
  apply key_eqb_eq in E. subst k.
  rewrite (filter_key_absent B _ _ Hnotin). cbn [List.length]. lia.
Qed.

Lemma NoDup_keys_filter (f : row B -> bool) (l : list (row B)) :
  NoDup (map (row_key B) l) -> NoDup (map (row_key B) (filter f l)).
Proof.
  induction l as [|a l IH]; intros Hnd; cbn [filter map]; [constructor|].
  cbn [map] in Hnd. inversion Hnd as [|? ? Hnotin Hnd']; subst.
  destruct (f a); [|now apply IH].
  cbn [map]. constructor; [|now apply IH].
  intros Hin. apply Hnotin. apply in_map_iff in Hin as (r & Hr & Hin).
  apply filter_In in Hin as [Hin _]. apply in_map_iff. now exists r.
Qed.

Lemma filter_filter_negb {A} (f : A -> bool) (l : list A) :
  filter f (filter (fun a => negb (f a)) l) = [].
Proof.
  induction l as [|a l IH]; cbn [filter]; [reflexivity|].
  destruct (f a) eqn:E; cbn [negb filter]; [exact IH | now rewrite E].
Qed.

Lemma key_parameters_bind (kk : key) :
  texts_bind B (bound_texts (key_parameters kk)) ->
  fits_int64 (key_replicate kk) = true ->
  bind_values B (key_parameters kk) = Ret tt.
Proof.
  destruct kk as [[[[e s] a] c] z]. intros Ht Hf.
  apply bind_values_ok; [exact Ht|].
  cbn [key_parameters]. repeat constructor. exact Hf.
Qed.

(** X14. A delete whose key can be bound (the four texts can be encoded,
    the replicate converts to an integer of 64 bits) leaves no row under
    the key, keeps every other row in place, counts the rows it removed,
    at most one, and keeps the UNIQUE constraint. *)
Theorem delete_removes_key (db_path : string) (k : dict B) (kk : key)
    (db : database B) :
  well_formed B db ->
  _connect_wetlab_db B db_path = Ret tt ->
  key_values B k = Ret kk ->
  texts_bind B (bound_texts (key_parameters kk)) ->
  fits_int64 (key_replicate kk) = true ->
  exists t' n,
    delete_wetlab_result B db_path (Dict B k) db
    = (Some t', DeleteCompleted n)
    /\ filter (under_key B kk) (rows B t') = []
    /\ rows B t'
       = filter (fun r => negb (under_key B kk r))
           (rows B (_ensure_wetlab_table B db))
    /\ n = List.length (filter (under_key B kk)
                          (rows B (_ensure_wetlab_table B db)))
    /\ n <= 1
    /\ unique_keys B t'.
Proof.
  intros Hwf Hc Hk Htexts Hfit.
  pose proof (ensure_unique B db Hwf) as Hu.
  unfold delete_wetlab_result.
  rewrite (key_values_valid k kk Hk), Hc, Hk. cbn [bind_outcome].
  unfold execute_delete. rewrite (key_parameters_bind kk Htexts Hfit).
  cbn [bind_outcome].
  eexists _, _. split; [reflexivity|]. cbn [rows].
  split; [apply filter_filter_negb|]. split; [reflexivity|].
  split; [reflexivity|]. split; [now apply filter_key_le1|].
  unfold unique_keys. cbn [rows]. now apply NoDup_keys_filter.
Qed.


Lemma filter_nil_existsb {A} (f : A -> bool) (l : list A) :
  filter f l = [] -> existsb f l = false.
Proof.
  induction l as [|a l IH]; cbn [filter existsb]; [reflexivity|].
  destruct (f a); [discriminate | exact IH].
Qed.

Lemma filter_negb_all {A} (f : A -> bool) (l : list A) :
  filter f l = [] -> filter (fun a => negb (f a)) l = l.
Proof.
  induction l as [|a l IH]; cbn [filter]; [reflexivity|].
  destruct (f a); [discriminate|]. intros H. cbn [negb]. now rewrite IH.
Qed.

(** The statement on a key the table does not hold appends one row. *)
Lemma execute_upsert_absent (now : string) (t : table B)
    (v : upsert_values B) :
  bind_values B (upsert_parameters B v) = Ret tt ->
  real_is_nan B (v_measurement_value B v) = false ->
  filter (under_key B (values_key B v)) (rows B t) = [] ->
  execute_upsert B now t v
  = Ret {| rows := (rows B t
                    ++ [new_row B now (last_result_id B t + 1) v])%list
         ; last_result_id := (last_result_id B t + 1)%Z |}.
Proof.
  intros Hf Hn Habs. unfold execute_upsert. rewrite Hf, Hn.
  cbn [bind_outcome].
  replace (existsb (conflicts B v) (rows B t)) with false; [reflexivity|].
  symmetry. apply (filter_nil_existsb _ _ Habs).
Qed.

(** X15. Round trip: storing a complete record that can be bound (its
    replicate and measurement value convert, its texts can be encoded)
    under a key the table does not hold and deleting that key again
    gives back the rows there were. *)
Theorem upsert_then_delete_restores (now db_path : string) (d : dict B)
    (db : database B) :
  well_formed B db ->
  _connect_wetlab_db B db_path = Ret tt ->
  complete B d = true ->
  bindable B d ->
  stored_for B d db = [] ->
  exists t2,
    delete_wetlab_result B db_path (Dict B d)
      (fst (upsert_wetlab_results B now db_path [Dict B d] db))
    = (Some t2, DeleteCompleted 1)
    /\ rows B t2 = rows B (_ensure_wetlab_table B db).
Proof.
  intros Hwf Hc Hcomplete Hbind Habs.
  destruct Hbind
    as [(rp & z & mv & x & Hrp & Hz & Hfit & Hmv & Hx & Hnan) Htexts].
  destruct (build_values_ok B d rp mv z x Hcomplete Hrp Hz Hmv Hx)
    as (v & Hv & Hk & Hvz & Hvx).
  subst z x. unfold record_texts in Htexts. rewrite Hv in Htexts.
  pose proof (upsert_parameters_bind B v Htexts Hfit) as Hbound.
  assert (Hkey : bind_values B (key_parameters (values_key B v)) = Ret tt).
  { apply key_parameters_bind; [|exact Hfit].
    unfold texts_bind in *. unfold upsert_parameters in Htexts.
    cbn [bound_texts flat_map app] in Htexts.
    inversion Htexts as [|? ? H1 Ht1]; subst.
    inversion Ht1 as [|? ? H2 Ht2]; subst.
    inversion Ht2 as [|? ? H3 Ht3]; subst.
    inversion Ht3 as [|? ? H4 Ht4]; subst.
    unfold values_key. cbn [key_parameters bound_texts flat_map app].
    repeat constructor; assumption. }
  assert (Hnone : filter (under_key B (values_key B v))
                    (rows B (_ensure_wetlab_table B db)) = []).
  { unfold stored_for in Habs. rewrite Hk in Habs.
    destruct db as [t|]; [exact Habs | reflexivity]. }
  rewrite (upsert_one B now db_path (Dict B d) db Hc).
  unfold upsert_step. unfold complete in Hcomplete.
  rewrite (forallb_filter_negb _ _ Hcomplete), Hv.
  cbn [bind_outcome ul_table].
  rewrite (execute_upsert_absent now _ v Hbound Hnan Hnone).
  cbn [ul_table].
  apply key_values_record_key in Hk.
  unfold delete_wetlab_result.
  rewrite (key_values_valid d _ Hk), Hc, Hk.
  cbn [bind_outcome _ensure_wetlab_table].
  unfold execute_delete. rewrite Hkey.
  cbn [bind_outcome rows].
  rewrite !filter_app, Hnone, (filter_negb_all _ _ Hnone).
  cbn [filter]. unfold under_key at 1 2.
  rewrite row_key_new_row, key_eqb_refl. cbn [negb app List.length].
  eexists. split; [reflexivity|]. cbn [rows]. apply app_nil_r.
Qed.

(** *** Batches *)

Lemma upsert_loop_unique (now : string) (records : list (pyobj B)) :
  forall idx l,
    unique_keys B (ul_table B l) ->
    unique_keys B (ul_table B (upsert_loop_from B now idx records l)).
Proof.
  induction records as [|record rest IH]; intros idx l Hu; [exact Hu|].
  cbn [upsert_loop_from]. apply IH. now apply upsert_step_unique.
Qed.

(** X16. Whatever the batch holds, the table obeys its UNIQUE constraint
    afterwards. *)
Theorem upsert_keeps_unique (now db_path : string)
    (records : list (pyobj B)) (db : database B) :
  well_formed B db ->
  well_formed B (fst (upsert_wetlab_results B now db_path records db)).
Proof.
  intros Hwf. unfold upsert_wetlab_results.
  destruct records as [|record rest]; [exact Hwf|].
  destruct (_connect_wetlab_db B db_path); [|exact Hwf].
  cbn [fst well_formed]. apply upsert_loop_unique.
  cbn [ul_table]. now apply ensure_unique.
Qed.

Lemma upsert_step_counts (now : string) (idx : nat) (record : pyobj B)
    (l : upsert_loop B) :
  ul_success_count B (upsert_step B now idx record l)
  + List.length (ul_error_details B (upsert_step B now idx record l))
  = S (ul_success_count B l + List.length (ul_error_details B l)).
Proof.
  unfold upsert_step.
  destruct record as [|d];
    [cbn [ul_success_count ul_error_details]; rewrite length_app;
     cbn [List.length]; lia|].
  destruct (filter _ _WETLAB_REQUIRED_RECORD_FIELDS);
    [|cbn [ul_success_count ul_error_details]; rewrite length_app;
      cbn [List.length]; lia].
  destruct (bind_outcome _ _);
    cbn [ul_success_count ul_error_details]; [lia|].
  rewrite length_app. cbn [List.length]. lia.
Qed.

Lemma upsert_loop_counts (now : string) (records : list (pyobj B)) :
  forall idx l,
    ul_success_count B (upsert_loop_from B now idx records l)
    + List.length (ul_error_details B (upsert_loop_from B now idx records l))
    = List.length records
      + (ul_success_count B l + List.length (ul_error_details B l)).
Proof.
  induction records as [|record rest IH]; intros idx l; [reflexivity|].
  cbn [upsert_loop_from List.length]. rewrite IH, upsert_step_counts. lia.
Qed.

(** X17. The counts of the reply add up: every record of the batch is either
    a successful upsert or a failure with its detail. *)
Theorem upsert_counts_add_up (now db_path : string)
    (records : list (pyobj B)) (db db' : database B)
    (n s : nat) (failures : list string) :
  upsert_wetlab_results B now db_path records db
  = (db', UpsertCompleted n s failures) ->
  n = List.length records /\ s + List.length failures = n.
Proof.
  unfold upsert_wetlab_results.
  destruct records as [|record rest]; [discriminate|].
  destruct (_connect_wetlab_db B db_path); [|discriminate].
  intros H. injection H as _ <- <- <-. split; [reflexivity|].
  rewrite upsert_loop_counts, ?upsert_step_counts.
  cbn [ul_success_count ul_error_details List.length]. lia.
Qed.


(** *** Rows under other keys *)

Lemma build_values_key (d : dict B) (v : upsert_values B) :
  build_values B d = Ret v -> record_key B d = Some (values_key B v).
Proof.
  unfold build_values, record_key, dict_item.
  destruct (dict_get B "experiment_id" d); cbn [bind_outcome];
    [|discriminate].
  destruct (dict_get B "sample_id" d); cbn [bind_outcome]; [|discriminate].
  destruct (dict_get B "assay_name" d); cbn [bind_outcome]; [|discriminate].
  destruct (dict_get B "condition" d); cbn [bind_outcome]; [|discriminate].
  destruct (dict_get B "replicate" d); cbn [bind_outcome]; [|discriminate].
  destruct (py_int B _); cbn [bind_outcome]; [|discriminate].
  destruct (dict_get B "measurement_value" d); cbn [bind_outcome];
    [|discriminate].
  destruct (py_float B _); cbn [bind_outcome]; [|discriminate].
  destruct (dict_get B "measurement_unit" d); cbn [bind_outcome];
    [|discriminate].
  destruct (dict_get B "measured_at" d); cbn [bind_outcome];
    [|discriminate].
  intros H. injection H as <-. reflexivity.
Qed.

Lemma key_eqb_neq (a b : key) : a <> b -> key_eqb a b = false.
Proof.
  intros Hne. destruct (key_eqb a b) eqn:E; [|reflexivity].
  apply key_eqb_eq in E. contradiction.
Qed.

Lemma execute_upsert_other_key (now : string) (t t' : table B)
    (v : upsert_values B) (k : key) :
  values_key B v <> k ->
  execute_upsert B now t v = Ret t' ->
  filter (under_key B k) (rows B t') = filter (under_key B k) (rows B t).
Proof.
  intros Hne. unfold execute_upsert.
  destruct (bind_values B (upsert_parameters B v)) as [[]|];
    [|discriminate].
  cbn [bind_outcome].
  destruct (real_is_nan B (v_measurement_value B v)); [discriminate|].
  destruct (existsb (conflicts B v) (rows B t));
    intros H; injection H as <-; cbn [rows].
  - induction (rows B t) as [|r l IH]; [reflexivity|].
    cbn [map filter]. rewrite IH. rewrite conflicts_key.
    destruct (key_eqb (row_key B r) (values_key B v)) eqn:E;
      [|reflexivity].
    unfold under_key. rewrite row_key_do_update.
    apply key_eqb_eq in E. rewrite E.
    now rewrite (key_eqb_neq _ _ Hne).
  - rewrite filter_app. cbn [filter]. unfold under_key at 2.
    rewrite row_key_new_row, (key_eqb_neq _ _ Hne). apply app_nil_r.
Qed.

Lemma upsert_step_other_key (now : string) (idx : nat) (record : pyobj B)
    (l : upsert_loop B) (k : key) :
  (forall d, record = Dict B d -> record_key B d <> Some k) ->
  filter (under_key B k)
    (rows B (ul_table B (upsert_step B now idx record l)))
  = filter (under_key B k) (rows B (ul_table B l)).
Proof.
  intros Hne. unfold upsert_step.
  destruct record as [|d]; [reflexivity|].
  destruct (filter _ _WETLAB_REQUIRED_RECORD_FIELDS); [|reflexivity].
  destruct (build_values B d) as [v|e] eqn:Hv; cbn [bind_outcome];
    [|reflexivity].
  destruct (execute_upsert B now (ul_table B l) v) as [t'|e] eqn:E;
    [|reflexivity].
  cbn [ul_table]. apply (execute_upsert_other_key now _ _ v k); [|exact E].
  intros Hk. apply (Hne d eq_refl). rewrite (build_values_key d v Hv).
  now rewrite Hk.
Qed.

Lemma upsert_loop_other_key (now : string) (records : list (pyobj B))
    (k : key) :
  (forall d, In (Dict B d) records -> record_key B d <> Some k) ->
  forall idx l,
    filter (under_key B k)
      (rows B (ul_table B (upsert_loop_from B now idx records l)))
    = filter (under_key B k) (rows B (ul_table B l)).
Proof.
  induction records as [|record rest IH]; intros Hne idx l; [reflexivity|].
  cbn [upsert_loop_from]. rewrite IH.
  - apply upsert_step_other_key. intros d ->. apply Hne. now left.
  - intros d Hd. apply Hne. now right.
Qed.

(** X18. An upsert never touches the rows of a key that no record of the batch
    names: they are the same rows, in the same order, before and after. *)
Theorem upsert_leaves_other_keys (now db_path : string)
    (records : list (pyobj B)) (db : database B) (k : key) :
  (forall d, In (Dict B d) records -> record_key B d <> Some k) ->
  filter (under_key B k)
    (rows B (_ensure_wetlab_table B
               (fst (upsert_wetlab_results B now db_path records db))))
  = filter (under_key B k) (rows B (_ensure_wetlab_table B db)).
Proof.
  intros Hne. unfold upsert_wetlab_results.
  destruct records as [|record rest]; [reflexivity|].
  destruct (_connect_wetlab_db B db_path); [|reflexivity].
  cbn [fst _ensure_wetlab_table].
  now rewrite (upsert_loop_other_key now (record :: rest) k Hne).
Qed.

(** *** update_wetlab_result *)

Lemma assign_keeps (a : assignment B) (r : row B) :
  row_key B (assign B a r) = row_key B r
  /\ result_id B (assign B a r) = result_id B r
  /\ created_at B (assign B a r) = created_at B r.
Proof. destruct a; repeat split. Qed.

Lemma apply_assignments_keeps (now : string) (l : list (assignment B))
    (r : row B) :
  row_key B (apply_assignments B now l r) = row_key B r
  /\ result_id B (apply_assignments B now l r) = result_id B r
  /\ created_at B (apply_assignments B now l r) = created_at B r
  /\ updated_at B (apply_assignments B now l r) = now.
Proof.
  unfold apply_assignments.
  assert (H : forall l r,
             row_key B (fold_left (fun r a => assign B a r) l r)
             = row_key B r
             /\ result_id B (fold_left (fun r a => assign B a r) l r)
                = result_id B r
             /\ created_at B (fold_left (fun r a => assign B a r) l r)
                = created_at B r).
  { clear. induction l as [|a l IH]; intros r; [repeat split|].
    cbn [fold_left]. destruct (IH (assign B a r)) as (H1 & H2 & H3).
    destruct (assign_keeps a r) as (K1 & K2 & K3).
    rewrite H1, H2, H3. repeat split; assumption. }
  destruct (H l r) as (H1 & H2 & H3).
  repeat split; assumption.
Qed.

Lemma filter_negb_map_under (kk : key) (g : row B -> row B)
    (rs : list (row B)) :
  (forall r, row_key B (g r) = row_key B r) ->
  (forall r, under_key B kk r = false -> g r = r) ->
  filter (fun r => negb (under_key B kk r)) (map g rs)
  = filter (fun r => negb (under_key B kk r)) rs.
Proof.
  intros Hkey Hid. induction rs as [|r rs IH]; [reflexivity|].
  cbn [map filter]. rewrite IH.
  replace (under_key B kk (g r)) with (under_key B kk r)
    by (unfold under_key; now rewrite Hkey).
  destruct (under_key B kk r) eqn:E; cbn [negb]; [reflexivity|].
  now rewrite (Hid r E).
Qed.

Lemma map_under_none (kk : key) (g : row B -> row B) (rs : list (row B)) :
  (forall r, under_key B kk r = false -> g r = r) ->
  filter (under_key B kk) rs = [] -> map g rs = rs.
Proof.
  intros Hid. induction rs as [|r rs IH]; [reflexivity|].
  cbn [map filter]. destruct (under_key B kk r) eqn:E; [discriminate|].
  intros H. now rewrite (Hid r E), IH.
Qed.

(** What a completed update went through. *)
Lemma update_completed_inv (now db_path : string) (key updates : pyobj B)
    (db db' : database B) (n : nat) :
  update_wetlab_result B now db_path key updates db
  = (db', UpdateCompleted n) ->
  exists k u l kk t',
    key = Dict B k /\ updates = Dict B u
    /\ build_assignments B (dict_items B u) = Ret l
    /\ key_values B k = Ret kk
    /\ execute_update B now (_ensure_wetlab_table B db) l kk = Ret (t', n)
    /\ db' = Some t'.
Proof.
  unfold update_wetlab_result.
  destruct (_validate_wetlab_key B key) as [[|] msg];
    destruct key as [|k]; try discriminate.
  destruct updates as [|[|e u]]; try discriminate.
  destruct (filter _ (map fst (dict_items B (e :: u)))); [|discriminate].
  destruct (_connect_wetlab_db B db_path); [|discriminate].
  destruct (build_assignments B (dict_items B (e :: u))) as [l|x] eqn:Hl;
    cbn [bind_outcome]; [|discriminate].
  destruct (key_values B k) as [kk|x] eqn:Hk; cbn [bind_outcome];
    [|discriminate].
  destruct (execute_update B now (_ensure_wetlab_table B db) l kk)
    as [[t' m]|x] eqn:He; [|discriminate].
  intros H. injection H as <- <-.
  exists k, (e :: u), l, kk, t'. repeat split; assumption.
Qed.

(** X19. A completed update changes no key, no row identifier and no creation
    time, adds and removes no row, leaves the rows of other keys as they
    were, and reports the number of rows under the key: one at most, and
    when it is zero the table is unchanged. *)
Theorem update_keeps_rows_and_keys (now db_path : string)
    (k : dict B) (updates : pyobj B) (db db' : database B) (n : nat) :
  well_formed B db ->
  update_wetlab_result B now db_path (Dict B k) updates db
  = (db', UpdateCompleted n) ->
  exists t' kk,
    db' = Some t'
    /\ key_values B k = Ret kk
    /\ map (row_key B) (rows B t')
       = map (row_key B) (rows B (_ensure_wetlab_table B db))
    /\ map (result_id B) (rows B t')
       = map (result_id B) (rows B (_ensure_wetlab_table B db))
    /\ map (created_at B) (rows B t')
       = map (created_at B) (rows B (_ensure_wetlab_table B db))
    /\ filter (fun r => negb (under_key B kk r)) (rows B t')
       = filter (fun r => negb (under_key B kk r))
           (rows B (_ensure_wetlab_table B db))
    /\ n = List.length (filter (under_key B kk)
                          (rows B (_ensure_wetlab_table B db)))
    /\ n <= 1
    /\ (n = 0 -> rows B t' = rows B (_ensure_wetlab_table B db))
    /\ unique_keys B t'.
Proof.
  intros Hwf Hup.
  pose proof (ensure_unique B db Hwf) as Hu.
  destruct (update_completed_inv _ _ _ _ _ _ _ Hup)
    as (k0 & u & l & kk & t' & Hk0 & _ & _ & Hkk & He & ->).
  injection Hk0 as <-.
  exists t', kk. split; [reflexivity|]. split; [exact Hkk|].
  unfold execute_update in He.
  destruct (bind_values B (update_parameters B l kk)) as [[]|];
    [|discriminate].
  cbn [bind_outcome] in He.
  destruct (existsb (under_key B kk) (rows B (_ensure_wetlab_table B db))
            && existsb (refused B) l); [discriminate|].
  injection He as <- <-. cbn [rows].
  set (g := fun r => if under_key B kk r
                     then apply_assignments B now l r else r).
  assert (Hg : forall r,
             row_key B (g r) = row_key B r
             /\ result_id B (g r) = result_id B r
             /\ created_at B (g r) = created_at B r).
  { intros r. unfold g. destruct (under_key B kk r); [|repeat split].
    destruct (apply_assignments_keeps now l r) as (H1 & H2 & H3 & _).
    repeat split; assumption. }
  assert (Hkeys : map (row_key B)
                    (map g (rows B (_ensure_wetlab_table B db)))
                  = map (row_key B) (rows B (_ensure_wetlab_table B db))).
  { rewrite map_map. apply map_ext. intros r. apply Hg. }
  split; [exact Hkeys|].
  split; [rewrite map_map; apply map_ext; intros r; apply Hg|].
  split; [rewrite map_map; apply map_ext; intros r; apply Hg|].
  assert (Hid : forall r, under_key B kk r = false -> g r = r).
  { intros r Hr. unfold g. now rewrite Hr. }
  split; [apply filter_negb_map_under; [intros r; apply Hg | exact Hid]|].
  split; [reflexivity|].
  split; [now apply filter_key_le1|].
  split.
  { intros Hz. apply length_zero_iff_nil in Hz.
    now apply (map_under_none kk g _ Hid). }
  unfold unique_keys. cbn [rows]. now rewrite Hkeys.
Qed.

(** X20. Updates that are no dictionary, are empty or name a field that cannot
    be updated are refused before the database is opened. *)
Theorem bad_updates_rejected (now db_path : string) (key updates : pyobj B)
    (db : database B) :
  (match updates with
   | NotADict _ => True
   | Dict _ u =>
       u = []
       \/ exists f, In f (map fst (dict_items B u))
                    /\ mem_string f _WETLAB_UPDATABLE_FIELDS = false
   end) ->
  exists message,
    update_wetlab_result B now db_path key updates db
    = (db, UpdateError message).
Proof.
  intros Hbad. unfold update_wetlab_result.
  destruct (_validate_wetlab_key B key) as [[|] msg];
    destruct key as [|k]; try (eexists; reflexivity).
  destruct updates as [|[|e u]]; try (eexists; reflexivity).
  destruct Hbad as [Hnil|(f & Hin & Hf)]; [discriminate|].
  assert (Hin' : In f (filter
                         (fun f => negb (mem_string f
                                           _WETLAB_UPDATABLE_FIELDS))
                         (map fst (dict_items B (e :: u))))).
  { apply filter_In. split; [exact Hin | now rewrite Hf]. }
  destruct (filter _ (map fst (dict_items B (e :: u))));
    [destruct Hin' | eexists; reflexivity].
Qed.


(** *** What an update stores *)

Lemma dict_items_in (u : dict B) (f : string) (v : value B) :
  dict_get B f u = Some v -> In (f, v) (dict_items B u).
Proof.
  induction u as [|[k v0] u IH]; cbn [dict_get dict_items]; [discriminate|].
  destruct (f =? k) eqn:E.
  - intros H. injection H as ->. apply String.eqb_eq in E as ->. now left.
  - intros H. right. apply filter_In. split; [now apply IH|].
    cbn [fst]. now rewrite E.
Qed.

Lemma dict_items_keys_filter (g : string * value B -> bool)
    (l : list (string * value B)) :
  NoDup (map fst l) -> NoDup (map fst (filter g l)).
Proof.
  induction l as [|a l IH]; intros Hnd; cbn [filter map]; [constructor|].
  cbn [map] in Hnd. inversion Hnd as [|? ? Hnotin Hnd']; subst.
  destruct (g a); [|now apply IH].
  cbn [map]. constructor; [|now apply IH].
  intros Hin. apply Hnotin. apply in_map_iff in Hin as (r & Hr & Hin).
  apply filter_In in Hin as [Hin _]. apply in_map_iff. now exists r.
Qed.

(** A dictionary holds each key once. *)
Lemma dict_items_nodup (u : dict B) : NoDup (map fst (dict_items B u)).
Proof.
  induction u as [|[k v0] u IH]; cbn [dict_items map]; [constructor|].
  constructor; [|now apply dict_items_keys_filter].
  intros Hin. apply in_map_iff in Hin as ([k' v'] & Hk & Hin).
  apply filter_In in Hin as [_ Hne]. cbn [fst] in *. subst k'.
  now rewrite String.eqb_refl in Hne.
Qed.

Lemma text_assignments_keep_value (items : list (string * value B))
    (l : list (assignment B)) :
  ~ In "measurement_value" (map fst items) ->
  build_assignments B items = Ret l ->
  forall r,
    measurement_value B (fold_left (fun r a => assign B a r) l r)
    = measurement_value B r.
Proof.
  revert l. induction items as [|[f v] items IH]; intros l Hnot Hb r.
  - injection Hb as <-. reflexivity.
  - cbn [build_assignments] in Hb. cbn [map fst In] in Hnot.
    destruct (f =? "measurement_value") eqn:E.
    { apply String.eqb_eq in E. tauto. }
    destruct (build_assignments B items) as [l'|e]; cbn [bind_outcome] in Hb;
      [|discriminate].
    injection Hb as <-. cbn [fold_left]. rewrite (IH l'); [reflexivity| |
      reflexivity]. tauto.
Qed.

Lemma assignments_set_value (items : list (string * value B))
    (l : list (assignment B)) (v : value B) (x : real B) :
  NoDup (map fst items) ->
  In ("measurement_value", v) items ->
  py_float B v = Ret x ->
  build_assignments B items = Ret l ->
  forall r,
    measurement_value B (fold_left (fun r a => assign B a r) l r) = x.
Proof.
  revert l. induction items as [|[f v'] items IH];
    intros l Hnd Hin Hx Hb r; [destruct Hin|].
  cbn [map fst] in Hnd. inversion Hnd as [|? ? Hnotin Hnd']; subst.
  cbn [build_assignments] in Hb.
  destruct (f =? "measurement_value") eqn:E.
  - apply String.eqb_eq in E. subst f.
    assert (v' = v) as ->.
    { destruct Hin as [H|H]; [congruence|].
      exfalso. apply Hnotin. apply in_map_iff.
      now exists ("measurement_value", v). }
    rewrite Hx in Hb. cbn [bind_outcome] in Hb.
    destruct (build_assignments B items) as [l'|e] eqn:Hl;
      cbn [bind_outcome] in Hb; [|discriminate].
    injection Hb as <-. cbn [fold_left assign].
    now rewrite (text_assignments_keep_value items l' Hnotin Hl).
  - destruct Hin as [H|H].
    { injection H as -> _. now rewrite String.eqb_refl in E. }
    destruct (build_assignments B items) as [l'|e] eqn:Hl;
      cbn [bind_outcome] in Hb; [|discriminate].
    injection Hb as <-. cbn [fold_left]. now apply (IH l').
Qed.

(** X21. After a completed update that names [measurement_value], every row
    under the key holds the converted value and the time of the update. *)
Theorem update_stores_value (now db_path : string) (k u : dict B)
    (db db' : database B) (n : nat) (v : value B) (x : real B) :
  update_wetlab_result B now db_path (Dict B k) (Dict B u) db
  = (db', UpdateCompleted n) ->
  dict_get B "measurement_value" u = Some v ->
  py_float B v = Ret x ->
  exists t' kk,
    db' = Some t'
    /\ key_values B k = Ret kk
    /\ Forall (fun r => measurement_value B r = x /\ updated_at B r = now)
         (filter (under_key B kk) (rows B t')).
Proof.
  intros Hup Hv Hx.
  destruct (update_completed_inv _ _ _ _ _ _ _ Hup)
    as (k0 & u0 & l & kk & t' & Hk0 & Hu0 & Hl & Hkk & He & ->).
  injection Hk0 as <-. injection Hu0 as <-.
  exists t', kk. split; [reflexivity|]. split; [exact Hkk|].
  unfold execute_update in He.
  destruct (bind_values B (update_parameters B l kk)) as [[]|];
    [|discriminate].
  cbn [bind_outcome] in He.
  destruct (existsb (under_key B kk) (rows B (_ensure_wetlab_table B db))
            && existsb (refused B) l); [discriminate|].
  injection He as <- _. cbn [rows].
  apply Forall_forall. intros r Hr.
  apply filter_In in Hr as [Hin Hunder].
  apply in_map_iff in Hin as (r0 & <- & _).
  destruct (under_key B kk r0) eqn:E.
  - split; [|reflexivity]. unfold apply_assignments.
    cbn [measurement_value set_updated_at].
    apply (assignments_set_value (dict_items B u) l v x);
      [apply dict_items_nodup | now apply dict_items_in | exact Hx
      | exact Hl].
  - rewrite E in Hunder. discriminate.
Qed.


(** *** What a query returns *)

Lemma insert_sorted_in {A} (le : A -> A -> bool) (x y : A) (l : list A) :
  In y (insert_sorted le x l) <-> y = x \/ In y l.
Proof.
  induction l as [|z l IH]; cbn [insert_sorted In]; [intuition|].
  destruct (le x z); cbn [In]; [intuition|]. rewrite IH. intuition.
Qed.

Lemma sort_by_in {A} (le : A -> A -> bool) (y : A) (l : list A) :
  In y (sort_by le l) <-> In y l.
Proof.
  unfold sort_by. induction l as [|x l IH]; cbn [fold_right In]; [tauto|].
  rewrite insert_sorted_in, IH. intuition.
Qed.

Lemma sorted_by_cons {A} (le : A -> A -> bool) (x y : A) (l : list A) :
  sorted_by le (x :: y :: l) = le x y && sorted_by le (y :: l).
Proof. reflexivity. Qed.

Lemma insert_sorted_sorted {A} (le : A -> A -> bool) (x : A) (l : list A) :
  (forall a b, le a b = false -> le b a = true) ->
  sorted_by le l = true -> sorted_by le (insert_sorted le x l) = true.
Proof.
  intros Htot. induction l as [|y l IH]; intros Hs; [reflexivity|].
  cbn [insert_sorted]. destruct (le x y) eqn:E.
  - now rewrite sorted_by_cons, E, Hs.
  - assert (Hyx : le y x = true) by now apply Htot.
    destruct l as [|z l].
    + cbn [insert_sorted]. now rewrite sorted_by_cons, Hyx.
    + rewrite sorted_by_cons in Hs. apply andb_true_iff in Hs as [Hyz Hs].
      specialize (IH Hs). cbn [insert_sorted] in IH |- *.
      destruct (le x z); rewrite sorted_by_cons.
      * now rewrite Hyx, IH.
      * now rewrite Hyz, IH.
Qed.

Lemma sort_by_sorted {A} (le : A -> A -> bool) (l : list A) :
  (forall a b, le a b = false -> le b a = true) ->
  sorted_by le (sort_by le l) = true.
Proof.
  intros Htot. unfold sort_by.
  induction l as [|x l IH]; [reflexivity|].
  cbn [fold_right]. now apply insert_sorted_sorted.
Qed.

Lemma firstn_sorted {A} (le : A -> A -> bool) (n : nat) (l : list A) :
  sorted_by le l = true -> sorted_by le (firstn n l) = true.
Proof.
  revert l. induction n as [|n IH]; intros l Hs; [reflexivity|].
  destruct l as [|x l]; [reflexivity|].
  cbn [firstn]. destruct l as [|y l]; [now destruct n|].
  rewrite sorted_by_cons in Hs. apply andb_true_iff in Hs as [Hxy Hs].
  specialize (IH _ Hs). destruct n as [|n]; [reflexivity|].
  cbn [firstn] in IH |- *. now rewrite sorted_by_cons, Hxy, IH.
Qed.

Lemma in_firstn {A} (n : nat) (x : A) (l : list A) :
  In x (firstn n l) -> In x l.
Proof.
  intros H. rewrite <- (firstn_skipn n l). apply in_or_app. now left.
Qed.

(** The order of the query is total: of two rows one comes first. *)
Lemma order_before_total (a b : row B) :
  order_before B a b = false -> order_before B b a = true.
Proof.
  unfold order_before, String.ltb. intros H.
  apply orb_false_iff in H as [Hlt Heq].
  rewrite (String.compare_antisym (measured_at B a) (measured_at B b)).
  destruct (String.compare (measured_at B b) (measured_at B a)) eqn:C;
    cbn [CompOpp orb]; [|discriminate|reflexivity].
  apply String.compare_eq_iff in C.
  rewrite C, String.eqb_refl in Heq |- *. cbn [andb] in Heq |- *.
  apply Z.leb_gt in Heq. apply Z.leb_le. lia.
Qed.

(** The conditions built for the text fields of the filters. *)
Lemma field_conditions_text (fields : list string) (filters : dict B)
    (cs : list (row B -> bool)) (field : string) (v : value B) :
  field_conditions B fields filters = Ret cs ->
  In field fields -> field <> "replicate" ->
  dict_get B field filters = Some v -> is_none B v = false ->
  In (text_equals B field (py_str B v)) cs.
Proof.
  revert cs. induction fields as [|f fields IH];
    intros cs Hc Hin Hne Hget Hnone; [destruct Hin|].
  cbn [field_conditions] in Hc.
  destruct Hin as [->|Hin].
  - rewrite Hget, Hnone in Hc.
    replace (field =? "replicate") with false in Hc
      by (symmetry; now apply String.eqb_neq).
    destruct (field_conditions B fields filters); cbn [bind_outcome] in Hc;
      [|discriminate].
    injection Hc as <-. now left.
  - destruct (dict_get B f filters) as [w|];
      [|now apply IH].
    destruct (is_none B w); [now apply IH|].
    destruct (f =? "replicate").
    + destruct (py_int B w); cbn [bind_outcome] in Hc; [|discriminate].
      destruct (field_conditions B fields filters) as [cs'|];
        cbn [bind_outcome] in Hc; [|discriminate].
      injection Hc as <-. right. now apply IH.
    + destruct (field_conditions B fields filters) as [cs'|];
        cbn [bind_outcome] in Hc; [|discriminate].
      injection Hc as <-. right. now apply IH.
Qed.

Lemma query_filters_inv (db_path : string) (fs : dict B)
    (limit : value B) (db db' : database B) (total : nat) (lim : Z)
    (returned : list (row B)) :
  query_wetlab_results B db_path (Some (Dict B fs)) limit db
  = (db', QueryCompleted B total lim returned) ->
  exists cs,
    field_conditions B _WETLAB_QUERYABLE_FIELDS fs = Ret cs
    /\ (1 <= lim)%Z
    /\ returned
       = select_rows B (cs ++ range_conditions B fs) lim
           (_ensure_wetlab_table B db).
Proof.
  unfold query_wetlab_results.
  destruct (filter _ (dict_keys B fs)); [|discriminate].
  destruct (py_int B limit) as [n|e]; [|discriminate].
  destruct (_connect_wetlab_db B db_path); [|discriminate].
  destruct (field_conditions B _WETLAB_QUERYABLE_FIELDS fs) as [cs|e]
    eqn:Hcs; [|discriminate].
  destruct (bind_values B _) as [[]|]; [|discriminate].
  destruct (fits_int64 (Z.max 1 n)); [|discriminate].
  intros H. injection H as _ _ <- <-.
  exists cs. split; [reflexivity|]. split; [lia | reflexivity].
Qed.

(** X22. The rows a completed query returns are rows of the table, each holds
    in every filtered text column the text of the filter, and they come
    newest first: by [measured_at] descending, then by [result_id]
    descending. *)
Theorem query_returns_matching_rows_in_order (db_path : string)
    (fs : dict B) (limit : value B) (db db' : database B) (total : nat)
    (lim : Z) (returned : list (row B)) :
  query_wetlab_results B db_path (Some (Dict B fs)) limit db
  = (db', QueryCompleted B total lim returned) ->
  Forall (fun r => In r (rows B (_ensure_wetlab_table B db))) returned
  /\ (forall field v,
        In field _WETLAB_QUERYABLE_FIELDS -> field <> "replicate" ->
        dict_get B field fs = Some v -> is_none B v = false ->
        Forall (fun r => text_column B field r = Some (py_str B v))
          returned)
  /\ sorted_by (order_before B) returned = true.
Proof.
  intros Hq.
  destruct (query_filters_inv _ _ _ _ _ _ _ _ Hq)
    as (cs & Hcs & Hlim & ->).
  unfold select_rows.
  destruct (Z.ltb_spec lim 0) as [Hneg|_]; [lia|].
  set (t := _ensure_wetlab_table B db).
  assert (Hin : forall r,
             In r (firstn (Z.to_nat lim)
                     (sort_by (order_before B)
                        (filter (where_clause B
                                   (cs ++ range_conditions B fs))
                           (rows B t)))) ->
             In r (rows B t)
             /\ where_clause B (cs ++ range_conditions B fs) r = true).
  { intros r Hr. apply in_firstn in Hr. apply sort_by_in in Hr.
    now apply filter_In in Hr. }
  split; [apply Forall_forall; intros r Hr; now apply Hin|].
  split.
  - intros field v Hfield Hne Hget Hnone.
    apply Forall_forall. intros r Hr. apply Hin in Hr as [_ Hw].
    unfold where_clause in Hw. rewrite forallb_forall in Hw.
    pose proof (field_conditions_text _ _ _ field v Hcs Hfield Hne Hget
                  Hnone) as Hc.
    specialize (Hw _ (in_or_app _ _ _ (or_introl Hc))).
    unfold text_equals in Hw.
    destruct (text_column B field r) as [y|]; [|discriminate].
    apply String.eqb_eq in Hw. now subst.
  - apply firstn_sorted, sort_by_sorted. apply order_before_total.
Qed.

(** X23. A filter key outside the whitelist stops the query before the
    database is opened, and the reply is an error. *)
Theorem unknown_filter_rejected (db_path : string) (fs : dict B)
    (limit : value B) (db : database B) (k : string) :
  In k (dict_keys B fs) -> mem_string k (allowed_filter_keys) = false ->
  exists message,
    query_wetlab_results B db_path (Some (Dict B fs)) limit db
    = (db, QueryError B ("Error: unsupported filter fields: " ++ message)).
Proof.
  intros Hin Hk. unfold query_wetlab_results.
  assert (Hin' : In k (filter
                         (fun k => negb (mem_string k allowed_filter_keys))
                         (dict_keys B fs))).
  { apply filter_In. split; [exact Hin | now rewrite Hk]. }
  destruct (filter _ (dict_keys B fs));
    [destruct Hin' | eexists; reflexivity].
Qed.


(** *** Reading back what was stored *)

Lemma plain_key_filters (d : dict B) :
  plain_key B d ->
  exists e s a c rp,
    dict_get B "experiment_id" d = Some e
    /\ dict_get B "sample_id" d = Some s
    /\ dict_get B "assay_name" d = Some a
    /\ dict_get B "condition" d = Some c
    /\ dict_get B "replicate" d = Some rp
    /\ key_filters B d
       = [("experiment_id", e); ("sample_id", s); ("assay_name", a);
          ("condition", c); ("replicate", rp)]
    /\ is_none B e = false /\ is_none B s = false /\ is_none B a = false
    /\ is_none B c = false /\ is_none B rp = false
    /\ strip (py_str B e) = py_str B e /\ strip (py_str B s) = py_str B s
    /\ strip (py_str B a) = py_str B a /\ strip (py_str B c) = py_str B c.
Proof.
  intros Hp.
  destruct (Hp "experiment_id") as (e & He & Ne & Se); [unfold _WETLAB_KEY_FIELDS; cbn [In];
     repeat (first [left; reflexivity | right])|].
  destruct (Hp "sample_id") as (s & Hs & Ns & Ss); [unfold _WETLAB_KEY_FIELDS; cbn [In];
     repeat (first [left; reflexivity | right])|].
  destruct (Hp "assay_name") as (a & Ha & Na & Sa); [unfold _WETLAB_KEY_FIELDS; cbn [In];
     repeat (first [left; reflexivity | right])|].
  destruct (Hp "condition") as (c & Hc & Nc & Sc); [unfold _WETLAB_KEY_FIELDS; cbn [In];
     repeat (first [left; reflexivity | right])|].
  destruct (Hp "replicate") as (rp & Hrp & Nrp & _); [unfold _WETLAB_KEY_FIELDS; cbn [In];
     repeat (first [left; reflexivity | right])|].
  exists e, s, a, c, rp.
  unfold key_filters. cbn [flat_map _WETLAB_KEY_FIELDS].
  rewrite He, Hs, Ha, Hc, Hrp. cbn [app].
  repeat (split; [assumption || reflexivity || (now (apply Se || apply Ss
                     || apply Sa || apply Sc))|]).
  now apply Sc.
Qed.


(** The conditions the key filters give select the rows under the key. *)
Lemma key_filter_conditions (e s a c rp : value B) (z : Z) :
  py_int B rp = Ret z ->
  is_none B e = false -> is_none B s = false -> is_none B a = false ->
  is_none B c = false -> is_none B rp = false ->
  let fs := [("experiment_id", e); ("sample_id", s); ("assay_name", a);
             ("condition", c); ("replicate", rp)] in
  exists cs,
    field_conditions B _WETLAB_QUERYABLE_FIELDS fs = Ret cs
    /\ range_conditions B fs = []
    /\ field_values B _WETLAB_QUERYABLE_FIELDS fs
       = key_parameters (py_str B e, py_str B s, py_str B a, py_str B c, z)
    /\ range_values B fs = []
    /\ forall r,
         where_clause B cs r
         = under_key B (py_str B e, py_str B s, py_str B a, py_str B c, z) r.
Proof.
  intros Hz Ne Ns Na Nc Nrp fs.
  eexists. split; [|split; [|split; [|split]]].
  - unfold fs.
    cbn [field_conditions _WETLAB_QUERYABLE_FIELDS dict_get String.eqb
         Ascii.eqb Bool.eqb andb].
    rewrite Ne, Ns, Na, Nc, Nrp, Hz. cbn [bind_outcome].
    reflexivity.
  - reflexivity.
  - unfold fs.
    cbn [field_values _WETLAB_QUERYABLE_FIELDS dict_get String.eqb
         Ascii.eqb Bool.eqb andb].
    rewrite Ne, Ns, Na, Nc, Nrp, Hz. reflexivity.
  - reflexivity.
  - intros r. unfold where_clause, under_key, key_eqb, row_key.
    cbn [forallb]. unfold text_equals, text_column.
    cbn [String.eqb Ascii.eqb Bool.eqb andb].
    now rewrite andb_true_r, !andb_assoc.
Qed.

(** The key of a record whose values can be bound can be bound. *)
Lemma bindable_key_binds (d : dict B) (kk : key) :
  complete B d = true -> bindable B d ->
  record_key B d = Some kk ->
  bind_values B (key_parameters kk) = Ret tt.
Proof.
  intros Hcomplete
    [(rp & z & mv & x & Hrp & Hz & Hfit & Hmv & Hx & Hnan) Htexts] Hkk.
  destruct (build_values_ok B d rp mv z x Hcomplete Hrp Hz Hmv Hx)
    as (v & Hv & Hk & Hvz & Hvx).
  subst z x. unfold record_texts in Htexts. rewrite Hv in Htexts.
  rewrite Hk in Hkk. injection Hkk as <-.
  apply key_parameters_bind; [|exact Hfit].
  unfold texts_bind in *. unfold upsert_parameters in Htexts.
  cbn [bound_texts flat_map app] in Htexts.
  inversion Htexts as [|? ? H1 Ht1]; subst.
  inversion Ht1 as [|? ? H2 Ht2]; subst.
  inversion Ht2 as [|? ? H3 Ht3]; subst.
  inversion Ht3 as [|? ? H4 Ht4]; subst.
  unfold values_key. cbn [key_parameters bound_texts flat_map app].
  repeat constructor; assumption.
Qed.

(** X24. Round trip: after a complete record that can be bound (its
    replicate and measurement value convert, its texts can be encoded)
    is stored, the query filtered by its key values finds exactly one
    row, and the row holds the measurement value of the record. *)
Theorem upsert_then_query_finds (now db_path : string) (d : dict B)
    (limit : value B) (n : Z) (db : database B) :
  well_formed B db ->
  _connect_wetlab_db B db_path = Ret tt ->
  complete B d = true ->
  bindable B d ->
  plain_key B d ->
  py_int B limit = Ret n ->
  fits_int64 (Z.max 1 n) = true ->
  exists db' r mv,
    query_wetlab_results B db_path (Some (Dict B (key_filters B d))) limit
      (fst (upsert_wetlab_results B now db_path [Dict B d] db))
    = (db', QueryCompleted B 1 (Z.max 1 n) [r])
    /\ dict_get B "measurement_value" d = Some mv
    /\ py_float B mv = Ret (measurement_value B r).
Proof.
  intros Hwf Hc Hcomplete Hbind Hplain Hn Hfit.
  destruct (plain_key_filters d Hplain)
    as (e & s & a & c & rp & He & Hs & Ha & Hcd & Hrp & Hfs
        & Ne & Ns & Na & Nc & Nrp & Se & Ss & Sa & Sc).
  pose proof Hbind as [(rp' & z & mv' & x & Hrp' & Hz & Hfz & _) _].
  rewrite Hrp in Hrp'. injection Hrp' as <-.
  rewrite (upsert_one B now db_path (Dict B d) db Hc).
  destruct (upsert_step_stores B now 1 d
              {| ul_table := _ensure_wetlab_table B db
               ; ul_success_count := 0
               ; ul_error_details := [] |} Hcomplete Hbind
              (ensure_unique B db Hwf))
    as (k & r & mv & Hk & Hr & Hmv & Hf).
  assert (Hkey : k = (py_str B e, py_str B s, py_str B a, py_str B c, z)).
  { unfold record_key in Hk. rewrite He, Hs, Ha, Hcd, Hrp, Hz in Hk.
    injection Hk as <-. now rewrite Se, Ss, Sa, Sc. }
  destruct (key_filter_conditions e s a c rp z Hz Ne Ns Na Nc Nrp)
    as (cs & Hcs & Hrange & Hvals & Hrvals & Hwhere).
  pose proof (bindable_key_binds d k Hcomplete Hbind Hk) as Hbound.
  rewrite Hkey in Hbound.
  unfold query_wetlab_results. rewrite Hfs.
  replace (filter (fun k0 => negb (mem_string k0 allowed_filter_keys))
             (dict_keys B [("experiment_id", e); ("sample_id", s);
                           ("assay_name", a); ("condition", c);
                           ("replicate", rp)]))
    with (@nil string) by reflexivity.
  rewrite Hn, Hc, Hcs, Hrange, Hvals, Hrvals, !app_nil_r, Hbound, Hfit.
  cbn [_ensure_wetlab_table].
  unfold select_rows.
  destruct (Z.ltb_spec (Z.max 1 n) 0) as [Hneg|_]; [lia|].
  rewrite (filter_ext _ _ Hwhere). rewrite <- Hkey.
  unfold under_key. rewrite Hr.
  exists (Some (ul_table B
                  (upsert_step B now 1 (Dict B d)
                     {| ul_table := _ensure_wetlab_table B db
                      ; ul_success_count := 0
                      ; ul_error_details := [] |}))), r, mv.
  split; [|split; assumption].
  replace (Z.to_nat (Z.max 1 n)) with (S (Z.to_nat (Z.max 1 n) - 1))
    by lia.
  unfold sort_by. cbn [fold_right insert_sorted firstn List.length].
  now rewrite firstn_nil.
Qed.

Lemma field_conditions_replicate (fields : list string) (filters : dict B)
    (cs : list (row B -> bool)) (v : value B) :
  field_conditions B fields filters = Ret cs ->
  In "replicate" fields ->
  dict_get B "replicate" filters = Some v -> is_none B v = false ->
  exists z,
    py_int B v = Ret z
    /\ exists c, In c cs /\ forall r, c r = (replicate B r =? z)%Z.
Proof.
  revert cs. induction fields as [|f fields IH];
    intros cs Hc Hin Hget Hnone; [destruct Hin|].
  cbn [field_conditions] in Hc.
  destruct (String.eqb_spec f "replicate") as [->|Hne].
  - rewrite Hget, Hnone in Hc.
    destruct (py_int B v) as [z|]; cbn [bind_outcome] in Hc; [|discriminate].
    destruct (field_conditions B fields filters) as [cs'|];
      cbn [bind_outcome] in Hc; [|discriminate].
    injection Hc as <-. exists z. split; [reflexivity|].
    eexists. split; [now left | reflexivity].
  - destruct Hin as [Hf|Hin]; [congruence|].
    destruct (dict_get B f filters) as [w|]; [|now apply IH].
    destruct (is_none B w); [now apply IH|].
    destruct (field_conditions B fields filters) as [cs'|] eqn:Hrest;
      cbn [bind_outcome] in Hc; [|discriminate].
    injection Hc as <-.
    destruct (IH cs' eq_refl Hin Hget Hnone) as (z & Hz & c & Hc & Hcr).
    exists z. split; [exact Hz|]. exists c. split; [now right | exact Hcr].
Qed.

(** X29. The remaining filters of a completed query hold of every row it
    returns: the replicate equals [int] of the filter, and
    [measured_at] lies between the two bounds, both included, compared
    as text. *)
Theorem query_respects_replicate_and_range (db_path : string)
    (fs : dict B) (limit : value B) (db db' : database B) (total : nat)
    (lim : Z) (returned : list (row B)) :
  query_wetlab_results B db_path (Some (Dict B fs)) limit db
  = (db', QueryCompleted B total lim returned) ->
  (forall v,
     dict_get B "replicate" fs = Some v -> is_none B v = false ->
     exists z,
       py_int B v = Ret z /\ Forall (fun r => replicate B r = z) returned)
  /\ (forall v,
        dict_get B "measured_at_from" fs = Some v -> is_none B v = false ->
        Forall (fun r => String.leb (py_str B v) (measured_at B r) = true)
          returned)
  /\ (forall v,
        dict_get B "measured_at_to" fs = Some v -> is_none B v = false ->
        Forall (fun r => String.leb (measured_at B r) (py_str B v) = true)
          returned).
Proof.
  intros Hq.
  destruct (query_filters_inv _ _ _ _ _ _ _ _ Hq)
    as (cs & Hcs & Hlim & ->).
  unfold select_rows.
  destruct (Z.ltb_spec lim 0) as [Hneg|_]; [lia|].
  set (t := _ensure_wetlab_table B db).
  assert (Hin : forall r c,
             In r (firstn (Z.to_nat lim)
                     (sort_by (order_before B)
                        (filter (where_clause B
                                   (cs ++ range_conditions B fs))
                           (rows B t)))) ->
             In c (cs ++ range_conditions B fs) -> c r = true).
  { intros r c Hr Hc. apply in_firstn in Hr. apply sort_by_in in Hr.
    apply filter_In in Hr as [_ Hw].
    unfold where_clause in Hw. rewrite forallb_forall in Hw.
    now apply Hw. }
  split; [|split].
  - intros v Hget Hnone.
    destruct (field_conditions_replicate _ _ _ v Hcs) as (z & Hz & c & Hc & Hcr);
      [unfold _WETLAB_QUERYABLE_FIELDS; cbn [In];
       repeat (first [left; reflexivity | right])
      | exact Hget | exact Hnone |].
    exists z. split; [exact Hz|]. apply Forall_forall. intros r Hr.
    specialize (Hin r c Hr (in_or_app _ _ _ (or_introl Hc))).
    rewrite Hcr in Hin. now apply Z.eqb_eq.
  - intros v Hget Hnone. apply Forall_forall. intros r Hr.
    apply (Hin r (fun r => String.leb (py_str B v) (measured_at B r)) Hr).
    apply in_or_app. right. unfold range_conditions, range_bound.
    rewrite Hget, Hnone. now left.
  - intros v Hget Hnone. apply Forall_forall. intros r Hr.
    apply (Hin r (fun r => String.leb (measured_at B r) (py_str B v)) Hr).
    apply in_or_app. right. unfold range_conditions, range_bound.
    rewrite Hget, Hnone. apply in_or_app. right. now left.
Qed.

End WithBuiltins.

(** *** The theorems at work on the sample table *)

Lemma sample_db_well_formed : well_formed sample_builtins sample_db.
Proof.
  unfold sample_db.
  rewrite (upsert_one sample_builtins "t1" "lab.db" _ None eq_refl).
  apply upsert_step_unique. constructor.
Qed.

Lemma plain_record_bindable : bindable sample_builtins plain_record.
Proof.
  split; [exists (SInt 1), 1%Z, (SInt 40), 40%Z; repeat split|].
  apply Forall_forall. intros s _. reflexivity.
Qed.

Lemma plain_record_plain : plain_key sample_builtins plain_record.
Proof.
  intros f Hf. unfold _WETLAB_KEY_FIELDS in Hf. cbn [In] in Hf.
  repeat (destruct Hf as [<-|Hf];
          [eexists; split; [reflexivity|];
           split; [reflexivity | intros _; vm_compute; reflexivity]|]).
  destruct Hf.
Qed.

Lemma incomplete_key_rejected_witness :
  In "sample_id" (missing_key_fields sample_builtins partial_key)
  /\ delete_wetlab_result sample_builtins "lab.db"
       (Dict sample_builtins partial_key) sample_db
     = (sample_db,
        DeleteError ("Error: Missing key fields: "
                     ++ join ", "
                          (missing_key_fields sample_builtins partial_key)))
  /\ update_wetlab_result sample_builtins "t2" "lab.db"
       (Dict sample_builtins partial_key) new_value sample_db
     = (sample_db,
        UpdateError ("Error: Missing key fields: "
                     ++ join ", "
                          (missing_key_fields sample_builtins partial_key))).
Proof.
  apply (incomplete_key_rejected sample_builtins "t2" "lab.db" partial_key
           new_value sample_db "sample_id").
  - right. left. reflexivity.
  - reflexivity.
Defined.

Lemma delete_removes_key_witness :
  exists t' n,
    delete_wetlab_result sample_builtins "lab.db"
      (Dict sample_builtins (sample_record (SInt 1))) sample_db
    = (Some t', DeleteCompleted n)
    /\ filter (under_key sample_builtins sample_key)
         (rows sample_builtins t') = []
    /\ rows sample_builtins t'
       = filter (fun r => negb (under_key sample_builtins sample_key r))
           (rows sample_builtins
              (_ensure_wetlab_table sample_builtins sample_db))
    /\ n = List.length
             (filter (under_key sample_builtins sample_key)
                (rows sample_builtins
                   (_ensure_wetlab_table sample_builtins sample_db)))
    /\ n <= 1
    /\ unique_keys sample_builtins t'.
Proof.
  apply (delete_removes_key sample_builtins "lab.db"
           (sample_record (SInt 1)) sample_key sample_db).
  - exact sample_db_well_formed.
  - reflexivity.
  - vm_compute. reflexivity.
  - apply Forall_forall. intros s _. reflexivity.
  - reflexivity.
Defined.

Lemma upsert_then_delete_restores_witness :
  exists t2,
    delete_wetlab_result sample_builtins "lab.db"
      (Dict sample_builtins plain_record)
      (fst (upsert_wetlab_results sample_builtins "t2" "lab.db"
              [Dict sample_builtins plain_record] sample_db))
    = (Some t2, DeleteCompleted 1)
    /\ rows sample_builtins t2
       = rows sample_builtins
           (_ensure_wetlab_table sample_builtins sample_db).
Proof.
  apply (upsert_then_delete_restores sample_builtins "t2" "lab.db"
           plain_record sample_db).
  - exact sample_db_well_formed.
  - reflexivity.
  - reflexivity.
  - exact plain_record_bindable.
  - vm_compute. reflexivity.
Defined.

Lemma upsert_keeps_unique_witness :
  well_formed sample_builtins
    (fst (upsert_wetlab_results sample_builtins "t2" "lab.db" mixed_batch
            sample_db)).
Proof.
  apply (upsert_keeps_unique sample_builtins "t2" "lab.db" mixed_batch
           sample_db).
  exact sample_db_well_formed.
Defined.

Lemma upsert_counts_add_up_witness :
  exists db' s failures,
    upsert_wetlab_results sample_builtins "t2" "lab.db" mixed_batch
      sample_db
    = (db', UpsertCompleted 3 s failures)
    /\ 3 = List.length mixed_batch
    /\ s + List.length failures = 3.
Proof.
  eexists _, _, _. split; [vm_compute; reflexivity|].
  eapply (upsert_counts_add_up sample_builtins "t2" "lab.db" mixed_batch
            sample_db).
  vm_compute. reflexivity.
Defined.

Lemma upsert_leaves_other_keys_witness :
  filter (under_key sample_builtins sample_key)
    (rows sample_builtins
       (_ensure_wetlab_table sample_builtins
          (fst (upsert_wetlab_results sample_builtins "t2" "lab.db"
                  [Dict sample_builtins plain_record] sample_db))))
  = filter (under_key sample_builtins sample_key)
      (rows sample_builtins
         (_ensure_wetlab_table sample_builtins sample_db)).
Proof.
  apply (upsert_leaves_other_keys sample_builtins "t2" "lab.db"
           [Dict sample_builtins plain_record] sample_db sample_key).
  intros d [Hd|[]]. injection Hd as <-. vm_compute. discriminate.
Defined.

Lemma update_keeps_rows_and_keys_witness :
  exists db' n,
    update_wetlab_result sample_builtins "t3" "lab.db"
      (Dict sample_builtins (sample_record (SInt 1))) new_value sample_db
    = (db', UpdateCompleted n)
    /\ exists t' kk,
         db' = Some t'
         /\ key_values sample_builtins (sample_record (SInt 1)) = Ret kk
         /\ map (row_key sample_builtins) (rows sample_builtins t')
            = map (row_key sample_builtins)
                (rows sample_builtins
                   (_ensure_wetlab_table sample_builtins sample_db))
         /\ map (result_id sample_builtins) (rows sample_builtins t')
            = map (result_id sample_builtins)
                (rows sample_builtins
                   (_ensure_wetlab_table sample_builtins sample_db))
         /\ map (created_at sample_builtins) (rows sample_builtins t')
            = map (created_at sample_builtins)
                (rows sample_builtins
                   (_ensure_wetlab_table sample_builtins sample_db))
         /\ filter (fun r => negb (under_key sample_builtins kk r))
              (rows sample_builtins t')
            = filter (fun r => negb (under_key sample_builtins kk r))
                (rows sample_builtins
                   (_ensure_wetlab_table sample_builtins sample_db))
         /\ n = List.length
                  (filter (under_key sample_builtins kk)
                     (rows sample_builtins
                        (_ensure_wetlab_table sample_builtins sample_db)))
         /\ n <= 1
         /\ (n = 0 ->
             rows sample_builtins t'
             = rows sample_builtins
                 (_ensure_wetlab_table sample_builtins sample_db))
         /\ unique_keys sample_builtins t'.
Proof.
  eexists _, _. split; [vm_compute; reflexivity|].
  eapply (update_keeps_rows_and_keys sample_builtins "t3" "lab.db"
            (sample_record (SInt 1)) new_value sample_db).
  - exact sample_db_well_formed.
  - vm_compute. reflexivity.
Defined.

Lemma bad_updates_rejected_witness :
  exists message,
    update_wetlab_result sample_builtins "t3" "lab.db"
      (Dict sample_builtins (sample_record (SInt 1)))
      (Dict sample_builtins [("result_id", SInt 3)]) sample_db
    = (sample_db, UpdateError message).
Proof.
  apply (bad_updates_rejected sample_builtins "t3" "lab.db"
           (Dict sample_builtins (sample_record (SInt 1)))
           (Dict sample_builtins [("result_id", SInt 3)]) sample_db).
  right. exists "result_id". split; [left; reflexivity | reflexivity].
Defined.

Lemma update_stores_value_witness :
  exists db' n,
    update_wetlab_result sample_builtins "t3" "lab.db"
      (Dict sample_builtins (sample_record (SInt 1))) new_value sample_db
    = (db', UpdateCompleted n)
    /\ exists t' kk,
         db' = Some t'
         /\ key_values sample_builtins (sample_record (SInt 1)) = Ret kk
         /\ Forall (fun r => measurement_value sample_builtins r = 9%Z
                             /\ updated_at sample_builtins r = "t3")
              (filter (under_key sample_builtins kk)
                 (rows sample_builtins t')).
Proof.
  eexists _, _. split; [vm_compute; reflexivity|].
  eapply (update_stores_value sample_builtins "t3" "lab.db"
            (sample_record (SInt 1)) [("measurement_value", SInt 9)]
            sample_db _ _ (SInt 9) 9%Z).
  - vm_compute. reflexivity.
  - reflexivity.
  - reflexivity.
Defined.

Lemma query_returns_matching_rows_in_order_witness :
  exists db' total lim returned,
    query_wetlab_results sample_builtins "lab.db"
      (Some (Dict sample_builtins by_experiment)) (SInt 10) sample_db
    = (db', QueryCompleted sample_builtins total lim returned)
    /\ Forall (fun r => In r (rows sample_builtins
                                (_ensure_wetlab_table sample_builtins
                                   sample_db))) returned
    /\ (forall field v,
          In field _WETLAB_QUERYABLE_FIELDS -> field <> "replicate" ->
          dict_get sample_builtins field by_experiment = Some v ->
          is_none sample_builtins v = false ->
          Forall (fun r => text_column sample_builtins field r
                           = Some (py_str sample_builtins v)) returned)
    /\ sorted_by (order_before sample_builtins) returned = true.
Proof.
  eexists _, _, _, _. split; [vm_compute; reflexivity|].
  eapply (query_returns_matching_rows_in_order sample_builtins "lab.db"
            by_experiment (SInt 10) sample_db).
  vm_compute. reflexivity.
Defined.

Lemma unknown_filter_rejected_witness :
  exists message,
    query_wetlab_results sample_builtins "lab.db"
      (Some (Dict sample_builtins [("notes", SText "rerun")])) (SInt 10)
      sample_db
    = (sample_db,
       QueryError sample_builtins
         ("Error: unsupported filter fields: " ++ message)).
Proof.
  apply (unknown_filter_rejected sample_builtins "lab.db"
           [("notes", SText "rerun")] (SInt 10) sample_db "notes").
  - left. reflexivity.
  - reflexivity.
Defined.

Lemma upsert_then_query_finds_witness :
  exists db' r mv,
    query_wetlab_results sample_builtins "lab.db"
      (Some (Dict sample_builtins (key_filters sample_builtins plain_record)))
      (SInt 10)
      (fst (upsert_wetlab_results sample_builtins "t2" "lab.db"
              [Dict sample_builtins plain_record] sample_db))
    = (db', QueryCompleted sample_builtins 1 (Z.max 1 10) [r])
    /\ dict_get sample_builtins "measurement_value" plain_record = Some mv
    /\ py_float sample_builtins mv
       = Ret (measurement_value sample_builtins r).
Proof.
  apply (upsert_then_query_finds sample_builtins "t2" "lab.db" plain_record
           (SInt 10) 10%Z sample_db).
  - exact sample_db_well_formed.
  - reflexivity.
  - reflexivity.
  - exact plain_record_bindable.
  - exact plain_record_plain.
  - reflexivity.
  - reflexivity.
Defined.

Lemma query_respects_replicate_and_range_witness :
  exists db' total lim returned,
    query_wetlab_results sample_builtins "lab.db"
      (Some (Dict sample_builtins dated_filters)) (SInt 10) sample_db
    = (db', QueryCompleted sample_builtins total lim returned)
    /\ (forall v,
          dict_get sample_builtins "replicate" dated_filters = Some v ->
          is_none sample_builtins v = false ->
          exists z,
            py_int sample_builtins v = Ret z
            /\ Forall (fun r => replicate sample_builtins r = z) returned)
    /\ (forall v,
          dict_get sample_builtins "measured_at_from" dated_filters
          = Some v ->
          is_none sample_builtins v = false ->
          Forall (fun r => String.leb (py_str sample_builtins v)
                             (measured_at sample_builtins r) = true)
            returned)
    /\ (forall v,
          dict_get sample_builtins "measured_at_to" dated_filters = Some v ->
          is_none sample_builtins v = false ->
          Forall (fun r => String.leb (measured_at sample_builtins r)
                             (py_str sample_builtins v) = true)
            returned).
Proof.
  eexists _, _, _, _. split; [vm_compute; reflexivity|].
  eapply (query_respects_replicate_and_range sample_builtins "lab.db"
            dated_filters (SInt 10) sample_db).
  vm_compute. reflexivity.
Defined.

End WetlabMoreSpec.

(* ================================================================== *)
(** ** The wetlab results store: what a call leaves alone *)
(* ================================================================== *)

Module WetlabFrameSpec.
Import PyStr PyExn Wetlab WetlabReference WetlabMore Samples
  WetlabSamples.

Section WithBuiltins.

Variable B : Builtins.

(** X25. Reading never writes: whatever the filters, the limit and the path,
    the table after a query is the table before it, and so it is after
    [init_wetlab_results_table]. *)
Theorem query_and_init_keep_table (db_path : string)
    (filters : option (pyobj B)) (limit : value B) (db : database B) :
  _ensure_wetlab_table B
    (fst (query_wetlab_results B db_path filters limit db))
  = _ensure_wetlab_table B db
  /\ _ensure_wetlab_table B (fst (init_wetlab_results_table B db_path db))
     = _ensure_wetlab_table B db.
Proof.
  split.
  - unfold query_wetlab_results.
    destruct filters as [[|fs]|]; try reflexivity.
    + destruct (filter _ (dict_keys B fs)); [|reflexivity].
      destruct (py_int B limit); [|reflexivity].
      destruct (_connect_wetlab_db B db_path); [|reflexivity].
      destruct (field_conditions B _ fs); [|reflexivity].
      destruct (bind_values B _); [|reflexivity].
      destruct (fits_int64 _); reflexivity.
    + destruct (filter _ (dict_keys B [])); [|reflexivity].
      destruct (py_int B limit); [|reflexivity].
      destruct (_connect_wetlab_db B db_path); [|reflexivity].
      destruct (field_conditions B _ []); [|reflexivity].
      destruct (bind_values B _); [|reflexivity].
      destruct (fits_int64 _); reflexivity.
  - unfold init_wetlab_results_table.
    destruct (_connect_wetlab_db B db_path); reflexivity.
Qed.

Lemma upsert_step_frame (now : string) (idx : nat) (record : pyobj B)
    (l : upsert_loop B) :
  ul_success_count B l <= ul_success_count B (upsert_step B now idx record l)
  /\ (ul_success_count B (upsert_step B now idx record l)
      = ul_success_count B l ->
      ul_table B (upsert_step B now idx record l) = ul_table B l).
Proof.
  unfold upsert_step. destruct record as [|d].
  - cbn [ul_success_count ul_table]. split; [lia | reflexivity].
  - destruct (filter _ _WETLAB_REQUIRED_RECORD_FIELDS).
    + destruct (bind_outcome _ _); cbn [ul_success_count ul_table];
        (split; [lia|]); intros H; [lia | reflexivity].
    + cbn [ul_success_count ul_table]. split; [lia | reflexivity].
Qed.

Lemma upsert_loop_frame (now : string) (records : list (pyobj B)) :
  forall (idx : nat) (l : upsert_loop B),
    ul_success_count B l
    <= ul_success_count B (upsert_loop_from B now idx records l)
    /\ (ul_success_count B (upsert_loop_from B now idx records l)
        = ul_success_count B l ->
        ul_table B (upsert_loop_from B now idx records l) = ul_table B l).
Proof.
  induction records as [|r records IH]; intros idx l.
  - cbn [upsert_loop_from]. split; [lia | reflexivity].
  - cbn [upsert_loop_from].
    destruct (IH (S idx) (upsert_step B now idx r l)) as [Hle Heq].
    destruct (upsert_step_frame now idx r l) as [Hle1 Heq1].
    split; [lia|]. intros H.
    rewrite Heq by lia. apply Heq1. lia.
Qed.

(** X26. A write that fails changes nothing. A delete or an update that
    replies with an error, for whatever reason, leaves the table as it
    was, and so does an upsert that replies with an error or stores none
    of its records. *)
Theorem failed_write_changes_nothing (now db_path : string)
    (key updates : pyobj B) (records : list (pyobj B)) (db : database B) :
  (forall db' message,
     delete_wetlab_result B db_path key db = (db', DeleteError message) ->
     _ensure_wetlab_table B db' = _ensure_wetlab_table B db)
  /\ (forall db' message,
        update_wetlab_result B now db_path key updates db
        = (db', UpdateError message) ->
        _ensure_wetlab_table B db' = _ensure_wetlab_table B db)
  /\ (forall db' message,
        upsert_wetlab_results B now db_path records db
        = (db', UpsertError message) ->
        _ensure_wetlab_table B db' = _ensure_wetlab_table B db)
  /\ (forall db' n failures,
        upsert_wetlab_results B now db_path records db
        = (db', UpsertCompleted n 0 failures) ->
        _ensure_wetlab_table B db' = _ensure_wetlab_table B db).
Proof.
  split; [|split; [|split]].
  - intros db' m. unfold delete_wetlab_result.
    destruct (_validate_wetlab_key B key) as [[|] err];
      destruct key as [|k];
      try (intros H; injection H as <- _; reflexivity).
    destruct (_connect_wetlab_db B db_path);
      [|intros H; injection H as <- _; reflexivity].
    destruct (bind_outcome _ _) as [[t' n]|e]; intros H;
      [discriminate | injection H as <- _; reflexivity].
  - intros db' m. unfold update_wetlab_result.
    destruct (_validate_wetlab_key B key) as [[|] err];
      destruct key as [|k];
      try (intros H; injection H as <- _; reflexivity).
    destruct updates as [|[|kv u]];
      try (intros H; injection H as <- _; reflexivity).
    destruct (filter _ (map fst (dict_items B (kv :: u))));
      [|intros H; injection H as <- _; reflexivity].
    destruct (_connect_wetlab_db B db_path);
      [|intros H; injection H as <- _; reflexivity].
    destruct (bind_outcome _ _) as [[t' n]|e]; intros H;
      [discriminate | injection H as <- _; reflexivity].
  - intros db' m. unfold upsert_wetlab_results.
    destruct records as [|r records];
      [intros H; injection H as <- _; reflexivity|].
    destruct (_connect_wetlab_db B db_path); intros H;
      [discriminate | injection H as <- _; reflexivity].
  - intros db' n failures. unfold upsert_wetlab_results.
    destruct records as [|r records]; [discriminate|].
    destruct (_connect_wetlab_db B db_path); [|discriminate].
    intros H. injection H as <- _ Hs _.
    cbn [_ensure_wetlab_table].
    destruct (upsert_loop_frame now (r :: records) 1
                {| ul_table := _ensure_wetlab_table B db
                 ; ul_success_count := 0
                 ; ul_error_details := [] |}) as [_ Heq].
    cbn [ul_success_count ul_table] in Heq. now apply Heq.
Qed.

End WithBuiltins.

Lemma failed_write_changes_nothing_witness :
  _ensure_wetlab_table sample_builtins
    (fst (update_wetlab_result sample_builtins "t3" "lab.db"
            (Dict sample_builtins (sample_record (SInt 1)))
            (Dict sample_builtins [("measurement_value", SNone)])
            sample_db))
  = _ensure_wetlab_table sample_builtins sample_db.
Proof.
  eapply (proj1 (proj2 (failed_write_changes_nothing sample_builtins "t3"
                          "lab.db"
                          (Dict sample_builtins (sample_record (SInt 1)))
                          (Dict sample_builtins
                             [("measurement_value", SNone)])
                          mixed_batch sample_db))).
  vm_compute. reflexivity.
Defined.

End WetlabFrameSpec.

Module WetlabFormatSpec.
Import PyStr WetlabFormat.














End WetlabFormatSpec.

(* ================================================================== *)
(** ** The curated guide: no document is lost *)
(* ================================================================== *)

Module DocsSpec.
Import PyStr Docs.

Section WithTitle.

Variable title : string -> string.

Lemma is_used_cons (i j : nat) (used : list nat) :
  is_used i (j :: used) = (i =? j)%nat || is_used i used.
Proof. reflexivity. Qed.

(** The last loop appends one block for every document from position
    [idx] on that has a text and is not in [used]. *)
Lemma pending_texts_exist (docs : list (string * string)) (idx : nat)
    (used : list nat) :
  exists pending,
    (forall out,
       remaining title docs idx used out
       = (out ++ blocks pending)%list)
    /\ map snd pending
       = filter (fun t => negb (t =? ""))
           (map snd
              (map snd
                 (filter (fun p => negb (is_used (fst p) used))
                    (combine (seq idx (List.length docs)) docs)))).
Proof.
  revert idx. induction docs as [|[fname text] docs IH]; intros idx.
  - exists []. split; [intros out; cbn; now rewrite app_nil_r | reflexivity].
  - destruct (IH (S idx)) as (pending & Hrem & Htexts).
    cbn [remaining List.length seq combine filter fst].
    destruct (is_used idx used) eqn:Hu; cbn [negb andb].
    + exists pending. split; [exact Hrem | exact Htexts].
    + cbn [map snd filter]. destruct (text =? "") eqn:Ht; cbn [negb].
      * exists pending. split; [exact Hrem | exact Htexts].
      * exists ((derived_title title fname, text) :: pending). split.
        -- intros out. rewrite Hrem. unfold blocks. cbn [map fst snd].
           now rewrite <- app_assoc.
        -- cbn [map snd]. now rewrite Htexts.
Qed.

End WithTitle.

(** The texts of the documents at positions outside [used]. *)
Lemma unused_all (docs : list (string * string)) (idx : nat) :
  map snd (filter (fun p => negb (is_used (fst p) []))
             (combine (seq idx (List.length docs)) docs))
  = docs.
Proof.
  revert idx. induction docs as [|d docs IH]; intros idx; [reflexivity|].
  cbn [List.length seq combine filter fst is_used existsb negb map snd].
  now rewrite IH.
Qed.

(** Marking a position before [idx] changes nothing from [idx] on. *)
Lemma unused_earlier (docs : list (string * string)) (idx j : nat)
    (used : list nat) :
  j < idx ->
  filter (fun p => negb (is_used (fst p) (j :: used)))
    (combine (seq idx (List.length docs)) docs)
  = filter (fun p => negb (is_used (fst p) used))
      (combine (seq idx (List.length docs)) docs).
Proof.
  revert idx. induction docs as [|d docs IH]; intros idx Hj; [reflexivity|].
  cbn [List.length seq combine filter fst].
  rewrite is_used_cons.
  replace (idx =? j)%nat with false
    by (symmetry; apply Nat.eqb_neq; lia).
  cbn [orb]. rewrite IH by lia. reflexivity.
Qed.

(** What [pick_first] does: nothing, or it marks one position that was
    free, matched a keyword, and whose text it returns. *)
Lemma pick_first_from_spec (keywords : list string)
    (docs : list (string * string)) (idx : nat) (used : list nat) :
  pick_first_from keywords docs idx used = (used, "")
  \/ exists before fname text after,
       docs = (before ++ (fname, text) :: after)%list
       /\ pick_first_from keywords docs idx used
          = ((idx + List.length before) :: used, text)
       /\ is_used (idx + List.length before) used = false
       /\ existsb (fun k => contains k fname) keywords = true.
Proof.
  revert idx. induction docs as [|[fname text] docs IH]; intros idx.
  - now left.
  - cbn [pick_first_from].
    destruct (is_used idx used) eqn:Hu;
      [|destruct (existsb (fun k => contains k fname) keywords) eqn:Hk].
    + destruct (IH (S idx)) as [H|(b & f & t & a & -> & H & Hfree & Hkw)].
      * now left.
      * right. exists ((fname, text) :: b), f, t, a.
        cbn [app List.length]. rewrite Nat.add_succ_r.
        repeat split; assumption.
    + right. exists [], fname, text, docs. cbn [app List.length].
      rewrite Nat.add_0_r. repeat split; assumption.
    + destruct (IH (S idx)) as [H|(b & f & t & a & -> & H & Hfree & Hkw)].
      * now left.
      * right. exists ((fname, text) :: b), f, t, a.
        cbn [app List.length]. rewrite Nat.add_succ_r.
        repeat split; assumption.
Qed.

(** Marking a free position takes its document, and no other, out of
    those still to be placed. *)
Lemma unused_mark (before after : list (string * string))
    (d : string * string) (idx : nat) (used : list nat) :
  is_used (idx + List.length before) used = false ->
  Permutation
    (map snd (filter (fun p => negb (is_used (fst p) used))
                (combine (seq idx (List.length (before ++ d :: after)))
                   (before ++ d :: after))))
    (d :: map snd
            (filter (fun p => negb (is_used (fst p)
                                      ((idx + List.length before) :: used)))
               (combine (seq idx (List.length (before ++ d :: after)))
                  (before ++ d :: after)))).
Proof.
  revert idx. induction before as [|b before IH]; intros idx Hfree.
  - cbn [List.length app] in *. rewrite Nat.add_0_r in *.
    cbn [seq combine filter fst]. rewrite Hfree, is_used_cons.
    rewrite Nat.eqb_refl. cbn [orb negb map snd].
    rewrite unused_earlier by lia. reflexivity.
  - cbn [List.length app] in *. rewrite Nat.add_succ_r in *.
    cbn [seq combine filter fst]. rewrite is_used_cons.
    replace (idx =? S (idx + List.length before))%nat with false
      by (symmetry; apply Nat.eqb_neq; lia).
    cbn [orb].
    specialize (IH (S idx)). cbn [Nat.add] in IH. specialize (IH Hfree).
    destruct (is_used idx used); cbn [negb map snd].
    + exact IH.
    + rewrite IH. apply perm_swap.
Qed.

Lemma filter_perm {A} (f : A -> bool) (l l' : list A) :
  Permutation l l' -> Permutation (filter f l) (filter f l').
Proof.
  induction 1 as [|x l l' _ IH|x y l|l l' l'' _ IH1 _ IH2];
    cbn [filter].
  - constructor.
  - destruct (f x); [now constructor | exact IH].
  - destruct (f x), (f y); try reflexivity. apply perm_swap.
  - now transitivity (filter f l').
Qed.

(** The invariant of the loop over the sections: the texts already
    placed, with those still to be placed, are the texts of the
    documents. *)
Lemma curated_keeps_texts (docs : list (string * string))
    (secs : list (string * list string)) :
  forall (used : list nat) (placed : list (string * string)),
    Permutation
      (map snd placed
       ++ filter (fun t => negb (t =? ""))
            (map snd
               (map snd
                  (filter (fun p => negb (is_used (fst p) used))
                     (combine (seq 0 (List.length docs)) docs)))))%list
      (nonempty_texts docs) ->
    exists used' placed',
      curated secs docs used (blocks placed) = (used', blocks placed')
      /\ Permutation
           (map snd placed'
            ++ filter (fun t => negb (t =? ""))
                 (map snd
                    (map snd
                       (filter (fun p => negb (is_used (fst p) used'))
                          (combine (seq 0 (List.length docs)) docs)))))%list
           (nonempty_texts docs).
Proof.
  induction secs as [|[heading keywords] secs IH]; intros used placed Hinv.
  - exists used, placed. split; [reflexivity | exact Hinv].
  - cbn [curated]. unfold pick_first.
    destruct (pick_first_from_spec keywords docs 0 used)
      as [Hp|(b & f & t & a & Hd & Hp & Hfree & _)]; rewrite Hp.
    + cbn [String.eqb]. now apply IH.
    + cbn [Nat.add] in *.
      pose proof (unused_mark b a (f, t) 0 used Hfree) as Hmark.
      rewrite <- Hd in Hmark. cbn [Nat.add] in Hmark.
      apply (Permutation_map snd) in Hmark.
      apply (filter_perm (fun t => negb (t =? ""))) in Hmark.
      cbn [map snd filter] in Hmark.
      destruct (t =? "") eqn:Ht; cbn [negb] in Hmark.
      * apply IH. rewrite <- Hmark. exact Hinv.
      * replace (blocks placed ++ [block heading t])%list
          with (blocks (placed ++ [(heading, t)]))
          by (unfold blocks; now rewrite map_app).
        apply IH. rewrite map_app. cbn [map snd].
        rewrite <- app_assoc. cbn [app].
        rewrite <- Hmark. exact Hinv.
Qed.

(** X28. The guide is a sequence of blocks, each a heading over one text, and
    the texts of the blocks are the texts of the documents given, each
    non-empty one exactly once: no document is lost and none is shown
    twice, whatever the file names are. *)
Theorem guide_keeps_every_document (title : string -> string)
    (named_docs : list (string * string)) :
  exists parts,
    _format_liquid_user_guide title named_docs
    = join (nl_str ++ nl_str) (blocks parts)
    /\ Permutation (map snd parts) (nonempty_texts named_docs).
Proof.
  unfold _format_liquid_user_guide.
  destruct (curated_keeps_texts named_docs sections [] [])
    as (used & placed & Hc & Hinv).
  { cbn [map app]. rewrite unused_all. reflexivity. }
  change (@nil string) with (blocks []) at 1. rewrite Hc.
  destruct (pending_texts_exist title named_docs 0 used)
    as (pending & Hrem & Htexts).
  exists (placed ++ pending)%list. split.
  - rewrite Hrem. unfold blocks. now rewrite map_app.
  - rewrite map_app, Htexts. exact Hinv.
Qed.

End DocsSpec.
